(** * HTML to Markdown conversion: a shallow embedding of [src/lib/htmlToMarkdown.ts]

  The development follows the pipeline of [htmlToMarkdown]:
  input guard, input cap, [sanitize-html], JSDOM and the TreeWalker pass,
  Turndown with the two custom rules, the regular-expression cleanup chain
  and the [maxLength] cut.

  JavaScript strings are modelled by [string]; one [ascii] stands for one
  UTF-16 code unit in the range U+0000..U+00FF, so that [String.length] is
  the [length] property and [substring] the method of the same name.
  [maxLength] is an integer-valued JavaScript number, modelled by [Z].

  Of the node that calls [htmlToMarkdown],
  [src/nodes/HtmlToMarkdown/HtmlToMarkdown.node.ts], the development covers
  the text source: [isHtmlContent], [getNestedProperty], the lookup with
  its fallbacks and the conversion with its error handling; of the node
  with a conversion mode, [src/unnamed/part_003], the options of the
  custom mode. *)

From Stdlib Require Import Bool Arith ZArith List Ascii String Lia.
From Stdlib Require Import DecimalString.
Import ListNotations.

Open Scope string_scope.
Open Scope bool_scope.

(** ** JavaScript values, completions and string primitives *)

Module Js.

(** The values an untyped caller can pass where the signature says
    [html: string]. *)
Inductive Value : Type :=
| Undefined
| Null
| Boolean (b : bool)
| Number (z : Z)
| Str (s : string)
| Object.

(** ToBoolean. *)
Definition truthy (v : Value) : bool :=
  match v with
  | Undefined | Null => false
  | Boolean b => b
  | Number z => negb (Z.eqb z 0)
  | Str s => negb (String.eqb s EmptyString)
  | Object => true
  end.

Definition typeof (v : Value) : string :=
  match v with
  | Undefined => "undefined"
  | Null => "object"
  | Boolean _ => "boolean"
  | Number _ => "number"
  | Str _ => "string"
  | Object => "object"
  end.

(** A call either returns normally or throws. *)
Inductive Completion (A : Type) : Type :=
| Normal (a : A)
| Throw (message : string).
Arguments Normal {A} a.
Arguments Throw {A} message.

Definition bind {A B : Type} (c : Completion A) (k : A -> Completion B)
  : Completion B :=
  match c with
  | Normal a => k a
  | Throw m => Throw m
  end.

Definition LF : ascii := "010".
Definition isLF (c : ascii) : bool := Ascii.eqb c LF.
Definition isSpace (c : ascii) : bool := Ascii.eqb c " ".

(** The double quote. *)
Definition dquote : ascii := "034".

(** WhiteSpace and LineTerminator code units below U+0100: TAB, LF, VT,
    FF, CR, SPACE and NBSP.  This is the set [String.prototype.trim]
    strips and the set the class [\s] matches. *)
Definition isWhiteSpace (c : ascii) : bool :=
  let n := nat_of_ascii c in
  ((9 <=? n)%nat && (n <=? 13)%nat) || (n =? 32)%nat || (n =? 160)%nat.

Fixpoint trimStart (s : string) : string :=
  match s with
  | EmptyString => EmptyString
  | String c r => if isWhiteSpace c then trimStart r else s
  end.

Fixpoint trimEnd (s : string) : string :=
  match s with
  | EmptyString => EmptyString
  | String c r =>
      match trimEnd r with
      | EmptyString => if isWhiteSpace c then EmptyString else String c EmptyString
      | r' => String c r'
      end
  end.

Definition trim (s : string) : string := trimEnd (trimStart s).

(** [s.startsWith(p)] *)
Fixpoint startsWith (p s : string) : bool :=
  match p, s with
  | EmptyString, _ => true
  | String a p', String b s' => Ascii.eqb a b && startsWith p' s'
  | String _ _, EmptyString => false
  end.

(** [s.includes(p)] *)
Fixpoint includes (p s : string) : bool :=
  startsWith p s ||
  match s with
  | EmptyString => false
  | String _ r => includes p r
  end.

(** [a.includes(x)] on an array of strings. *)
Definition arrayIncludes (x : string) (a : list string) : bool :=
  existsb (String.eqb x) a.

(** A string is truthy when it is not empty. *)
Definition nonEmpty (s : string) : bool :=
  negb (String.eqb s EmptyString).

Definition isUpper (c : ascii) : bool :=
  let n := nat_of_ascii c in (65 <=? n)%nat && (n <=? 90)%nat.
Definition isLower (c : ascii) : bool :=
  let n := nat_of_ascii c in (97 <=? n)%nat && (n <=? 122)%nat.
Definition isDigit (c : ascii) : bool :=
  let n := nat_of_ascii c in (48 <=? n)%nat && (n <=? 57)%nat.

Definition lowerChar (c : ascii) : ascii :=
  if isUpper c then ascii_of_nat (nat_of_ascii c + 32) else c.
Definition upperChar (c : ascii) : ascii :=
  if isLower c then ascii_of_nat (nat_of_ascii c - 32) else c.

Fixpoint mapChars (f : ascii -> ascii) (s : string) : string :=
  match s with
  | EmptyString => EmptyString
  | String c r => String (f c) (mapChars f r)
  end.

Definition toLowerCase : string -> string := mapChars lowerChar.
Definition toUpperCase : string -> string := mapChars upperChar.

(** The longest prefix whose code units satisfy [f], and the rest. *)
Fixpoint takeWhile (f : ascii -> bool) (s : string) : string :=
  match s with
  | EmptyString => EmptyString
  | String c r => if f c then String c (takeWhile f r) else EmptyString
  end.

Fixpoint dropWhile (f : ascii -> bool) (s : string) : string :=
  match s with
  | EmptyString => EmptyString
  | String c r => if f c then dropWhile f r else s
  end.

Fixpoint reverseOnto (acc s : string) : string :=
  match s with
  | EmptyString => acc
  | String c r => reverseOnto (String c acc) r
  end.

Definition reverse (s : string) : string := reverseOnto EmptyString s.

(** The longest suffix whose code units satisfy [f], and what is before
    it. *)
Definition takeWhileEnd (f : ascii -> bool) (s : string) : string :=
  reverse (takeWhile f (reverse s)).
Definition dropWhileEnd (f : ascii -> bool) (s : string) : string :=
  reverse (dropWhile f (reverse s)).

(** [s.endsWith(" ")] and the like. *)
Definition lastIs (f : ascii -> bool) (s : string) : bool :=
  match reverse s with
  | EmptyString => false
  | String c _ => f c
  end.

Definition firstIs (f : ascii -> bool) (s : string) : bool :=
  match s with
  | EmptyString => false
  | String c _ => f c
  end.

Fixpoint allChars (f : ascii -> bool) (s : string) : bool :=
  match s with
  | EmptyString => true
  | String c r => f c && allChars f r
  end.

(** [s.substring(n)] *)
Fixpoint skip (n : nat) (s : string) : string :=
  match n, s with
  | O, _ => s
  | S n', String _ r => skip n' r
  | S _, EmptyString => EmptyString
  end.

End Js.

Import Js.

Notation "x <- c ;; k" := (Js.bind c (fun x => k))
  (at level 61, c at next level, right associativity).

(** ** Regular expressions, as far as the cleanup chain uses them

    Every pattern of the chain is a sequence of character classes, each
    matched once or under a greedy quantifier with a lower bound ([+],
    [*] and [{n,}]).  None of them matches the empty string. *)

Module Regex.

Inductive Item : Type :=
| Once (class : ascii -> bool)
| AtLeast (min : nat) (class : ascii -> bool).

Definition Pattern : Type := list Item.

(** The attempts of a greedy quantifier, the longest first: [min + extra]
    code units, then one less, down to [min]; [continue] matches what
    follows the quantifier. *)
Fixpoint backtrack (continue : string -> option (list string * string))
  (min : nat) (s : string) (extra : nat) : option (list string * string) :=
  match continue (skip (min + extra) s) with
  | Some (ms, rest) => Some (substring 0 (min + extra) s :: ms, rest)
  | None =>
      match extra with
      | O => None
      | S fewer => backtrack continue min s fewer
      end
  end.

(** Match [p] at the start of [s], with backtracking: the text each item
    has matched, and what follows the match. *)
Fixpoint matchAt (p : Pattern) (s : string) : option (list string * string) :=
  match p with
  | [] => Some ([], s)
  | Once class :: p' =>
      match s with
      | String c r =>
          if class c
          then match matchAt p' r with
               | Some (ms, rest) => Some (String c EmptyString :: ms, rest)
               | None => None
               end
          else None
      | EmptyString => None
      end
  | AtLeast min class :: p' =>
      let most := String.length (takeWhile class s) in
      if (min <=? most)%nat
      then backtrack (matchAt p') min s (most - min)
      else None
  end.

(** The scan of [s.replace(p, replacement)] for a global [p]: at each
    position the first match is replaced and the scan goes on behind it;
    where there is none, the code unit is copied.  [fuel] bounds the
    number of positions. *)
Fixpoint replaceFrom (fuel : nat) (p : Pattern)
  (replacement : list string -> string) (s : string) : string :=
  match fuel, s with
  | S fuel', String c r =>
      match matchAt p s with
      | Some (ms, rest) => replacement ms ++ replaceFrom fuel' p replacement rest
      | None => String c (replaceFrom fuel' p replacement r)
      end
  | _, _ => s
  end.

Definition replace (p : Pattern) (replacement : list string -> string)
  (s : string) : string :=
  replaceFrom (String.length s) p replacement s.

(** The text of the items from item [n] on: a group that runs to the
    end of the pattern. *)
Definition groupFrom (n : nat) (ms : list string) : string :=
  List.fold_right String.append EmptyString (skipn n ms).

End Regex.

Import Regex.

(** ** The cleanup chain of [htmlToMarkdown] (post-processing) *)

Module PostProcess.

Definition just (c : ascii) : ascii -> bool := Ascii.eqb c.

Definition anyBut (c : ascii) (d : ascii) : bool := negb (Ascii.eqb c d).

(** The class [[-*+]]. *)
Definition isListMarker (c : ascii) : bool :=
  Ascii.eqb c "-" || Ascii.eqb c "*" || Ascii.eqb c "+".

(** [/\n{3,}/g] *)
Definition manyNewlines : Pattern := [AtLeast 3 isLF].

(** [/\n+#/g] *)
Definition newlinesHash : Pattern := [AtLeast 1 isLF; Once (just "#")].

(** [/\n+(\s*[-*+])/g]; the group runs from the second item to the end. *)
Definition newlinesMarker : Pattern :=
  [AtLeast 1 isLF; AtLeast 0 isWhiteSpace; Once isListMarker].

(** [/\[]\([^)]*\)/g] *)
Definition emptyLink : Pattern :=
  [Once (just "["); Once (just "]"); Once (just "(");
   AtLeast 0 (anyBut ")"); Once (just ")")].

(** [/ {2,}/g] *)
Definition manySpaces : Pattern := [AtLeast 2 isSpace].

Definition twoNewlines : string := String LF (String LF EmptyString).

(** The chain of lines 192-204, in source order. *)
Definition cleanup (markdown : string) : string :=
  replace manySpaces (fun _ => " ")
    (replace emptyLink (fun _ => EmptyString)
      (replace newlinesMarker (fun ms => String LF (groupFrom 1 ms))
        (replace newlinesHash (fun _ => twoNewlines ++ "#")
          (trim
            (replace manyNewlines (fun _ => twoNewlines) markdown))))).

(** Lines 206-209: the length limit. *)
Definition applyLimit (maxLength : Z) (markdown : string) : string :=
  if (0 <? maxLength)%Z && (maxLength <? Z.of_nat (String.length markdown))%Z
  then substring 0 (Z.to_nat maxLength) markdown ++ "..."
  else markdown.

(** The Post-Processor of the specification: cleanup, then the limit. *)
Definition postProcess (markdown : string) (maxLength : Z) : string :=
  applyLimit maxLength (cleanup markdown).

(** *** The replacements as single passes

  Each global [replace] of the chain is also a left-to-right transducer
  over the code units: the patterns match non-empty text, matches never
  overlap, and scanning resumes after the end of a match.  The
  transducers are proved equal to the replacements below and carry the
  proofs about the chain. *)

(** [.replace(/\n{3,}/g, '\n\n')]: a maximal run of three or more LF is
    replaced by two LF, shorter runs are not matched; so every run keeps
    its first two LF.  [k] counts the LF already copied from the current
    run. *)
Fixpoint collapseNewlines (k : nat) (s : string) : string :=
  match s with
  | EmptyString => EmptyString
  | String c r =>
      if isLF c
      then if (k <? 2)%nat then String c (collapseNewlines (S k) r)
           else collapseNewlines k r
      else String c (collapseNewlines 0 r)
  end.

(** Is the leading run of LF directly followed by [#]? *)
Fixpoint hashAfterNewlines (s : string) : bool :=
  match s with
  | EmptyString => false
  | String c r => if isLF c then hashAfterNewlines r else Ascii.eqb c "#"
  end.

Inductive RunMode : Type :=
| Idle      (* outside a run of LF *)
| Dropping  (* in a matched run, after its first LF: LF are dropped *)
| Copying.  (* in an unmatched run: LF are copied *)

(** [.replace(/\n+#/g, '\n\n#')]: the match starts at the first LF of a
    maximal run that is directly followed by [#]; the whole run is
    replaced by two LF. *)
Fixpoint spaceHeaders (m : RunMode) (s : string) : string :=
  match s with
  | EmptyString => EmptyString
  | String c r =>
      if isLF c then
        match m with
        | Idle =>
            if hashAfterNewlines r
            then String LF (String LF (spaceHeaders Dropping r))
            else String c (spaceHeaders Copying r)
        | Dropping => spaceHeaders Dropping r
        | Copying => String c (spaceHeaders Copying r)
        end
      else String c (spaceHeaders Idle r)
  end.

(** Does [s] consist of white space followed by a list marker?  This is
    whether [\s*[-*+]] matches at the start of [s]. *)
Fixpoint markerAfterSpace (s : string) : bool :=
  match s with
  | EmptyString => false
  | String c r =>
      if isWhiteSpace c then markerAfterSpace r else isListMarker c
  end.

Inductive ListMode : Type :=
| Scan       (* looking for the start of a match *)
| DropLF     (* in a match, inside the run matched by [\n+] *)
| Group.     (* in a match, inside the group [(\s*[-*+])] *)

(** [.replace(/\n+(\s*[-*+])/g, '\n$1')]: a match starts at an LF from
    which white space leads to a list marker; [\n+] takes the maximal run
    of LF, the group takes the remaining white space and the marker.  The
    run is replaced by one LF, the group is copied. *)
Fixpoint tightenLists (m : ListMode) (s : string) : string :=
  match s with
  | EmptyString => EmptyString
  | String c r =>
      match m with
      | Scan =>
          if isLF c && markerAfterSpace r
          then String c (tightenLists DropLF r)
          else String c (tightenLists Scan r)
      | DropLF =>
          if isLF c then tightenLists DropLF r
          else if isWhiteSpace c then String c (tightenLists Group r)
          else String c (tightenLists Scan r)
      | Group =>
          if isWhiteSpace c then String c (tightenLists Group r)
          else String c (tightenLists Scan r)
      end
  end.

(** Is there a [)] in [s]? *)
Fixpoint hasClose (s : string) : bool :=
  match s with
  | EmptyString => false
  | String c r => Ascii.eqb c ")" || hasClose r
  end.

(** Does [/\[]\([^)]*\)/] match at the start of [s]? *)
Definition emptyLinkAt (s : string) : bool :=
  match s with
  | String a (String b (String c r)) =>
      Ascii.eqb a "[" && Ascii.eqb b "]" && Ascii.eqb c "(" && hasClose r
  | _ => false
  end.

(** [.replace(/\[]\([^)]*\)/g, '')]: a match runs from [[](] to the first
    [)] after it and is deleted.  [inside] says that the scan is within a
    match. *)
Fixpoint removeEmptyLinks (inside : bool) (s : string) : string :=
  match s with
  | EmptyString => EmptyString
  | String c r =>
      if inside
      then removeEmptyLinks (negb (Ascii.eqb c ")")) r
      else if emptyLinkAt s then removeEmptyLinks true r
           else String c (removeEmptyLinks false r)
  end.

(** [.replace(/ {2,}/g, ' ')]: every run of spaces keeps its first
    space.  [prev] says that the previous code unit was a space. *)
Fixpoint collapseSpaces (prev : bool) (s : string) : string :=
  match s with
  | EmptyString => EmptyString
  | String c r =>
      if isSpace c
      then if prev then collapseSpaces true r
           else String c (collapseSpaces true r)
      else String c (collapseSpaces false r)
  end.

(** The chain as single passes. *)
Definition cleanupScan (markdown : string) : string :=
  collapseSpaces false
    (removeEmptyLinks false
      (tightenLists Scan
        (spaceHeaders Idle
          (trim
            (collapseNewlines 0 markdown))))).

End PostProcess.

Import PostProcess.

(** ** The DOM, as far as [htmlToMarkdown] uses it *)

Module Dom.

(** Element and text nodes; comments, scripts and styles do not survive
    the sanitizer.  [localName] is the lower-case tag name, that is
    [tagName.toLowerCase()]. *)
#[warnings="-register-all"] Inductive Node : Type :=
| Text (data : string)
| Element (localName : string) (attributes : list (string * string))
          (childNodes : list Node).

Definition concatMap (f : Node -> string) : list Node -> string :=
  fix go (l : list Node) : string :=
    match l with
    | [] => EmptyString
    | x :: r => f x ++ go r
    end.

(** [node.textContent]: the text of all descendants, in document
    order. *)
Fixpoint textContent (n : Node) : string :=
  match n with
  | Text d => d
  | Element _ _ ch => concatMap textContent ch
  end.

Definition isElement (n : Node) : bool :=
  match n with
  | Text _ => false
  | Element _ _ _ => true
  end.

Definition localName (n : Node) : string :=
  match n with
  | Text _ => "#text"
  | Element name _ _ => name
  end.

Definition childNodes (n : Node) : list Node :=
  match n with
  | Text _ => []
  | Element _ _ ch => ch
  end.

Fixpoint lookupAttr (name : string) (attrs : list (string * string))
  : option string :=
  match attrs with
  | [] => None
  | (k, v) :: r => if String.eqb k name then Some v else lookupAttr name r
  end.

(** [element.getAttribute(name)]; [None] is [null]. *)
Definition getAttribute (name : string) (n : Node) : option string :=
  match n with
  | Text _ => None
  | Element _ attrs _ => lookupAttr name attrs
  end.

(** A node is identified by the child indices that lead to it from
    [document.body], in the tree as it is when the walk starts. *)
Definition Path : Type := list nat.

Definition path_eqb (p q : Path) : bool :=
  (fix go (a b : list nat) : bool :=
     match a, b with
     | [], [] => true
     | x :: a', y :: b' => Nat.eqb x y && go a' b'
     | _, _ => false
     end) p q.

Inductive FilterResult : Type :=
| FILTER_ACCEPT
| FILTER_REJECT
| FILTER_SKIP.

Definition walkChildren (f : Path -> Node -> list (Path * Node))
  (here : Path) : nat -> list Node -> list (Path * Node) :=
  fix go (i : nat) (l : list Node) : list (Path * Node) :=
    match l with
    | [] => []
    | x :: r => (f (here ++ [i]) x ++ go (S i) r)%list
    end.

(** The nodes that successive [walker.nextNode()] calls return for a
    TreeWalker with [whatToShow = SHOW_ELEMENT]: document order; a text
    node is skipped by [whatToShow]; an element the callback rejects is
    passed over together with its subtree; an element the callback skips
    is passed over but its children are visited. *)
Fixpoint walkNode (acceptNode : Node -> FilterResult) (p : Path) (n : Node)
  : list (Path * Node) :=
  match n with
  | Text _ => []
  | Element _ _ ch =>
      match acceptNode n with
      | FILTER_ACCEPT => (p, n) :: walkChildren (walkNode acceptNode) p 0 ch
      | FILTER_SKIP => walkChildren (walkNode acceptNode) p 0 ch
      | FILTER_REJECT => []
      end
  end.

(** The walk starts at the root, which [nextNode] never returns. *)
Definition treeWalker (acceptNode : Node -> FilterResult) (body : list Node)
  : list (Path * Node) :=
  walkChildren (walkNode acceptNode) [] 0 body.

Definition pruneChildren (f : Path -> Node -> Node) (doomed : list Path)
  (here : Path) : nat -> list Node -> list Node :=
  fix go (i : nat) (l : list Node) : list Node :=
    match l with
    | [] => []
    | x :: r =>
        if existsb (path_eqb (here ++ [i])%list) doomed
        then go (S i) r
        else f (here ++ [i])%list x :: go (S i) r
    end.

(** [doomed.forEach(el => el.remove())]: every listed node is detached
    from its parent.  Detaching a node inside an already detached subtree
    does not change the document, so the document loses exactly the
    listed nodes and what is below them. *)
Fixpoint pruneNode (doomed : list Path) (p : Path) (n : Node) : Node :=
  match n with
  | Text d => Text d
  | Element name attrs ch =>
      Element name attrs (pruneChildren (pruneNode doomed) doomed p 0 ch)
  end.

Definition removeAll (doomed : list Path) (body : list Node) : list Node :=
  pruneChildren (pruneNode doomed) doomed [] 0 body.

End Dom.

Import Dom.

(** ** Lines 107-133: the TreeWalker pass *)

Module Normalizer.

(** [!element.textContent?.trim()] *)
Definition isBlankText (n : Node) : bool :=
  String.eqb (trim (textContent n)) EmptyString.

(** The [acceptNode] callback of lines 112-120. *)
Definition acceptNode (n : Node) : FilterResult :=
  if existsb (String.eqb (localName n)) ["p"; "div"] && isBlankText n
  then FILTER_REJECT
  else FILTER_ACCEPT.

(** Lines 124-131: the elements the loop collects. *)
Definition elementsToRemove (body : list Node) : list (Path * Node) :=
  filter (fun e => isBlankText (snd e)) (treeWalker acceptNode body).

(** Line 133. *)
Definition normalize (body : list Node) : list Node :=
  removeAll (map fst (elementsToRemove body)) body.

End Normalizer.

Import Normalizer.

(** ** WHATWG URL and [decodeURIComponent], as the code uses them *)

Module Url.

(** What the code reads from a [URL] object: [hostname], and
    [searchParams] as the decoded name/value pairs in order. *)
Record URL : Type := {
  hostname : string;
  searchParams : list (string * string)
}.

(** [searchParams.get(name)]: the first value, [None] for [null]. *)
Fixpoint get (name : string) (params : list (string * string))
  : option string :=
  match params with
  | [] => None
  | (k, v) :: r => if String.eqb k name then Some v else get name r
  end.

End Url.

(** ** [sanitize-html]: the options [htmlToMarkdown] passes *)

Module SanitizeHtml.

(** The frame handed to [exclusiveFilter]. *)
Record Frame : Type := {
  tag : string;
  attribs : list (string * string)
}.

Record Options : Type := {
  allowedTags : list string;
  allowedAttributes : list (string * list string);
  allowedSchemes : list string;
  allowedSchemesByTag : list (string * list string);
  transformTags : list (string * string);
  allowedIframeHostnames : list string;
  exclusiveFilter : Frame -> bool
}.

End SanitizeHtml.

(** ** Turndown: the conversion engine

    The model follows Turndown 7.1: [process], [replacementForNode],
    [join], [Rules.forNode], blank nodes, flanking white space, [escape]
    and the final trim.  Its input is the tree that Turndown parses from
    the HTML string; the collapsing of white space that Turndown applies
    to that tree before it converts it is not modelled. *)

Module Turndown.

Record Options : Type := {
  headingStyle : string;
  codeBlockStyle : string;
  emDelimiter : string;
  strongDelimiter : string;
  bulletListMarker : string;
  linkStyle : string;
  linkReferenceStyle : string;
  hr : string;
  br : string
}.

(** Where a node sits: what a replacement function can reach through
    [node.parentNode], [node.previousSibling] and [node.nextSibling].
    [previousSiblings] lists the nearest sibling first. *)
Record Site : Type := {
  parentNode : Node;
  previousSiblings : list Node;
  nextSiblings : list Node;
  insideCode : bool
}.

(** A rule's [filter] is a tag name, an array of tag names or a
    function. *)
Inductive Filter : Type :=
| TagName (name : string)
| TagNames (names : list string)
| Predicate (f : Node -> Options -> bool).

Record Rule : Type := {
  filter : Filter;
  replacement : string -> Node -> Site -> Options -> string
}.

(** The rule store: [array] holds the added rules followed by the
    built-in ones, [keep] and [remove] the rules of the methods of the
    same names. *)
Record Rules : Type := {
  array : list Rule;
  keep : list Rule;
  remove : list Rule
}.

Definition blockElements : list string :=
  ["address"; "article"; "aside"; "audio"; "blockquote"; "body"; "canvas";
   "center"; "dd"; "dir"; "div"; "dl"; "dt"; "fieldset"; "figcaption";
   "figure"; "footer"; "form"; "frameset"; "h1"; "h2"; "h3"; "h4"; "h5";
   "h6"; "header"; "hgroup"; "hr"; "html"; "isindex"; "li"; "main"; "menu";
   "nav"; "noframes"; "noscript"; "ol"; "output"; "p"; "pre"; "section";
   "table"; "tbody"; "td"; "tfoot"; "th"; "thead"; "tr"; "ul"].

Definition voidElements : list string :=
  ["area"; "base"; "br"; "col"; "command"; "embed"; "hr"; "img"; "input";
   "keygen"; "link"; "meta"; "param"; "source"; "track"; "wbr"].

Definition meaningfulWhenBlankElements : list string :=
  ["a"; "table"; "thead"; "tbody"; "tfoot"; "th"; "td"; "iframe"; "script";
   "audio"; "video"].

(** [is(node, tagNames)] *)
Definition isTag (n : Node) (tagNames : list string) : bool :=
  isElement n && arrayIncludes (localName n) tagNames.

Definition isBlock (n : Node) : bool := isTag n blockElements.
Definition isVoid (n : Node) : bool := isTag n voidElements.
Definition isMeaningfulWhenBlank (n : Node) : bool :=
  isTag n meaningfulWhenBlankElements.

(** [has(node, tagNames)]: some descendant element has one of the
    names. *)
Fixpoint has (tagNames : list string) (n : Node) : bool :=
  match n with
  | Text _ => false
  | Element _ _ ch =>
      existsb (fun c => isTag c tagNames || has tagNames c) ch
  end.

Definition isBlank (n : Node) : bool :=
  negb (isVoid n) &&
  negb (isMeaningfulWhenBlank n) &&
  allChars isWhiteSpace (textContent n) &&
  negb (has voidElements n) &&
  negb (has meaningfulWhenBlankElements n).

Definition blankReplacement (content : string) (n : Node) : string :=
  if isBlock n then String LF (String LF EmptyString) else EmptyString.

Definition defaultReplacement (content : string) (n : Node) : string :=
  if isBlock n
  then String LF (String LF content) ++ String LF (String LF EmptyString)
  else content.

Definition blankRule : Rule :=
  {| filter := Predicate (fun n _ => isBlank n);
     replacement := fun content n _ _ => blankReplacement content n |}.

Definition defaultRule : Rule :=
  {| filter := Predicate (fun _ _ => true);
     replacement := fun content n _ _ => defaultReplacement content n |}.

Definition filterValue (r : Rule) (n : Node) (o : Options) : bool :=
  match filter r with
  | TagName name => String.eqb name (localName n)
  | TagNames names => arrayIncludes (localName n) names
  | Predicate f => f n o
  end.

Fixpoint findRule (rules : list Rule) (n : Node) (o : Options)
  : option Rule :=
  match rules with
  | [] => None
  | r :: rest => if filterValue r n o then Some r else findRule rest n o
  end.

(** [Rules.forNode] *)
Definition forNode (rules : Rules) (n : Node) (o : Options) : Rule :=
  if isBlank n then blankRule
  else match findRule (array rules) n o with
       | Some r => r
       | None =>
           match findRule (keep rules) n o with
           | Some r => r
           | None =>
               match findRule (remove rules) n o with
               | Some r => r
               | None => defaultRule
               end
           end
       end.

(** [join]: at most two LF between an output and the next replacement. *)
Definition join (output replacement : string) : string :=
  let s1 := dropWhileEnd isLF output in
  let s2 := dropWhile isLF replacement in
  let nls := Nat.max (String.length output - String.length s1)
                     (String.length replacement - String.length s2) in
  let separator := substring 0 nls (String LF (String LF EmptyString)) in
  s1 ++ separator ++ s2.

(** [escape]: the thirteen replacements, in the order of the table.  A
    pattern anchored at [^] can only match at the start of the text. *)
Fixpoint escapeChar (c : ascii) (s : string) : string :=
  match s with
  | EmptyString => EmptyString
  | String d r =>
      if Ascii.eqb d c then String "\" (String d (escapeChar c r))
      else String d (escapeChar c r)
  end.

Definition escapeStartIf (matches : string -> bool) (s : string) : string :=
  if matches s then String "\" s else s.

Definition startsWithHeading (s : string) : bool :=
  let hashes := takeWhile (Ascii.eqb "#") s in
  (1 <=? String.length hashes)%nat && (String.length hashes <=? 6)%nat &&
  firstIs isSpace (skip (String.length hashes) s).

Definition escapeOrdinal (s : string) : string :=
  let digits := takeWhile isDigit s in
  let rest := skip (String.length digits) s in
  if nonEmpty digits && startsWith ". " rest
  then digits ++ String "\" rest
  else s.

Definition escapes : list (string -> string) :=
  [escapeChar "\";
   escapeChar "*";
   escapeStartIf (startsWith "-");
   escapeStartIf (startsWith "+ ");
   escapeStartIf (startsWith "=");
   escapeStartIf startsWithHeading;
   escapeChar "`";
   escapeStartIf (startsWith "~~~");
   escapeChar "[";
   escapeChar "]";
   escapeStartIf (startsWith ">");
   escapeChar "_";
   escapeOrdinal].

Definition escape (s : string) : string :=
  fold_left (fun acc esc => esc acc) escapes s.

(** The class [[ \t\r\n]]. *)
Definition isAsciiSpace (c : ascii) : bool :=
  isSpace c || Ascii.eqb c "009" || Ascii.eqb c "013" || isLF c.

Record Edges : Type := {
  leadingAscii : string;
  leadingNonAscii : string;
  trailingNonAscii : string;
  trailingAscii : string
}.

(** [edgeWhitespace] *)
Definition edgeWhitespace (s : string) : Edges :=
  let la := takeWhile isAsciiSpace s in
  let s1 := dropWhile isAsciiSpace s in
  let ln := takeWhile isWhiteSpace s1 in
  let s2 := dropWhile isWhiteSpace s1 in
  let trailing := takeWhileEnd isWhiteSpace s2 in
  {| leadingAscii := la;
     leadingNonAscii := ln;
     trailingNonAscii := dropWhileEnd isAsciiSpace trailing;
     trailingAscii := takeWhileEnd isAsciiSpace trailing |}.

(** [isFlankedByWhitespace], with [preformattedCode] off. *)
Definition flankedBy (test : string -> bool) (sibling : option Node) : bool :=
  match sibling with
  | None => false
  | Some (Text d) => test d
  | Some (Element _ _ _ as e) => negb (isBlock e) && test (textContent e)
  end.

(** [flankingWhitespace] *)
Definition flankingWhitespace (site : Site) (n : Node) : string * string :=
  if isBlock n then (EmptyString, EmptyString)
  else
    let e := edgeWhitespace (textContent n) in
    let leading :=
      if nonEmpty (leadingAscii e) &&
         flankedBy (lastIs isSpace) (hd_error (previousSiblings site))
      then leadingNonAscii e
      else leadingAscii e ++ leadingNonAscii e in
    let trailing :=
      if nonEmpty (trailingAscii e) &&
         flankedBy (firstIs isSpace) (hd_error (nextSiblings site))
      then trailingNonAscii e
      else trailingNonAscii e ++ trailingAscii e in
    (leading, trailing).

(** The [reduce] of [process] over the children of [parent]. *)
Definition reduceChildren (f : Site -> Node -> string) (parent : Node)
  (code : bool) : list Node -> list Node -> string -> string :=
  fix go (before : list Node) (l : list Node) (output : string) : string :=
    match l with
    | [] => output
    | x :: r =>
        let site := {| parentNode := parent; previousSiblings := before;
                       nextSiblings := r; insideCode := code |} in
        go (x :: before) r (join output (f site x))
    end.

(** The replacement of one child in [process]: escaped text for a text
    node, [replacementForNode] for an element. *)
Fixpoint replacementForNode (rules : Rules) (o : Options) (site : Site)
  (n : Node) {struct n} : string :=
  match n with
  | Text d => if insideCode site then d else escape d
  | Element name _ ch =>
      let rule := forNode rules n o in
      let code := String.eqb name "code" || insideCode site in
      let content :=
        reduceChildren (replacementForNode rules o) n code [] ch EmptyString in
      let (leading, trailing) := flankingWhitespace site n in
      let content :=
        if nonEmpty leading || nonEmpty trailing then trim content
        else content in
      leading ++ replacement rule content n site o ++ trailing
  end.

Definition process (rules : Rules) (o : Options) (parent : Node) : string :=
  reduceChildren (replacementForNode rules o) parent false []
    (childNodes parent) EmptyString.

(** The end of [postProcess]:
    [.replace(/^[\t\r\n]+/, '').replace(/[\t\r\n\s]+$/, '')]. *)
Definition trimOutput (output : string) : string :=
  dropWhileEnd isWhiteSpace
    (dropWhile (fun c => Ascii.eqb c "009" || Ascii.eqb c "013" || isLF c)
       output).

(** [turndown(input)], on the children of the root that was parsed from
    [input]. *)
Definition turndown (rules : Rules) (o : Options) (root : list Node)
  : string :=
  match root with
  | [] => EmptyString
  | _ => trimOutput (process rules o (Element "x-turndown" [] root))
  end.

End Turndown.

(** ** The libraries [htmlToMarkdown] calls

    [sanitize-html], JSDOM, the [URL] constructor, [decodeURIComponent] and
    Turndown's built-in rules are not part of the repository.  The code is
    embedded over an arbitrary [Host]; what is proved for every [Host]
    holds whatever these libraries do. *)

Record Host : Type := {
  (** [sanitizeHtml(html, options)] *)
  sanitizeHtml : string -> SanitizeHtml.Options -> Completion string;
  (** The children of [new JSDOM(html).window.document.body]. *)
  parseBody : string -> Completion (list Node);
  (** [new URL(href)], which throws a [TypeError] on an invalid URL. *)
  newURL : string -> Completion Url.URL;
  (** [decodeURIComponent(s)], which throws a [URIError]. *)
  decodeURIComponent : string -> Completion string;
  (** The CommonMark rules a new [TurndownService] starts with. *)
  commonmarkRules : list Turndown.Rule
}.

(** ** [src/lib/htmlToMarkdown.ts] *)

Record HtmlToMarkdownOptions : Type := {
  preserveTables : option bool;
  maxLength : option Z;
  includeImageAlt : option bool;
  allowedDomains : option (list string);
  preserveLineBreaks : option bool
}.

(** [options = {}] *)
Definition noOptions : HtmlToMarkdownOptions :=
  {| preserveTables := None; maxLength := None; includeImageAlt := None;
     allowedDomains := None; preserveLineBreaks := None |}.

(** A destructuring default: the default stands in for [undefined]. *)
Definition orDefault {A : Type} (d : A) (o : option A) : A :=
  match o with
  | Some a => a
  | None => d
  end.

(** Lines 51-60. *)
Definition allowedTags (preserveTables : bool) : list string :=
  (["p"; "br"; "b"; "strong"; "i"; "em"; "a";
    "ul"; "ol"; "li"; "blockquote"; "code";
    "pre"; "h1"; "h2"; "h3"; "h4"; "h5"; "h6";
    "img"; "hr"] ++
   (if preserveTables
    then ["table"; "thead"; "tbody"; "tr"; "th"; "td"]
    else []))%list.

(** Lines 88-100. *)
Definition exclusiveFilter (H : Host) (allowedDomains : list string)
  (frame : SanitizeHtml.Frame) : bool :=
  if (List.length allowedDomains =? 0)%nat then false
  else
    match lookupAttr "href" (SanitizeHtml.attribs frame) with
    | Some href =>
        if String.eqb (SanitizeHtml.tag frame) "a" && nonEmpty href
        then match newURL H href with
             | Normal url =>
                 negb (arrayIncludes (Url.hostname url) allowedDomains)
             | Throw _ => true
             end
        else false
    | None => false
    end.

(** Lines 63-101: the second argument of [sanitizeHtml]. *)
Definition sanitizeOptions (H : Host) (preserveTables includeImageAlt : bool)
  (allowedDomains : list string) (preserveLineBreaks : bool)
  : SanitizeHtml.Options :=
  {| SanitizeHtml.allowedTags := allowedTags preserveTables;
     SanitizeHtml.allowedAttributes :=
       [("a", ["href"; "title"]);
        ("img", if includeImageAlt then ["src"; "alt"; "title"]
                else ["src"; "title"])];
     SanitizeHtml.allowedSchemes := ["http"; "https"; "mailto"];
     SanitizeHtml.allowedSchemesByTag := [("img", ["http"; "https"; "data"])];
     SanitizeHtml.transformTags :=
       [("div", if preserveLineBreaks then "p" else EmptyString);
        ("span", EmptyString);
        ("section", "p");
        ("article", "p");
        ("header", "p");
        ("footer", "p");
        ("aside", "blockquote");
        ("h7", "h6");
        ("h8", "h6")];
     SanitizeHtml.allowedIframeHostnames := [];
     SanitizeHtml.exclusiveFilter := exclusiveFilter H allowedDomains |}.

(** Lines 136-146. *)
Definition turndownOptions (preserveLineBreaks : bool) : Turndown.Options :=
  {| Turndown.headingStyle := "atx";
     Turndown.codeBlockStyle := "fenced";
     Turndown.emDelimiter := "*";
     Turndown.strongDelimiter := "**";
     Turndown.bulletListMarker := "-";
     Turndown.linkStyle := "inlined";
     Turndown.linkReferenceStyle := "full";
     Turndown.hr := "---";
     Turndown.br := if preserveLineBreaks then String LF EmptyString else " " |}.

(** Lines 149-155. *)
Definition removeEmptyParagraphs : Turndown.Rule :=
  {| Turndown.filter := Turndown.TagNames ["p"];
     Turndown.replacement := fun content _ _ _ =>
       let trimmed := trim content in
       if nonEmpty trimmed
       then String LF (String LF trimmed) ++ String LF (String LF EmptyString)
       else EmptyString |}.

(** [node.nodeName] of an element of an HTML document is the upper-case
    tag name. *)
Definition nodeName (n : Node) : string :=
  match n with
  | Text _ => "#text"
  | Element name _ _ => toUpperCase name
  end.

(** Lines 159-164. *)
Definition emailLinksFilter (n : Node) : bool :=
  if negb (String.eqb (nodeName n) "A") then false
  else match getAttribute "href" n with
       | Some href =>
           nonEmpty href &&
           (includes "safelink.emails" href || includes "redirect" href)
       | None => false
       end.

(** A template literal prints [null] as the text [null]. *)
Definition templateValue (v : option string) : string :=
  match v with
  | Some s => s
  | None => "null"
  end.

Definition inlineLink (content url : string) : string :=
  "[" ++ content ++ "](" ++ url ++ ")".

(** Lines 170-176: the body of the [try] block; [Normal None] when it
    falls through without returning. *)
Definition extractDestination (H : Host) (content href : string)
  : Completion (option string) :=
  url <- newURL H href ;;
  match Url.get "destination" (Url.searchParams url) with
  | Some destination =>
      if nonEmpty destination
      then decodedUrl <- decodeURIComponent H destination ;;
           Normal (Some (inlineLink content decodedUrl))
      else Normal None
  | None => Normal None
  end.

(** Lines 165-182. *)
Definition emailLinksReplacement (H : Host) (content : string) (n : Node)
  : string :=
  let href := getAttribute "href" n in
  let fallback := inlineLink content (templateValue href) in
  match href with
  | Some h =>
      if nonEmpty h
      then match extractDestination H content h with
           | Normal (Some result) => result
           | Normal None => fallback
           | Throw _ => fallback
           end
      else fallback
  | None => fallback
  end.

Definition emailLinks (H : Host) : Turndown.Rule :=
  {| Turndown.filter := Turndown.Predicate (fun n _ => emailLinksFilter n);
     Turndown.replacement := fun content n _ _ =>
       emailLinksReplacement H content n |}.

(** Line 186. *)
Definition removed : Turndown.Rule :=
  {| Turndown.filter :=
       Turndown.TagNames
         ["script"; "style"; "meta"; "link"; "noscript"; "iframe"];
     Turndown.replacement := fun _ _ _ _ => EmptyString |}.

(** The rule store after lines 136-186: [addRule] puts a rule in front of
    the ones that are already there. *)
Definition rules (H : Host) : Turndown.Rules :=
  {| Turndown.array :=
       emailLinks H :: removeEmptyParagraphs :: commonmarkRules H;
     Turndown.keep := [];
     Turndown.remove := [removed] |}.

Definition mergeAdjacent (f : Node -> Node) : list Node -> list Node :=
  fix go (l : list Node) : list Node :=
    match l with
    | [] => []
    | x :: r =>
        match f x, go r with
        | Text a, Text b :: r' => Text (a ++ b) :: r'
        | y, r' => y :: r'
        end
    end.

Fixpoint reparsed (n : Node) : Node :=
  match n with
  | Text d => Text d
  | Element name attrs ch => Element name attrs (mergeAdjacent reparsed ch)
  end.

(** Line 189 hands [document.body.innerHTML] to Turndown, which parses it
    again: text nodes that the removals made adjacent come back as
    one. *)
Definition innerHTML (body : list Node) : list Node :=
  mergeAdjacent reparsed body.

(** Lines 45-48. *)
Definition capInput (maxLength : Z) (html : string) : string :=
  if (0 <? maxLength)%Z && (maxLength * 10 <? Z.of_nat (String.length html))%Z
  then substring 0 (Z.to_nat (maxLength * 10)) html
  else html.

(** Lines 62-204: from the capped input to the cleaned Markdown, before
    the length limit. *)
Definition convert (H : Host) (html : string)
  (options : HtmlToMarkdownOptions) : Completion string :=
  let preserveTables := orDefault false (preserveTables options) in
  let includeImageAlt := orDefault true (includeImageAlt options) in
  let allowedDomains := orDefault [] (allowedDomains options) in
  let preserveLineBreaks := orDefault false (preserveLineBreaks options) in
  sanitized <- sanitizeHtml H html
    (sanitizeOptions H preserveTables includeImageAlt allowedDomains
       preserveLineBreaks) ;;
  body <- parseBody H sanitized ;;
  let body := normalize body in
  let markdown :=
    Turndown.turndown (rules H) (turndownOptions preserveLineBreaks)
      (innerHTML body) in
  Normal (cleanup markdown).

(** Lines 28-212. *)
Definition htmlToMarkdown (H : Host) (html : Js.Value)
  (options : HtmlToMarkdownOptions) : Completion string :=
  let maxLength := orDefault 0%Z (maxLength options) in
  if negb (truthy html) || negb (String.eqb (typeof html) "string")
  then Normal EmptyString
  else
    match html with
    | Str html =>
        let html := capInput maxLength html in
        markdown <- convert H html options ;;
        Normal (applyLimit maxLength markdown)
    | _ => Normal EmptyString
    end.

(** Lines 217-219. *)
Definition htmlToMarkdownSimple (H : Host) (html : Js.Value)
  : Completion string :=
  htmlToMarkdown H html noOptions.

(** Lines 224-231. *)
Definition emailToMarkdown (H : Host) (html : Js.Value) : Completion string :=
  htmlToMarkdown H html
    {| maxLength := Some 10000%Z;
       includeImageAlt := Some true;
       preserveLineBreaks := Some false;
       preserveTables := Some false;
       allowedDomains := None |}.

(** ** Regular expressions under [test]

    [RegExp.prototype.test] asks whether the pattern matches somewhere in
    the text; with [^] and [$] around the pattern, whether it matches the
    whole text. *)

Module RegexTest.

(** [p.test(s)]: is there a position of [s], its end included, at which
    [p] matches? *)
Fixpoint search (p : Pattern) (s : string) : bool :=
  match matchAt p s with
  | Some _ => true
  | None =>
      match s with
      | EmptyString => false
      | String _ r => search p r
      end
  end.

(** The attempts of a greedy quantifier, as in [backtrack], when only
    success matters. *)
Fixpoint tries (continue : string -> bool) (min : nat) (s : string)
  (extra : nat) : bool :=
  continue (skip (min + extra) s) ||
  match extra with
  | O => false
  | S fewer => tries continue min s fewer
  end.

(** Does [p] match all of [s]?  This is [test] for the pattern between
    [^] and [$]. *)
Fixpoint matchesAll (p : Pattern) (s : string) : bool :=
  match p with
  | [] => String.eqb s EmptyString
  | Once class :: p' =>
      match s with
      | String c r => class c && matchesAll p' r
      | EmptyString => false
      end
  | AtLeast min class :: p' =>
      let most := String.length (takeWhile class s) in
      (min <=? most)%nat && tries (matchesAll p') min s (most - min)
  end.

End RegexTest.

Import RegexTest.

(** ** JSON data, as the nodes read it

    The values of [item.json]: JSON values, and functions, which the
    prototypes hold.  An object is the list of its own enumerable
    properties in the order [Object.keys] reports them.  Numbers are
    integers here; no result depends on the value of a number. *)

Module Data.

#[warnings="-register-all"] Inductive Json : Type :=
| JUndefined
| JNull
| JBoolean (b : bool)
| JNumber (z : Z)
| JString (s : string)
| JArray (items : list Json)
| JObject (fields : list (string * Json))
| JFunction.

Definition typeof (v : Json) : string :=
  match v with
  | JUndefined => "undefined"
  | JNull => "object"
  | JBoolean _ => "boolean"
  | JNumber _ => "number"
  | JString _ => "string"
  | JArray _ => "object"
  | JObject _ => "object"
  | JFunction => "function"
  end.

(** ToBoolean. *)
Definition truthy (v : Json) : bool :=
  match v with
  | JUndefined | JNull => false
  | JBoolean b => b
  | JNumber z => negb (Z.eqb z 0)
  | JString s => nonEmpty s
  | JArray _ | JObject _ | JFunction => true
  end.

(** [v === undefined || v === null] *)
Definition isNullish (v : Json) : bool :=
  match v with
  | JUndefined | JNull => true
  | _ => false
  end.

(** What an object and an array inherit: the properties of
    [Object.prototype] and of [Array.prototype] with its chain.  They are
    not part of the repository; the code is embedded over arbitrary
    ones. *)
Record Prototypes : Type := {
  objectPrototype : string -> option Json;
  arrayPrototype : string -> option Json
}.

(** [String(n)] for an index. *)
Definition decimal (n : nat) : string :=
  NilZero.string_of_uint (Nat.to_uint n).

Fixpoint lookup (key : string) (fields : list (string * Json))
  : option Json :=
  match fields with
  | [] => None
  | (k, v) :: r => if String.eqb k key then Some v else lookup key r
  end.

(** The element of an array whose index, written in decimal, is [key];
    [i] is the index of the first of [items]. *)
Fixpoint element (items : list Json) (i : nat) (key : string)
  : option Json :=
  match items with
  | [] => None
  | x :: r => if String.eqb (decimal i) key then Some x
              else element r (S i) key
  end.

Definition ownProperty (v : Json) (key : string) : option Json :=
  match v with
  | JObject fields => lookup key fields
  | JArray items =>
      match element items 0 key with
      | Some x => Some x
      | None =>
          if String.eqb key "length"
          then Some (JNumber (Z.of_nat (List.length items)))
          else None
      end
  | _ => None
  end.

Definition inherited (P : Prototypes) (v : Json) (key : string)
  : option Json :=
  match v with
  | JObject _ => objectPrototype P key
  | JArray _ => arrayPrototype P key
  | _ => None
  end.

Definition property (P : Prototypes) (v : Json) (key : string)
  : option Json :=
  match ownProperty v key with
  | Some x => Some x
  | None => inherited P v key
  end.

(** [v[key]] for an object or an array [v]. *)
Definition get (P : Prototypes) (v : Json) (key : string) : Json :=
  match property P v key with
  | Some x => x
  | None => JUndefined
  end.

(** [key in v] for an object or an array [v]. *)
Definition has (P : Prototypes) (v : Json) (key : string) : bool :=
  match property P v key with
  | Some _ => true
  | None => false
  end.

(** [Object.keys(v)] *)
Definition keys (v : Json) : list string :=
  match v with
  | JObject fields => map fst fields
  | JArray items => map decimal (seq 0 (List.length items))
  | _ => []
  end.

(** [s.split(sep)] for a separator of one code unit. *)
Fixpoint split (sep : ascii) (s : string) : list string :=
  match s with
  | EmptyString => [EmptyString]
  | String c r =>
      if Ascii.eqb c sep then EmptyString :: split sep r
      else match split sep r with
           | [] => [String c EmptyString]
           | x :: xs => String c x :: xs
           end
  end.

(** [a.join(sep)] *)
Fixpoint join (sep : string) (a : list string) : string :=
  match a with
  | [] => EmptyString
  | [x] => x
  | x :: r => x ++ sep ++ join sep r
  end.

End Data.

(** ** [src/nodes/HtmlToMarkdown/HtmlToMarkdown.node.ts]

    The parameters have the types their casts state. *)

Module HtmlToMarkdownNode.
Import Data.

Definition CR : ascii := "013".

(** A text between double quotes. *)
Definition inQuotes (s : string) : string :=
  String dquote s ++ String dquote EmptyString.

(** A letter of a pattern under the flag [i]. *)
Definition ignoreCase (c : ascii) (d : ascii) : bool :=
  Ascii.eqb (lowerChar d) c.

Fixpoint word (w : string) : Pattern :=
  match w with
  | EmptyString => []
  | String c r => Once (ignoreCase c) :: word r
  end.

Definition between (lo hi : ascii) (c : ascii) : bool :=
  (nat_of_ascii lo <=? nat_of_ascii c)%nat &&
  (nat_of_ascii c <=? nat_of_ascii hi)%nat.

(** The dot: any code unit but a line terminator. *)
Definition dot (c : ascii) : bool := negb (isLF c || Ascii.eqb c CR).

Definition isQuote (c : ascii) : bool :=
  Ascii.eqb c dquote || Ascii.eqb c "'".

Definition notQuote (c : ascii) : bool := negb (isQuote c).

Definition entityChar (c : ascii) : bool :=
  isLower c || isUpper c || isDigit c || Ascii.eqb c "#".

Definition nameStart (c : ascii) : bool :=
  isLower c || isUpper c || Ascii.eqb c "_".

Definition nameChar (c : ascii) : bool :=
  isLower c || isUpper c || isDigit c || Ascii.eqb c "_" || Ascii.eqb c ".".

(** Line 123: a [<], one or more code units other than [>], a [>]. *)
Definition htmlTag : Pattern :=
  [Once (just "<"); AtLeast 1 (anyBut ">"); Once (just ">")].

(** Line 128: a [<] and one of the element names, under the flag [i];
    one pattern for each alternative. *)
Definition commonElement : list Pattern :=
  (map (fun w => Once (just "<") :: word w)
     ["html"; "head"; "body"; "div"; "p"; "span"; "table"; "ul"; "ol"; "li"]
   ++ [[Once (just "<"); Once (ignoreCase "h"); Once (between "1" "6")]]
   ++ map (fun w => Once (just "<") :: word w) ["a"; "img"; "br"; "hr"])%list.

(** Line 131: a tag, anything on the same line, and a closing tag. *)
Definition properStructure : Pattern :=
  [Once (just "<"); AtLeast 1 (anyBut ">"); Once (just ">");
   AtLeast 0 dot;
   Once (just "<"); Once (just "/"); AtLeast 1 (anyBut ">"); Once (just ">")].

(** Line 140. *)
Definition htmlEntity : Pattern :=
  [Once (just "&"); AtLeast 1 entityChar; Once (just ";")].

(** Line 141: [=], white space, a quote, code units other than quotes, a
    quote. *)
Definition htmlAttribute : Pattern :=
  [Once (just "="); AtLeast 0 isWhiteSpace; Once isQuote;
   AtLeast 0 notQuote; Once isQuote].

(** Line 150, between [^] and [$]. *)
Definition simpleName : Pattern := [Once nameStart; AtLeast 0 nameChar].

(** Lines 111-160. *)
Definition isHtmlContent (P : Prototypes) (textPropertyName : Json)
  (jsonData : Json) : bool :=
  match textPropertyName with
  | JString text =>
      if (String.length text <? 10)%nat then false
      else
        let hasHtmlTags := search htmlTag text in
        if hasHtmlTags &&
           (existsb (fun p => search p text) commonElement ||
            search properStructure text)
        then true
        else
          let hasHtmlEntities := search htmlEntity text in
          let hasHtmlAttributes := search htmlAttribute text in
          if hasHtmlEntities || hasHtmlAttributes then true
          else
            let isShortPropertyName := (String.length text <? 50)%nat in
            let isSimplePropertyName := matchesAll simpleName text in
            let existsInJson :=
              truthy jsonData && String.eqb (typeof jsonData) "object" &&
              has P jsonData text in
            if isShortPropertyName && isSimplePropertyName && existsInJson
            then false
            else (30 <? String.length text)%nat &&
                 (hasHtmlTags || hasHtmlEntities)
  | _ => false
  end.

(** Lines 174-179: the loop over the keys. *)
Fixpoint descend (P : Prototypes) (current : Json) (keys : list string)
  : Json :=
  match keys with
  | [] => current
  | key :: rest =>
      if isNullish current || negb (String.eqb (typeof current) "object")
      then JUndefined
      else descend P (get P current key) rest
  end.

(** Lines 166-182. *)
Definition getNestedProperty (P : Prototypes) (obj : Json) (path : string)
  : Json :=
  if negb (truthy obj) || negb (String.eqb (typeof obj) "object")
  then JUndefined
  else descend P obj (split "." path).

(** Line 238. *)
Definition commonProperties : list string :=
  ["html"; "content"; "body"; "text"; "data"; "body.content"; "body.html"].

(** Lines 239-245: the callback of [find]. *)
Definition holdsText (P : Prototypes) (json : Json) (prop : string) : bool :=
  match getNestedProperty P json prop with
  | JString value => (0 <? String.length (trim value))%nat
  | _ => false
  end.

(** Lines 255-257. *)
Definition isEmailData (availableProperties : list string) : bool :=
  existsb
    (fun prop =>
       arrayIncludes prop
         ["body"; "subject"; "sender"; "from"; "toRecipients";
          "receivedDateTime"])
    availableProperties.

(** Lines 259-261. *)
Definition suggestion (availableProperties : list string) : string :=
  if isEmailData availableProperties
  then ". For email data, try using " ++ inQuotes "body.content" ++ ", " ++
       inQuotes "body.html" ++ ", or " ++ inQuotes "body" ++
       " as the Text Property."
  else ". Try using one of the common properties: " ++
       "html, content, body, text, data, body.content, or body.html.".

Definition itemPrefix (i : nat) : string := "Item " ++ decimal i ++ ": ".

(** Lines 232-278: the value of the property the parameter names. *)
Definition lookedUp (P : Prototypes) (i : nat) (textPropertyName : string)
  (json : Json) : Completion string :=
  let availableProperties := keys json in
  let named := getNestedProperty P json textPropertyName in
  let (jsonValue, actualPropertyUsed) :=
    if isNullish named
    then match find (holdsText P json) commonProperties with
         | Some foundProperty =>
             (getNestedProperty P json foundProperty, foundProperty)
         | None => (named, textPropertyName)
         end
    else (named, textPropertyName) in
  if isNullish jsonValue
  then Throw (itemPrefix i ++ "Text property " ++
              inQuotes textPropertyName ++ " not found" ++
              suggestion availableProperties ++
              " Available properties: " ++ join ", " availableProperties)
  else
    match jsonValue with
    | JString html => Normal html
    | _ => Throw (itemPrefix i ++ "Text property " ++
                  inQuotes actualPropertyUsed ++
                  " must be a string, got " ++ typeof jsonValue)
    end.

(** Lines 208-288: the HTML of item [i] when the source is the text
    field. *)
Definition textSource (P : Prototypes) (i : nat) (textPropertyName : string)
  (json : Json) : Completion string :=
  if negb (truthy json) || negb (String.eqb (typeof json) "object")
  then Throw (itemPrefix i ++ "No JSON data available")
  else
    html <- (if isHtmlContent P (JString textPropertyName) json
             then Normal textPropertyName
             else lookedUp P i textPropertyName json) ;;
    if negb (nonEmpty (trim html))
    then Throw (itemPrefix i ++ "HTML content is empty")
    else Normal html.

(** Lines 290-308: the conversion, with its error handling. *)
Definition convertItem (H : Host) (i : nat) (html : string)
  (preserveTables : bool) (maxLength : Z) (preserveLineBreaks : bool)
  : Completion string :=
  match htmlToMarkdown H (Str html)
          {| preserveTables := Some preserveTables;
             maxLength := Some maxLength;
             includeImageAlt := None;
             allowedDomains := None;
             preserveLineBreaks := Some preserveLineBreaks |} with
  | Normal markdown => Normal markdown
  | Throw message =>
      Throw (itemPrefix i ++ "Failed to convert HTML to Markdown: " ++
             message)
  end.

(** The Markdown of item [i] when the source is the text field. *)
Definition textToMarkdown (P : Prototypes) (H : Host) (i : nat)
  (textPropertyName : string) (json : Json)
  (preserveTables : bool) (maxLength : Z) (preserveLineBreaks : bool)
  : Completion string :=
  html <- textSource P i textPropertyName json ;;
  convertItem H i html preserveTables maxLength preserveLineBreaks.

End HtmlToMarkdownNode.

(** ** [src/unnamed/part_003]: the node with a conversion mode *)

Module ConversionModeNode.
Import Data.

(** Lines 222-224. *)
Definition parseAllowedDomains (allowedDomainsStr : string) : list string :=
  if nonEmpty allowedDomainsStr
  then filter nonEmpty (map trim (split "," allowedDomainsStr))
  else [].

(** Lines 226-232: the options of the custom mode. *)
Definition customOptions (preserveTables includeImageAlt
  preserveLineBreaks : bool) (maxLength : Z) (allowedDomainsStr : string)
  : HtmlToMarkdownOptions :=
  let allowedDomains := parseAllowedDomains allowedDomainsStr in
  {| preserveTables := Some preserveTables;
     includeImageAlt := Some includeImageAlt;
     preserveLineBreaks := Some preserveLineBreaks;
     maxLength := if (0 <? maxLength)%Z then Some maxLength else None;
     allowedDomains :=
       if (0 <? List.length allowedDomains)%nat then Some allowedDomains
       else None |}.

End ConversionModeNode.

(** ** A reference host

    An executable stand-in for the libraries, used to run the code on
    concrete inputs.  It covers well-nested markup with quoted or bare
    attribute values, the character references of [<], [>], [&] and the
    double quote, an input that ends inside a tag, absolute URLs of the
    form [scheme://host/path?query#fragment], and percent escapes of ASCII
    code units. *)

Module Reference.

(** *** Character references *)

Definition entities : list (string * ascii) :=
  [("&lt;", "<"%char); ("&gt;", ">"%char); ("&amp;", "&"%char);
   ("&quot;", dquote)].

(** The character reference that starts [s]: the code unit it stands for
    and the number of code units that follow its [&]. *)
Definition entityAt (s : string) : option (ascii * nat) :=
  match find (fun e => startsWith (fst e) s) entities with
  | Some (name, c) => Some (c, String.length name - 1)
  | None => None
  end.

(** [pending] code units of a reference are still to be passed over. *)
Fixpoint decodeFrom (pending : nat) (s : string) : string :=
  match s with
  | EmptyString => EmptyString
  | String c r =>
      match pending with
      | S k => decodeFrom k r
      | O =>
          match entityAt s with
          | Some (d, n) => String d (decodeFrom n r)
          | None => String c (decodeFrom 0 r)
          end
      end
  end.

Definition decodeEntities (s : string) : string := decodeFrom 0 s.

(** [escapeHtml] of [sanitize-html]; [quote] is set for attribute
    values. *)
Fixpoint escapeHtml (quote : bool) (s : string) : string :=
  match s with
  | EmptyString => EmptyString
  | String c r =>
      (if Ascii.eqb c "&" then "&amp;"
       else if Ascii.eqb c "<" then "&lt;"
       else if Ascii.eqb c ">" then "&gt;"
       else if quote && Ascii.eqb c dquote then "&quot;"
       else String c EmptyString) ++ escapeHtml quote r
  end.

(** *** A tokenizer and tree builder for well-nested markup *)

Inductive Token : Type :=
| TokText (data : string)
| TokStart (name : string) (attrs : list (string * string))
| TokEnd (name : string)
| TokOther.

Inductive AttrState : Type :=
| BeforeName
| InName (name : string)
| BeforeValue (name : string)
| InQuoted (quote : ascii) (name value : string)
| InBare (name value : string).

Definition attr (name value : string) : string * string :=
  (toLowerCase (reverse name), decodeEntities (reverse value)).

(** Attribute names and values are accumulated in reverse. *)
Fixpoint parseAttrs (st : AttrState) (s : string) : list (string * string) :=
  match s with
  | EmptyString =>
      match st with
      | BeforeName => []
      | InName n | BeforeValue n => [attr n EmptyString]
      | InQuoted _ n v | InBare n v => [attr n v]
      end
  | String c r =>
      match st with
      | BeforeName =>
          if isWhiteSpace c || Ascii.eqb c "/" then parseAttrs BeforeName r
          else parseAttrs (InName (String c EmptyString)) r
      | InName n =>
          if Ascii.eqb c "=" then parseAttrs (BeforeValue n) r
          else if isWhiteSpace c
               then attr n EmptyString :: parseAttrs BeforeName r
               else parseAttrs (InName (String c n)) r
      | BeforeValue n =>
          if Ascii.eqb c dquote || Ascii.eqb c "'"
          then parseAttrs (InQuoted c n EmptyString) r
          else if isWhiteSpace c then parseAttrs (BeforeValue n) r
               else parseAttrs (InBare n (String c EmptyString)) r
      | InQuoted q n v =>
          if Ascii.eqb c q then attr n v :: parseAttrs BeforeName r
          else parseAttrs (InQuoted q n (String c v)) r
      | InBare n v =>
          if isWhiteSpace c then attr n v :: parseAttrs BeforeName r
          else parseAttrs (InBare n (String c v)) r
      end
  end.

Definition isNameChar (c : ascii) : bool :=
  negb (isWhiteSpace c || Ascii.eqb c "/").

(** The token for the text between [<] and [>]. *)
Definition parseTag (s : string) : Token :=
  match s with
  | String "!"%char _ | String "?"%char _ => TokOther
  | String "/"%char r => TokEnd (toLowerCase (takeWhile isNameChar r))
  | _ =>
      let name := takeWhile isNameChar s in
      TokStart (toLowerCase name)
        (parseAttrs BeforeName (skip (String.length name) s))
  end.

Definition flushText (acc : string) : list Token :=
  match acc with
  | EmptyString => []
  | _ => [TokText (decodeEntities (reverse acc))]
  end.

(** What is left of a tag that the end of the input cuts: a [<] alone
    and [</] alone are text, a tag that has begun its name is dropped. *)
Definition cutTag (s : string) : list Token :=
  match s with
  | EmptyString => [TokText "<"]
  | String "/"%char EmptyString => [TokText "</"]
  | _ => []
  end.

Fixpoint tokenize (inTag : bool) (acc : string) (s : string) : list Token :=
  match s with
  | EmptyString => if inTag then cutTag (reverse acc) else flushText acc
  | String c r =>
      if inTag
      then if Ascii.eqb c ">"
           then parseTag (reverse acc) :: tokenize false EmptyString r
           else tokenize true (String c acc) r
      else if Ascii.eqb c "<"
           then (flushText acc ++ tokenize true EmptyString r)%list
           else tokenize false (String c acc) r
  end.

Definition htmlVoidElements : list string :=
  ["area"; "base"; "br"; "col"; "embed"; "hr"; "img"; "input"; "link";
   "meta"; "source"; "track"; "wbr"].

(** An open element with the children collected so far, last first. *)
Record Open : Type := {
  openName : string;
  openAttrs : list (string * string);
  openChildren : list Node
}.

Definition addChild (n : Node) (stack : list Open) (top : list Node)
  : list Open * list Node :=
  match stack with
  | [] => ([], n :: top)
  | o :: rest =>
      ({| openName := openName o; openAttrs := openAttrs o;
          openChildren := n :: openChildren o |} :: rest, top)
  end.

Definition closed (o : Open) : Node :=
  Element (openName o) (openAttrs o) (rev (openChildren o)).

(** Close the open elements down to and including the nearest [name];
    [pending] is the element closed last, still to be given to its
    parent. *)
Fixpoint closeUntil (name : string) (pending : list Node)
  (stack : list Open) (top : list Node) : list Open * list Node :=
  match stack with
  | [] => ([], (pending ++ top)%list)
  | o :: rest =>
      let o' := {| openName := openName o; openAttrs := openAttrs o;
                   openChildren := (pending ++ openChildren o)%list |} in
      if String.eqb (openName o) name
      then addChild (closed o') rest top
      else closeUntil name [closed o'] rest top
  end.

(** At the end of the input every open element is closed. *)
Fixpoint closeAll (pending : list Node) (stack : list Open)
  (top : list Node) : list Node :=
  match stack with
  | [] => (pending ++ top)%list
  | o :: rest =>
      let o' := {| openName := openName o; openAttrs := openAttrs o;
                   openChildren := (pending ++ openChildren o)%list |} in
      closeAll [closed o'] rest top
  end.

(** [top] collects the finished top-level nodes, last first.  An end tag
    without a matching open element is dropped. *)
Fixpoint build (toks : list Token) (stack : list Open) (top : list Node)
  : list Node :=
  match toks with
  | [] => rev (closeAll [] stack top)
  | TokText d :: r =>
      let (stack', top') := addChild (Text d) stack top in
      build r stack' top'
  | TokStart name attrs :: r =>
      if arrayIncludes name htmlVoidElements
      then let (stack', top') := addChild (Element name attrs []) stack top in
           build r stack' top'
      else build r ({| openName := name; openAttrs := attrs;
                       openChildren := [] |} :: stack) top
  | TokEnd name :: r =>
      if existsb (fun o => String.eqb (openName o) name) stack
      then let (stack', top') := closeUntil name [] stack top in
           build r stack' top'
      else build r stack top
  | TokOther :: r => build r stack top
  end.

Definition parse (html : string) : list Node :=
  build (tokenize false EmptyString html) [] [].

(** *** Serialization, with the self-closing tags as [sanitize-html]
    writes them *)

Definition selfClosing : list string :=
  ["img"; "br"; "hr"; "area"; "base"; "basefont"; "input"; "link"; "meta"].

Fixpoint serializeAttrs (attrs : list (string * string)) : string :=
  match attrs with
  | [] => EmptyString
  | (k, v) :: r =>
      " " ++ k ++
      (if nonEmpty v
       then "=" ++ String dquote (escapeHtml true v) ++
            String dquote EmptyString
       else EmptyString) ++
      serializeAttrs r
  end.

Fixpoint serialize (n : Node) : string :=
  match n with
  | Text d => escapeHtml false d
  | Element name attrs ch =>
      if arrayIncludes name selfClosing
      then "<" ++ name ++ serializeAttrs attrs ++ " />"
      else "<" ++ name ++ serializeAttrs attrs ++ ">" ++
           concatMap serialize ch ++ "</" ++ name ++ ">"
  end.

(** *** [sanitize-html] in its default [discard] mode *)

Definition nonTextTags : list string :=
  ["script"; "style"; "textarea"; "option"].

Definition isSchemeChar (c : ascii) : bool :=
  isUpper c || isLower c || isDigit c ||
  Ascii.eqb c "." || Ascii.eqb c "-" || Ascii.eqb c "+".

(** The scheme that starts [s] (a letter, then letters, digits, [.],
    [-] and [+], then a colon), in lower case, and what follows the
    colon. *)
Definition splitScheme (s : string) : option (string * string) :=
  if firstIs (fun c => isUpper c || isLower c) s
  then let scheme := takeWhile isSchemeChar s in
       match skip (String.length scheme) s with
       | String ":"%char rest => Some (toLowerCase scheme, rest)
       | _ => None
       end
  else None.

Fixpoint stripControls (s : string) : string :=
  match s with
  | EmptyString => EmptyString
  | String c r =>
      if (nat_of_ascii c <=? 32)%nat then stripControls r
      else String c (stripControls r)
  end.

Fixpoint lookupList (name : string) (m : list (string * list string))
  : option (list string) :=
  match m with
  | [] => None
  | (k, v) :: r => if String.eqb k name then Some v else lookupList name r
  end.

(** [naughtyHref] *)
Definition naughtyHref (o : SanitizeHtml.Options) (name href : string)
  : bool :=
  match splitScheme (stripControls href) with
  | None => false
  | Some (scheme, _) =>
      match lookupList name (SanitizeHtml.allowedSchemesByTag o) with
      | Some schemes => negb (arrayIncludes scheme schemes)
      | None => negb (arrayIncludes scheme (SanitizeHtml.allowedSchemes o))
      end
  end.

(** [allowedEmptyAttributes], which the code leaves at its default. *)
Definition allowedEmptyAttributes : list string := ["alt"].

(** An attribute stays in the frame when its value is not empty or may
    be empty, its name is allowed for the tag, and, for a URL attribute,
    its scheme is allowed.  The attributes that the code allows are all
    among the [nonBooleanAttributes], which lose an empty value. *)
Definition attributeKept (o : SanitizeHtml.Options) (name : string)
  (a : string * string) : bool :=
  match lookupList name (SanitizeHtml.allowedAttributes o) with
  | Some names =>
      (nonEmpty (snd a) || arrayIncludes (fst a) allowedEmptyAttributes) &&
      arrayIncludes (fst a) names &&
      negb (arrayIncludes (fst a) ["href"; "src"; "cite"] &&
            naughtyHref o name (snd a))
  | None => false
  end.

Definition transformed (o : SanitizeHtml.Options) (name : string) : string :=
  match lookupAttr name (SanitizeHtml.transformTags o) with
  | Some name' => name'
  | None => name
  end.

(** An element whose tag is not allowed is dropped and its content kept,
    except for the tags whose content is not text; the attributes of an
    allowed element are filtered; [exclusiveFilter] then sees the frame
    with the attributes that are left and decides whether the element goes
    with all its content. *)
Fixpoint sanitizeNode (o : SanitizeHtml.Options) (n : Node) : list Node :=
  match n with
  | Text d => [Text d]
  | Element name attrs ch =>
      let name' := transformed o name in
      let inner := flat_map (sanitizeNode o) ch in
      if arrayIncludes name' (SanitizeHtml.allowedTags o)
      then
        let attrs' := List.filter (attributeKept o name') attrs in
        if SanitizeHtml.exclusiveFilter o
             {| SanitizeHtml.tag := name; SanitizeHtml.attribs := attrs' |}
        then []
        else [Element name' attrs' inner]
      else if arrayIncludes name' nonTextTags then [] else inner
  end.

Definition sanitizeHtml (html : string) (o : SanitizeHtml.Options)
  : Completion string :=
  Normal (concatMap serialize (flat_map (sanitizeNode o) (parse html))).

Definition parseBody (html : string) : Completion (list Node) :=
  Normal (parse html).

(** *** [URL] for absolute URLs with a plain host *)

Definition specialSchemes : list string :=
  ["http"; "https"; "ftp"; "ws"; "wss"].

Definition hexValue (c : ascii) : option nat :=
  let n := nat_of_ascii c in
  if isDigit c then Some (n - 48)%nat
  else if (65 <=? n)%nat && (n <=? 70)%nat then Some (n - 55)%nat
  else if (97 <=? n)%nat && (n <=? 102)%nat then Some (n - 87)%nat
  else None.

(** The code unit of a percent escape [%ab], when it is an ASCII one. *)
Definition escaped (a b : ascii) : option ascii :=
  match hexValue a, hexValue b with
  | Some x, Some y =>
      if (16 * x + y <? 128)%nat then Some (ascii_of_nat (16 * x + y))
      else None
  | _, _ => None
  end.

(** The decoding of [application/x-www-form-urlencoded] names and
    values: [+] is a space, a percent escape is its code unit, anything
    else stays. *)
Fixpoint formDecode (s : string) : string :=
  match s with
  | EmptyString => EmptyString
  | String c r =>
      if Ascii.eqb c "+" then String " " (formDecode r)
      else if Ascii.eqb c "%"
      then match r with
           | String a (String b r') =>
               match escaped a b with
               | Some d => String d (formDecode r')
               | None => String c (formDecode r)
               end
           | _ => String c (formDecode r)
           end
      else String c (formDecode r)
  end.

(** [s] up to the first [sep], and what follows it if there is one. *)
Fixpoint splitFirst (sep : ascii) (s : string) : string * option string :=
  match s with
  | EmptyString => (EmptyString, None)
  | String c r =>
      if Ascii.eqb c sep then (EmptyString, Some r)
      else let (a, b) := splitFirst sep r in (String c a, b)
  end.

(** [s.split(sep)] *)
Fixpoint split (sep : ascii) (s : string) : list string :=
  match s with
  | EmptyString => [EmptyString]
  | String c r =>
      if Ascii.eqb c sep then EmptyString :: split sep r
      else match split sep r with
           | [] => [String c EmptyString]
           | x :: xs => String c x :: xs
           end
  end.

Definition parsePair (s : string) : string * string :=
  let (name, value) := splitFirst "=" s in
  (formDecode name, formDecode (orDefault EmptyString value)).

Definition parseQuery (query : string) : list (string * string) :=
  map parsePair (List.filter nonEmpty (split "&" query)).

Definition isSlash (c : ascii) : bool :=
  Ascii.eqb c "/" || Ascii.eqb c "\".

Definition endsAuthority (c : ascii) : bool :=
  isSlash c || Ascii.eqb c "?" || Ascii.eqb c "#".

Definition afterUserinfo (authority : string) : string :=
  takeWhileEnd (fun c => negb (Ascii.eqb c "@")) authority.

Definition newURL (s : string) : Completion Url.URL :=
  match splitScheme s with
  | None => Throw "TypeError: Invalid URL"
  | Some (scheme, rest) =>
      let special := arrayIncludes scheme specialSchemes in
      let beforeFragment := takeWhile (fun c => negb (Ascii.eqb c "#")) rest in
      let query := orDefault EmptyString (snd (splitFirst "?" beforeFragment)) in
      let authority :=
        if special
        then takeWhile (fun c => negb (endsAuthority c)) (dropWhile isSlash rest)
        else if startsWith "//" rest
             then takeWhile (fun c => negb (endsAuthority c)) (skip 2 rest)
             else EmptyString in
      let host :=
        takeWhile (fun c => negb (Ascii.eqb c ":")) (afterUserinfo authority) in
      if special && negb (nonEmpty host)
      then Throw "TypeError: Invalid URL"
      else Normal {| Url.hostname := toLowerCase host;
                     Url.searchParams := parseQuery query |}
  end.

(** [decodeURIComponent] for ASCII escapes; an escape that is not two
    hexadecimal digits is a [URIError], and so is, in this model, an
    escape above [%7F]. *)
Fixpoint decodeURIComponent (s : string) : Completion string :=
  match s with
  | EmptyString => Normal EmptyString
  | String c r =>
      if Ascii.eqb c "%"
      then match r with
           | String a (String b r') =>
               match escaped a b with
               | Some d =>
                   rest <- decodeURIComponent r' ;; Normal (String d rest)
               | None => Throw "URIError: URI malformed"
               end
           | _ => Throw "URIError: URI malformed"
           end
      else rest <- decodeURIComponent r ;; Normal (String c rest)
  end.

(** *** Built-in Turndown rules

    The rules for paragraphs, line breaks, headings, horizontal rules,
    inline links, emphasis, strong emphasis and images, in the order of
    Turndown's table.  The rules for block quotes, lists, code and
    reference links are left out; Turndown has no rule for tables. *)

Definition LF2 : string := String LF (String LF EmptyString).

Definition paragraph : Turndown.Rule :=
  {| Turndown.filter := Turndown.TagName "p";
     Turndown.replacement := fun content _ _ _ => LF2 ++ content ++ LF2 |}.

Definition lineBreak : Turndown.Rule :=
  {| Turndown.filter := Turndown.TagName "br";
     Turndown.replacement := fun _ _ _ o =>
       Turndown.br o ++ String LF EmptyString |}.

Fixpoint repeat (c : ascii) (n : nat) : string :=
  match n with
  | O => EmptyString
  | S n' => String c (repeat c n')
  end.

Definition hLevel (n : Node) : nat :=
  match localName n with
  | String _ (String d _) => nat_of_ascii d - 48
  | _ => 0
  end.

Definition heading : Turndown.Rule :=
  {| Turndown.filter := Turndown.TagNames ["h1"; "h2"; "h3"; "h4"; "h5"; "h6"];
     Turndown.replacement := fun content n _ o =>
       if String.eqb (Turndown.headingStyle o) "setext" && (hLevel n <? 3)%nat
       then LF2 ++ content ++ String LF EmptyString ++
            repeat (if (hLevel n =? 1)%nat then "=" else "-")%char
              (String.length content) ++ LF2
       else LF2 ++ repeat "#" (hLevel n) ++ " " ++ content ++ LF2 |}.

Definition horizontalRule : Turndown.Rule :=
  {| Turndown.filter := Turndown.TagName "hr";
     Turndown.replacement := fun _ _ _ o => LF2 ++ Turndown.hr o ++ LF2 |}.

(** [cleanAttribute]: the empty string for a missing attribute;
    otherwise every stretch of white space that starts with an LF becomes
    one LF. *)
Fixpoint cleanText (skipping : bool) (s : string) : string :=
  match s with
  | EmptyString => EmptyString
  | String c r =>
      if skipping && isWhiteSpace c then cleanText true r
      else if isLF c then String c (cleanText true r)
      else String c (cleanText false r)
  end.

Definition cleanAttribute (attribute : option string) : string :=
  match attribute with
  | Some a => cleanText false a
  | None => EmptyString
  end.

Definition titlePart (n : Node) : string :=
  let title := cleanAttribute (getAttribute "title" n) in
  if nonEmpty title
  then " " ++ String dquote title ++ String dquote EmptyString
  else EmptyString.

Definition inlineLinkRule : Turndown.Rule :=
  {| Turndown.filter := Turndown.Predicate (fun n o =>
       String.eqb (Turndown.linkStyle o) "inlined" &&
       String.eqb (nodeName n) "A" &&
       nonEmpty (orDefault EmptyString (getAttribute "href" n)));
     Turndown.replacement := fun content n _ _ =>
       "[" ++ content ++ "](" ++
       orDefault EmptyString (getAttribute "href" n) ++ titlePart n ++ ")" |}.

Definition emphasis : Turndown.Rule :=
  {| Turndown.filter := Turndown.TagNames ["em"; "i"];
     Turndown.replacement := fun content _ _ o =>
       if nonEmpty (trim content)
       then Turndown.emDelimiter o ++ content ++ Turndown.emDelimiter o
       else EmptyString |}.

Definition strong : Turndown.Rule :=
  {| Turndown.filter := Turndown.TagNames ["strong"; "b"];
     Turndown.replacement := fun content _ _ o =>
       if nonEmpty (trim content)
       then Turndown.strongDelimiter o ++ content ++ Turndown.strongDelimiter o
       else EmptyString |}.

Definition image : Turndown.Rule :=
  {| Turndown.filter := Turndown.TagName "img";
     Turndown.replacement := fun _ n _ _ =>
       let alt := cleanAttribute (getAttribute "alt" n) in
       let src := orDefault EmptyString (getAttribute "src" n) in
       if nonEmpty src
       then "![" ++ alt ++ "](" ++ src ++ titlePart n ++ ")"
       else EmptyString |}.

Definition commonmarkRules : list Turndown.Rule :=
  [paragraph; lineBreak; heading; horizontalRule; inlineLinkRule;
   emphasis; strong; image].

Definition host : Host :=
  Build_Host sanitizeHtml parseBody newURL decodeURIComponent commonmarkRules.

End Reference.

(** ** Notions used in the statements *)

(** A call raises when it completes by throwing. *)
Definition raises {A : Type} (c : Completion A) : Prop :=
  exists message, c = Throw message.

(** The DOM that [htmlToMarkdown] gets from the libraries for a non-empty
    input: the body JSDOM parses from what [sanitizeHtml] returns for the
    capped input. *)
Definition yieldsBody (H : Host) (html : string)
  (options : HtmlToMarkdownOptions) (body : list Node) : Prop :=
  exists sanitized,
    sanitizeHtml H (capInput (orDefault 0%Z (maxLength options)) html)
      (sanitizeOptions H
         (orDefault false (preserveTables options))
         (orDefault true (includeImageAlt options))
         (orDefault [] (allowedDomains options))
         (orDefault false (preserveLineBreaks options))) = Normal sanitized /\
    parseBody H sanitized = Normal body.

(** The DOM that the libraries give for [html] itself: the body JSDOM
    parses from what [sanitizeHtml] returns for [html].  This is the DOM
    of the input when the cap of lines 45-48 leaves the input whole. *)
Definition parsedBody (H : Host) (html : string)
  (options : HtmlToMarkdownOptions) (body : list Node) : Prop :=
  exists sanitized,
    sanitizeHtml H html
      (sanitizeOptions H
         (orDefault false (preserveTables options))
         (orDefault true (includeImageAlt options))
         (orDefault [] (allowedDomains options))
         (orDefault false (preserveLineBreaks options))) = Normal sanitized /\
    parseBody H sanitized = Normal body.

(** An empty or white-space-only paragraph or division, or white space
    between such elements: [p] and [div] elements, nested at will, around
    nothing but white-space text. *)
Fixpoint blankBlock (n : Node) : bool :=
  match n with
  | Text d => allChars isWhiteSpace d
  | Element name _ ch =>
      arrayIncludes name ["p"; "div"] && forallb blankBlock ch
  end.

(** Options that set [preserveTables], [maxLength], [allowedDomains] and
    [preserveLineBreaks]. *)
Definition withOptions (tables : bool) (limit : Z) (domains : list string)
  (lineBreaks : bool) : HtmlToMarkdownOptions :=
  {| preserveTables := Some tables; maxLength := Some limit;
     includeImageAlt := None; allowedDomains := Some domains;
     preserveLineBreaks := Some lineBreaks |}.

Definition LF1 : string := String LF EmptyString.
Definition quoted (s : string) : string :=
  String dquote s ++ String dquote EmptyString.

(** The inputs of the scenarios. *)
Definition lineBreakInput : string := "<p>A<br>B</p>".

Definition tableInput : string :=
  "<table><tr><th>H1</th><th>H2</th></tr><tr><td>a</td><td>b</td></tr></table>".

Definition safelink : string :=
  "https://safelink.emails.example/?destination=https%3A%2F%2Freal.example".

Definition redirectInput : string :=
  "<a href=" ++ quoted safelink ++ ">click</a>".

(** Eight empty paragraphs, 56 code units. *)
Definition eightParagraphs : string :=
  "<p></p><p></p><p></p><p></p><p></p><p></p><p></p><p></p>".

(** The shape of cleaned Markdown: six checks, one for each step of the
    chain, each a scan with the state of the step it belongs to. *)

(** No run of three LF; [k] counts the LF just before [s]. *)
Fixpoint noTriple (k : nat) (s : string) : bool :=
  match s with
  | EmptyString => true
  | String c r =>
      if isLF c then (k <? 2)%nat && noTriple (S k) r else noTriple 0 r
  end.

(** [s.at(-1)] *)
Fixpoint lastChar (s : string) : option ascii :=
  match s with
  | EmptyString => None
  | String c r =>
      match lastChar r with
      | Some d => Some d
      | None => Some c
      end
  end.

(** No white space at either end. *)
Definition trimmed (s : string) : bool :=
  negb (firstIs isWhiteSpace s) &&
  match lastChar s with
  | Some c => negb (isWhiteSpace c)
  | None => true
  end.

(** Does [s] start with LF and [#]? *)
Definition startsLFHash (s : string) : bool :=
  match s with
  | String a (String b _) => isLF a && Ascii.eqb b "#"
  | _ => false
  end.

(** Every run of LF that is followed by [#] has exactly two LF; [inRun]
    says that [s] continues a run. *)
Fixpoint headersSpaced (inRun : bool) (s : string) : bool :=
  match s with
  | EmptyString => true
  | String c r =>
      if isLF c
      then (inRun || negb (hashAfterNewlines r) || startsLFHash r) &&
           headersSpaced true r
      else headersSpaced false r
  end.

(** Where [\n+(\s*[-*+])] matches, [\n+] has matched one LF only;
    [inGroup] says that [s] continues the group of a match. *)
Fixpoint listsTight (inGroup : bool) (s : string) : bool :=
  match s with
  | EmptyString => true
  | String c r =>
      if inGroup
      then if isWhiteSpace c then listsTight true r else listsTight false r
      else if isLF c && markerAfterSpace r
           then negb (firstIs isLF r) && listsTight true r
           else listsTight false r
  end.

(** Is there an empty link, [[](] with a [)] after it, in [s]? *)
Fixpoint hasEmptyLink (s : string) : bool :=
  emptyLinkAt s ||
  match s with
  | EmptyString => false
  | String _ r => hasEmptyLink r
  end.

(** How much of [[](] has just been read. *)
Inductive LinkState : Type :=
| NoBracket
| OpenBracket
| BothBrackets.

Definition linkStep (a : LinkState) (c : ascii) : LinkState :=
  if Ascii.eqb c "[" then OpenBracket
  else match a with
       | OpenBracket => if Ascii.eqb c "]" then BothBrackets else NoBracket
       | _ => NoBracket
       end.

Definition completesLink (a : LinkState) (c : ascii) (r : string) : bool :=
  match a with
  | BothBrackets => Ascii.eqb c "(" && hasClose r
  | _ => false
  end.

(** No empty link is completed in [s], read after [a]. *)
Fixpoint linkFree (a : LinkState) (s : string) : bool :=
  match s with
  | EmptyString => true
  | String c r => negb (completesLink a c r) && linkFree (linkStep a c) r
  end.

(** No two spaces in a row; [prev] says that a space is just before
    [s]. *)
Fixpoint singleSpaced (prev : bool) (s : string) : bool :=
  match s with
  | EmptyString => true
  | String c r =>
      if isSpace c then negb prev && singleSpaced true r
      else singleSpaced false r
  end.

(** The cut of line 208: the first [n] code units and the ellipsis. *)
Definition cut (n : nat) (s : string) : string := substring 0 n s ++ "...".

(** The shape of cleaned Markdown. *)
Definition shaped (s : string) : Prop :=
  noTriple 0 s = true /\
  trimmed s = true /\
  headersSpaced false s = true /\
  listsTight false s = true /\
  linkFree NoBracket s = true /\
  singleSpaced false s = true.

(** What must be true of [s], read after [a], besides having no empty
    link, to be free of links after [a]: [s] does not complete a link
    that [a] has begun. *)
Definition headFree (a : LinkState) (s : string) : bool :=
  match a, s with
  | BothBrackets, String c r => negb (Ascii.eqb c "(" && hasClose r)
  | OpenBracket, String c (String d r) =>
      negb (Ascii.eqb c "]" && Ascii.eqb d "(" && hasClose r)
  | _, _ => true
  end.

(** ** Notions used in the further statements *)

(** The same options with another [maxLength]. *)
Definition withMaxLength (limit : option Z) (options : HtmlToMarkdownOptions)
  : HtmlToMarkdownOptions :=
  {| preserveTables := preserveTables options;
     maxLength := limit;
     includeImageAlt := includeImageAlt options;
     allowedDomains := allowedDomains options;
     preserveLineBreaks := preserveLineBreaks options |}.

(** Three LF in a row. *)
Definition LF3 : string := String LF (String LF (String LF EmptyString)).

(** The code units of [s] that are no white space. *)
Fixpoint visible (s : string) : string :=
  match s with
  | EmptyString => EmptyString
  | String c r => if isWhiteSpace c then visible r else String c (visible r)
  end.

(** [document.body.textContent] *)
Definition bodyText (body : list Node) : string :=
  concatMap textContent body.

(** What the TreeWalker pass leaves of a node: a text node stays; an
    element without text stays as it is when it is a [p] or a [div] and
    goes otherwise; an element with text stays, and the pass goes on in
    its children. *)
Fixpoint kept (n : Node) : list Node :=
  match n with
  | Text d => [Text d]
  | Element name attrs ch =>
      if isBlankText n
      then if existsb (String.eqb name) ["p"; "div"] then [n] else []
      else [Element name attrs (flat_map kept ch)]
  end.

(** The paths of the elements that the loop of lines 124-131 collects
    below a node and below a list of siblings. *)
Definition doomedNode (p : Path) (n : Node) : list Path :=
  map fst (filter (fun e => isBlankText (snd e)) (walkNode acceptNode p n)).

Definition doomedChildren (here : Path) (i : nat) (l : list Node)
  : list Path :=
  map fst (filter (fun e => isBlankText (snd e))
             (walkChildren (walkNode acceptNode) here i l)).

(** [D] holds, of the paths through [p], those the pass collects at or
    below the node at [p]. *)
Definition agreesAt (D : list Path) (p : Path) (n : Node) : Prop :=
  forall rest,
    In (p ++ rest)%list D <-> In (p ++ rest)%list (doomedNode p n).

Definition agreesFrom (D : list Path) (here : Path) (i : nat)
  (l : list Node) : Prop :=
  forall j rest, i <= j ->
    In (here ++ j :: rest)%list D <->
    In (here ++ j :: rest)%list (doomedChildren here i l).

(** Every element without text is a [p] or a [div], or lies inside a [p]
    or a [div] without text. *)
Fixpoint settled (n : Node) : bool :=
  match n with
  | Text _ => true
  | Element name _ ch =>
      if isBlankText n then existsb (String.eqb name) ["p"; "div"]
      else forallb settled ch
  end.

(** Prototypes to run the nodes with: the methods of [Object.prototype]
    and, for arrays, some of [Array.prototype] besides. *)
Definition referencePrototypes : Data.Prototypes :=
  let methods :=
    ["constructor"; "hasOwnProperty"; "isPrototypeOf";
     "propertyIsEnumerable"; "toLocaleString"; "toString"; "valueOf"] in
  {| Data.objectPrototype := fun key =>
       if arrayIncludes key methods then Some Data.JFunction else None;
     Data.arrayPrototype := fun key =>
       if arrayIncludes key (methods ++ ["map"; "filter"; "join"; "push"])
       then Some Data.JFunction else None |}.

(** Data of an e-mail item, to run the node on. *)
Definition mailItem : Data.Json :=
  Data.JObject
    [("subject", Data.JString "Hi");
     ("body", Data.JObject [("content", Data.JString "<p>Hello</p>")])].

(** A redirect link with a [destination] parameter. *)
Definition redirectLink : string :=
  "https://r.example/redirect?destination=https%3A%2F%2Freal.example".

(** ** The input guard and the length limit *)

Lemma length_append (a b : string) :
  String.length (a ++ b) = String.length a + String.length b.
Proof.
  induction a as [|c a IH]; simpl; [reflexivity | now rewrite IH].
Qed.

Lemma length_substring_0 (n : nat) (s : string) :
  String.length (substring 0 n s) = Nat.min n (String.length s).
Proof.
  revert s; induction n as [|n IH]; intros [|c s]; simpl; try reflexivity.
  now rewrite IH.
Qed.

Lemma nonEmpty_length (s : string) :
  nonEmpty s = true <-> 0 < String.length s.
Proof.
  destruct s; simpl; split; intros; try lia; try discriminate; reflexivity.
Qed.

Lemma applyLimit_length (n : Z) (s : string) :
  (0 < n)%Z ->
  (Z.of_nat (String.length (applyLimit n s)) <= n + 3)%Z /\
  ((n < Z.of_nat (String.length s))%Z ->
   Z.of_nat (String.length (applyLimit n s)) = (n + 3)%Z).
Proof.
  intros Hn. unfold applyLimit.
  destruct (Z.ltb_spec 0 n) as [_|]; [|lia].
  destruct (Z.ltb_spec n (Z.of_nat (String.length s))) as [Hlt|Hge]; simpl.
  - rewrite length_append, length_substring_0. simpl. lia.
  - split; lia.
Qed.

Lemma applyLimit_empty (n : Z) : applyLimit n EmptyString = EmptyString.
Proof.
  unfold applyLimit. simpl.
  destruct (Z.ltb_spec 0 n), (Z.ltb_spec n 0); try reflexivity. lia.
Qed.

Lemma guard_string (s : string) :
  negb (truthy (Str s)) || negb (String.eqb (typeof (Str s)) "string")
  = negb (nonEmpty s).
Proof.
  unfold nonEmpty; simpl. now rewrite orb_false_r.
Qed.

Lemma htmlToMarkdown_string (H : Host) (s : string)
  (options : HtmlToMarkdownOptions) :
  nonEmpty s = true ->
  htmlToMarkdown H (Str s) options =
  (markdown <- convert H (capInput (orDefault 0%Z (maxLength options)) s)
                 options ;;
   Normal (applyLimit (orDefault 0%Z (maxLength options)) markdown)).
Proof.
  intros Hs. unfold htmlToMarkdown. rewrite guard_string, Hs. reflexivity.
Qed.

Lemma htmlToMarkdown_rejected (H : Host) (html : Js.Value)
  (options : HtmlToMarkdownOptions) :
  html = Str EmptyString \/ typeof html <> "string" ->
  htmlToMarkdown H html options = Normal EmptyString.
Proof.
  intros [-> | Hty]; [reflexivity|].
  unfold htmlToMarkdown.
  destruct html as [| | b | z | s |]; simpl in *;
    rewrite ?orb_true_r; try reflexivity.
  now elim Hty.
Qed.

(** C1, as amended.  For an [html] that is the empty string or not a
    string, [htmlToMarkdown] and [htmlToMarkdownSimple] return the empty
    string: they do not raise and do not call any library.  Every other
    string, a white-space-only one included, is converted. *)
Theorem entry_points_return_empty_for_rejected_input :
  forall (H : Host) (html : Js.Value) (options : HtmlToMarkdownOptions),
    (html = Str EmptyString \/ typeof html <> "string" ->
     htmlToMarkdown H html options = Normal EmptyString /\
     htmlToMarkdownSimple H html = Normal EmptyString) /\
    (forall s, html = Str s -> s <> EmptyString ->
     htmlToMarkdown H html options =
     (markdown <- convert H (capInput (orDefault 0%Z (maxLength options)) s)
                    options ;;
      Normal (applyLimit (orDefault 0%Z (maxLength options)) markdown))).
Proof.
  intros H html options; split.
  - intros Hrej; split; [|unfold htmlToMarkdownSimple];
      now apply htmlToMarkdown_rejected.
  - intros s -> Hs. apply htmlToMarkdown_string.
    destruct s; [now elim Hs | reflexivity].
Qed.

(** C2.  With [maxLength > 0], a string that [htmlToMarkdown] returns has
    at most [maxLength + 3] code units, and exactly [maxLength + 3] when
    the cleaned Markdown was longer than [maxLength], that is when the cut
    of lines 207-209 was made. *)
Theorem htmlToMarkdown_length_bound :
  forall (H : Host) (html : Js.Value) (options : HtmlToMarkdownOptions)
         (result : string),
    let limit := orDefault 0%Z (maxLength options) in
    (0 < limit)%Z ->
    htmlToMarkdown H html options = Normal result ->
    (Z.of_nat (String.length result) <= limit + 3)%Z /\
    (forall s markdown,
        html = Str s -> s <> EmptyString ->
        convert H (capInput limit s) options = Normal markdown ->
        (limit < Z.of_nat (String.length markdown))%Z ->
        Z.of_nat (String.length result) = (limit + 3)%Z).
Proof.
  intros H html options result limit Hpos Hres.
  destruct html as [| | b | z | s |];
    try (rewrite htmlToMarkdown_rejected in Hres by (right; discriminate);
         injection Hres as <-; split; [simpl; lia | intros ? ? [=]]).
  destruct s as [|c s].
  - rewrite htmlToMarkdown_rejected in Hres by (now left).
    injection Hres as <-. split; [simpl; lia|].
    intros ? ? [= <-] Hne. now elim Hne.
  - rewrite htmlToMarkdown_string in Hres by reflexivity.
    fold limit in Hres.
    destruct (convert H (capInput limit (String c s)) options)
      as [md|msg] eqn:Hconv; simpl in Hres; [|discriminate].
    injection Hres as <-.
    destruct (applyLimit_length limit md Hpos) as [Hle Heq].
    split; [exact Hle|].
    intros s' md' [= <-] _ Hconv' Hlong.
    rewrite Hconv in Hconv'. injection Hconv' as <-. now apply Heq.
Qed.

Lemma capInput_idempotent (n : Z) (s : string) :
  capInput n (capInput n s) = capInput n s.
Proof.
  unfold capInput.
  destruct (0 <? n)%Z eqn:Hn; simpl; [|reflexivity].
  destruct (n * 10 <? Z.of_nat (String.length s))%Z eqn:Hlen;
    [|now rewrite Hlen].
  rewrite length_substring_0.
  replace (n * 10 <? _)%Z with false; [reflexivity|].
  symmetry. apply Z.ltb_ge. apply Z.ltb_lt in Hn. lia.
Qed.

Lemma capInput_within (n : Z) (s : string) :
  (Z.of_nat (String.length s) <= n * 10)%Z -> capInput n s = s.
Proof.
  intros Hs. unfold capInput.
  destruct (Z.ltb_spec (n * 10) (Z.of_nat (String.length s))); [lia|].
  now rewrite andb_false_r.
Qed.

Lemma capInput_unlimited (n : Z) (s : string) :
  (n <= 0)%Z -> capInput n s = s.
Proof.
  intros Hn. unfold capInput. now destruct (Z.ltb_spec 0 n); [lia|].
Qed.

(** C10.  With [maxLength > 0], an input longer than [maxLength * 10]
    code units is converted exactly like its first [maxLength * 10] code
    units. *)
Theorem htmlToMarkdown_reads_only_the_capped_input :
  forall (H : Host) (s : string) (options : HtmlToMarkdownOptions),
    let limit := orDefault 0%Z (maxLength options) in
    (0 < limit)%Z ->
    (limit * 10 < Z.of_nat (String.length s))%Z ->
    htmlToMarkdown H (Str s) options =
    htmlToMarkdown H (Str (substring 0 (Z.to_nat (limit * 10)) s)) options.
Proof.
  intros H s options limit Hpos Hlong.
  assert (Hcap : capInput limit s = substring 0 (Z.to_nat (limit * 10)) s).
  { unfold capInput.
    destruct (Z.ltb_spec 0 limit); [|lia].
    destruct (Z.ltb_spec (limit * 10) (Z.of_nat (String.length s))); [|lia].
    reflexivity. }
  rewrite !htmlToMarkdown_string.
  - fold limit. rewrite <- Hcap, capInput_idempotent. reflexivity.
  - apply nonEmpty_length. rewrite length_substring_0. lia.
  - apply nonEmpty_length. lia.
Qed.

(** ** The TreeWalker pass *)

(** C3, the code at a failing input.  For the body of
    [<p></p><p>x<br>y</p><hr>] the callback rejects the empty paragraph,
    so the walk never returns it and it stays; the line break and the
    horizontal rule are returned, have no text, and are removed. *)
Theorem normalize_keeps_empty_paragraph_and_removes_br :
  normalize [Element "p" [] [];
             Element "p" [] [Text "x"; Element "br" [] []; Text "y"];
             Element "hr" [] []]
  = [Element "p" [] []; Element "p" [] [Text "x"; Text "y"]].
Proof. reflexivity. Qed.

(** ** Scenarios on the reference host *)

(** C5, the code at a failing input.  With [preserveTables] on, the table
    tags pass the sanitizer, but no Turndown rule renders them: the cells
    come out as paragraphs and the output has no pipe. *)
Theorem table_is_rendered_without_pipes :
  htmlToMarkdown Reference.host (Str tableInput)
    (withOptions true 0 [] false)
  = Normal ("H1" ++ LF1 ++ LF1 ++ "H2" ++ LF1 ++ LF1 ++ "a" ++
            LF1 ++ LF1 ++ "b") /\
  includes "|" ("H1" ++ LF1 ++ LF1 ++ "H2" ++ LF1 ++ LF1 ++ "a" ++
                LF1 ++ LF1 ++ "b") = false.
Proof. split; vm_compute; reflexivity. Qed.

(** C6, the code at the failing input.  The TreeWalker pass removes the
    [br] element before Turndown runs, so [<p>A<br>B</p>] becomes [AB]
    whatever [preserveLineBreaks] says. *)
Theorem line_break_is_lost :
  htmlToMarkdown Reference.host (Str lineBreakInput)
    (withOptions false 0 [] false) = Normal "AB" /\
  htmlToMarkdown Reference.host (Str lineBreakInput)
    (withOptions false 0 [] true) = Normal "AB".
Proof. split; vm_compute; reflexivity. Qed.

(** The same on every host that hands over the paragraph with its line
    break: the loss happens between JSDOM and Turndown. *)
Lemma line_break_is_lost_on_every_host (H : Host) (tables lineBreaks : bool)
  (domains : list string) :
  yieldsBody H lineBreakInput (withOptions tables 0 domains lineBreaks)
    [Element "p" [] [Text "A"; Element "br" [] []; Text "B"]] ->
  htmlToMarkdown H (Str lineBreakInput)
    (withOptions tables 0 domains lineBreaks) = Normal "AB".
Proof.
  intros (sanitized & Hsan & Hparse).
  rewrite htmlToMarkdown_string by reflexivity.
  unfold convert.
  cbn [orDefault withOptions preserveTables includeImageAlt allowedDomains
       preserveLineBreaks maxLength] in *.
  rewrite Hsan. cbn [Js.bind]. rewrite Hparse. cbn [Js.bind].
  change (normalize [Element "p" [] [Text "A"; Element "br" [] []; Text "B"]])
    with [Element "p" [] [Text "A"; Text "B"]].
  change (innerHTML [Element "p" [] [Text "A"; Text "B"]])
    with [Element "p" [] [Text "AB"]].
  reflexivity.
Qed.

(** ** Blank blocks *)

Lemma Node_induction (P : Node -> Prop) :
  (forall d, P (Text d)) ->
  (forall name attrs ch, Forall P ch -> P (Element name attrs ch)) ->
  forall n, P n.
Proof.
  intros HText HElement. fix IH 1. intros [d | name attrs ch].
  - apply HText.
  - apply HElement. induction ch as [|c ch IHch]; constructor.
    + apply IH.
    + exact IHch.
Qed.

Lemma allChars_append (f : ascii -> bool) (a b : string) :
  allChars f (a ++ b) = allChars f a && allChars f b.
Proof.
  induction a as [|c a IH]; simpl; [reflexivity|].
  now rewrite IH, andb_assoc.
Qed.

Lemma allChars_reverseOnto (f : ascii -> bool) (s acc : string) :
  allChars f (reverseOnto acc s) = allChars f s && allChars f acc.
Proof.
  revert acc; induction s as [|c s IH]; intros acc; simpl; [reflexivity|].
  rewrite IH. simpl. now rewrite andb_assoc, (andb_comm (allChars f s)).
Qed.

Lemma allChars_reverse (f : ascii -> bool) (s : string) :
  allChars f (reverse s) = allChars f s.
Proof.
  unfold reverse. rewrite allChars_reverseOnto. simpl. apply andb_true_r.
Qed.

Lemma allChars_dropWhile (f g : ascii -> bool) (s : string) :
  allChars f s = true -> allChars f (dropWhile g s) = true.
Proof.
  induction s as [|c s IH]; simpl; [reflexivity|].
  intros Hs. destruct (g c); [|exact Hs].
  apply andb_prop in Hs as [_ Hs]. now apply IH.
Qed.

Lemma dropWhile_all (f : ascii -> bool) (s : string) :
  allChars f s = true -> dropWhile f s = EmptyString.
Proof.
  induction s as [|c s IH]; simpl; [reflexivity|].
  intros Hs. apply andb_prop in Hs as [-> Hs]. now apply IH.
Qed.

Lemma allChars_dropWhileEnd (f g : ascii -> bool) (s : string) :
  allChars f s = true -> allChars f (dropWhileEnd g s) = true.
Proof.
  intros Hs. unfold dropWhileEnd. rewrite allChars_reverse.
  apply allChars_dropWhile. now rewrite allChars_reverse.
Qed.

Lemma dropWhileEnd_all (f : ascii -> bool) (s : string) :
  allChars f s = true -> dropWhileEnd f s = EmptyString.
Proof.
  intros Hs. unfold dropWhileEnd. rewrite dropWhile_all; [reflexivity|].
  now rewrite allChars_reverse.
Qed.

Lemma trimStart_blank (s : string) :
  allChars isWhiteSpace s = true -> trimStart s = EmptyString.
Proof.
  induction s as [|c s IH]; simpl; [reflexivity|].
  intros Hs. apply andb_prop in Hs as [-> Hs]. now apply IH.
Qed.

Lemma trim_blank (s : string) :
  allChars isWhiteSpace s = true -> trim s = EmptyString.
Proof. intros Hs. unfold trim. now rewrite trimStart_blank. Qed.

Lemma blankBlock_name (name : string) :
  arrayIncludes name ["p"; "div"] = true -> name = "p" \/ name = "div".
Proof.
  unfold arrayIncludes; simpl. rewrite orb_false_r.
  intros Hn. apply orb_prop in Hn as [Hn|Hn]; apply String.eqb_eq in Hn; auto.
Qed.

Lemma blankBlock_textContent (n : Node) :
  blankBlock n = true -> allChars isWhiteSpace (textContent n) = true.
Proof.
  induction n as [d | name attrs ch IH] using Node_induction; simpl.
  - trivial.
  - intros Hb. apply andb_prop in Hb as [_ Hch].
    induction IH as [|c ch Hc _ IHch]; simpl in *; [reflexivity|].
    apply andb_prop in Hch as [Hbc Hch].
    rewrite allChars_append, Hc, IHch by assumption. reflexivity.
Qed.

Lemma blankBlock_isBlankText (n : Node) :
  blankBlock n = true -> isBlankText n = true.
Proof.
  intros Hb. unfold isBlankText.
  now rewrite trim_blank by now apply blankBlock_textContent.
Qed.

Lemma blankBlock_not_walked (n : Node) (p : Path) :
  blankBlock n = true -> walkNode acceptNode p n = [].
Proof.
  destruct n as [d | name attrs ch]; [reflexivity|].
  intros Hb. simpl. unfold acceptNode.
  rewrite (blankBlock_isBlankText _ Hb).
  simpl in Hb. apply andb_prop in Hb as [Hn _]. simpl localName.
  unfold arrayIncludes in Hn. simpl in Hn.
  simpl existsb. now rewrite Hn.
Qed.

Lemma blank_body_not_walked (body : list Node) (p : Path) (i : nat) :
  forallb blankBlock body = true ->
  walkChildren (walkNode acceptNode) p i body = [].
Proof.
  revert i; induction body as [|n body IH]; intros i; simpl; [reflexivity|].
  intros Hb. apply andb_prop in Hb as [Hn Hb].
  now rewrite blankBlock_not_walked, IH.
Qed.

Lemma pruneNode_nothing (n : Node) (p : Path) : pruneNode [] p n = n.
Proof.
  revert p; induction n as [d | name attrs ch IH] using Node_induction;
    intros p; simpl; [reflexivity|].
  f_equal. generalize 0 as i.
  induction IH as [|c ch Hc _ IHch]; intros i; simpl; [reflexivity|].
  now rewrite Hc, IHch.
Qed.

Lemma removeAll_nothing (body : list Node) : removeAll [] body = body.
Proof.
  unfold removeAll. generalize 0 as i. generalize ([] : Path) as p.
  induction body as [|n body IH]; intros p i; simpl; [reflexivity|].
  now rewrite pruneNode_nothing, IH.
Qed.

(** The TreeWalker pass leaves a body of blank blocks as it is. *)
Lemma normalize_blank_body (body : list Node) :
  forallb blankBlock body = true -> normalize body = body.
Proof.
  intros Hb. unfold normalize, elementsToRemove, treeWalker.
  rewrite blank_body_not_walked by exact Hb. apply removeAll_nothing.
Qed.

Lemma mergeAdjacent_blank (f : Node -> Node) (l : list Node) :
  Forall (fun c => blankBlock c = true -> blankBlock (f c) = true) l ->
  forallb blankBlock l = true ->
  forallb blankBlock (mergeAdjacent f l) = true.
Proof.
  induction 1 as [|c l Hc _ IH]; simpl; [reflexivity|].
  intros Hb. apply andb_prop in Hb as [Hbc Hbl].
  specialize (Hc Hbc). specialize (IH Hbl).
  destruct (f c) as [a | name attrs ch];
    destruct (mergeAdjacent f l) as [|[b | name' attrs' ch'] r'];
    simpl in *; rewrite ?Hc, ?IH; try reflexivity.
  apply andb_prop in IH as [Hb' Hr'].
  now rewrite allChars_append, Hc, Hb', Hr'.
Qed.

Lemma reparsed_blank (n : Node) :
  blankBlock n = true -> blankBlock (reparsed n) = true.
Proof.
  induction n as [d | name attrs ch IH] using Node_induction; simpl;
    [trivial|].
  intros Hb. apply andb_prop in Hb as [-> Hch]. simpl.
  now apply mergeAdjacent_blank.
Qed.

Lemma innerHTML_blank (body : list Node) :
  forallb blankBlock body = true ->
  forallb blankBlock (innerHTML body) = true.
Proof.
  apply mergeAdjacent_blank. apply Forall_forall.
  intros c _. apply reparsed_blank.
Qed.

Lemma whitespace_is_not (x c : ascii) :
  isWhiteSpace x = false -> isWhiteSpace c = true -> Ascii.eqb c x = false.
Proof.
  intros Hx Hc. destruct (Ascii.eqb_spec c x) as [->|]; [congruence|reflexivity].
Qed.

Lemma escapeChar_blank (x : ascii) (s : string) :
  isWhiteSpace x = false -> allChars isWhiteSpace s = true ->
  Turndown.escapeChar x s = s.
Proof.
  intros Hx. induction s as [|c s IH]; simpl; [reflexivity|].
  intros Hs. apply andb_prop in Hs as [Hc Hs].
  now rewrite (whitespace_is_not x c Hx Hc), IH.
Qed.

Lemma startsWith_blank (x c : ascii) (pat s : string) :
  isWhiteSpace x = false -> isWhiteSpace c = true ->
  startsWith (String x pat) (String c s) = false.
Proof.
  intros Hx Hc. simpl. rewrite Ascii.eqb_sym.
  now rewrite (whitespace_is_not x c Hx Hc).
Qed.

Lemma whitespace_is_not_digit (c : ascii) :
  isWhiteSpace c = true -> isDigit c = false.
Proof.
  unfold isWhiteSpace, isDigit. generalize (nat_of_ascii c) as n. intros n Hc.
  apply andb_false_iff.
  destruct (Nat.leb_spec 48 n); [right|now left].
  apply Nat.leb_gt.
  apply orb_prop in Hc as [Hc|Hc]; [apply orb_prop in Hc as [Hc|Hc]|].
  - apply andb_prop in Hc as [_ Hc]. apply Nat.leb_le in Hc. lia.
  - apply Nat.eqb_eq in Hc. lia.
  - apply Nat.eqb_eq in Hc. lia.
Qed.

Lemma escapeStartIf_blank (x c : ascii) (pat s : string) :
  isWhiteSpace x = false -> isWhiteSpace c = true ->
  Turndown.escapeStartIf (startsWith (String x pat)) (String c s)
  = String c s.
Proof.
  intros Hx Hc. unfold Turndown.escapeStartIf.
  now rewrite startsWith_blank.
Qed.

Lemma escapeHeading_blank (c : ascii) (s : string) :
  isWhiteSpace c = true ->
  Turndown.escapeStartIf Turndown.startsWithHeading (String c s)
  = String c s.
Proof.
  intros Hc. unfold Turndown.escapeStartIf, Turndown.startsWithHeading.
  cbn [takeWhile].
  rewrite (Ascii.eqb_sym "#" c), (whitespace_is_not "#" c) by easy.
  reflexivity.
Qed.

Lemma escapeOrdinal_blank (c : ascii) (s : string) :
  isWhiteSpace c = true -> Turndown.escapeOrdinal (String c s) = String c s.
Proof.
  intros Hc. unfold Turndown.escapeOrdinal. cbn [takeWhile].
  now rewrite (whitespace_is_not_digit c Hc).
Qed.

Lemma escape_blank (s : string) :
  allChars isWhiteSpace s = true -> Turndown.escape s = s.
Proof.
  destruct s as [|c s]; [reflexivity|].
  intros Hs. pose proof Hs as Hcs. simpl in Hcs.
  apply andb_prop in Hcs as [Hc _].
  unfold Turndown.escape, Turndown.escapes. cbn [fold_left].
  rewrite (escapeChar_blank "\" (String c s)) by easy.
  rewrite (escapeChar_blank "*" (String c s)) by easy.
  rewrite !(escapeStartIf_blank _ c) by easy.
  rewrite (escapeHeading_blank c s Hc).
  rewrite (escapeChar_blank "`" (String c s)) by easy.
  rewrite !(escapeStartIf_blank _ c) by easy.
  rewrite (escapeChar_blank "[" (String c s)) by easy.
  rewrite (escapeChar_blank "]" (String c s)) by easy.
  rewrite !(escapeStartIf_blank _ c) by easy.
  rewrite (escapeChar_blank "_" (String c s)) by easy.
  apply escapeOrdinal_blank, Hc.
Qed.

Lemma blankBlock_has_none (names : list string) (n : Node) :
  arrayIncludes "p" names = false -> arrayIncludes "div" names = false ->
  blankBlock n = true -> Turndown.has names n = false.
Proof.
  intros Hp Hdiv.
  induction n as [d | name attrs ch IH] using Node_induction; simpl;
    [reflexivity|].
  intros Hb. apply andb_prop in Hb as [_ Hch].
  induction IH as [|c ch Hc _ IHch]; simpl in *; [reflexivity|].
  apply andb_prop in Hch as [Hbc Hch].
  rewrite Hc, IHch by assumption. rewrite !orb_false_r.
  destruct c as [d | name' attrs' ch']; [reflexivity|].
  simpl in Hbc. apply andb_prop in Hbc as [Hn _].
  unfold Turndown.isTag. simpl.
  destruct (blankBlock_name _ Hn) as [-> | ->]; assumption.
Qed.

Lemma blankBlock_isBlank (name : string) (attrs : list (string * string))
  (ch : list Node) :
  blankBlock (Element name attrs ch) = true ->
  Turndown.isBlank (Element name attrs ch) = true /\
  Turndown.isBlock (Element name attrs ch) = true.
Proof.
  intros Hb. unfold Turndown.isBlank.
  rewrite (blankBlock_textContent _ Hb).
  rewrite !blankBlock_has_none by (exact Hb || reflexivity).
  simpl in Hb. apply andb_prop in Hb as [Hn _].
  destruct (blankBlock_name _ Hn) as [-> | ->]; split; reflexivity.
Qed.

(** A blank block is converted to white space by any rule store. *)
Lemma replacementForNode_blank (rules : Turndown.Rules) (o : Turndown.Options)
  (site : Turndown.Site) (n : Node) :
  blankBlock n = true ->
  allChars isWhiteSpace (Turndown.replacementForNode rules o site n) = true.
Proof.
  destruct n as [d | name attrs ch]; intros Hb.
  - simpl. destruct (Turndown.insideCode site); [exact Hb|].
    now rewrite escape_blank.
  - destruct (blankBlock_isBlank _ _ _ Hb) as [Hblank Hblock].
    cbn [Turndown.replacementForNode].
    unfold Turndown.forNode, Turndown.flankingWhitespace.
    rewrite Hblank, Hblock. cbn. unfold Turndown.blankReplacement.
    now rewrite Hblock.
Qed.

Lemma join_blank (output replacement : string) :
  allChars isWhiteSpace output = true ->
  allChars isWhiteSpace replacement = true ->
  allChars isWhiteSpace (Turndown.join output replacement) = true.
Proof.
  intros Ho Hr. unfold Turndown.join. rewrite !allChars_append.
  rewrite allChars_dropWhileEnd, allChars_dropWhile by assumption.
  rewrite andb_true_r. simpl andb.
  destruct (Nat.max _ _) as [|[|[|k]]]; reflexivity.
Qed.

Lemma reduceChildren_blank (f : Turndown.Site -> Node -> string)
  (parent : Node) (code : bool) (l before : list Node) (output : string) :
  (forall site n, blankBlock n = true ->
                  allChars isWhiteSpace (f site n) = true) ->
  forallb blankBlock l = true ->
  allChars isWhiteSpace output = true ->
  allChars isWhiteSpace
    (Turndown.reduceChildren f parent code before l output) = true.
Proof.
  intros Hf. revert before output.
  induction l as [|n l IH]; intros before output Hl Ho; simpl; [exact Ho|].
  apply andb_prop in Hl as [Hn Hl].
  apply IH; [exact Hl|]. apply join_blank; [exact Ho|]. now apply Hf.
Qed.

Lemma trimOutput_blank (s : string) :
  allChars isWhiteSpace s = true -> Turndown.trimOutput s = EmptyString.
Proof.
  intros Hs. unfold Turndown.trimOutput.
  apply dropWhileEnd_all. now apply allChars_dropWhile.
Qed.

Lemma turndown_blank (rules : Turndown.Rules) (o : Turndown.Options)
  (root : list Node) :
  forallb blankBlock root = true ->
  Turndown.turndown rules o root = EmptyString.
Proof.
  intros Hb. unfold Turndown.turndown. destruct root as [|n root];
    [reflexivity|].
  apply trimOutput_blank. unfold Turndown.process.
  apply reduceChildren_blank; [|exact Hb|reflexivity].
  intros site c. apply replacementForNode_blank.
Qed.

(** C9, as amended.  For an input that the cap of lines 45-48 leaves
    whole, because [maxLength] is zero or below or the input has at most
    [maxLength * 10] code units, and that consists only of empty or
    white-space-only paragraphs and divisions, so that this is the body
    the libraries give for it, [htmlToMarkdown] returns the empty string,
    whatever the other options. *)
Theorem blank_blocks_give_empty_markdown :
  forall (H : Host) (html : string) (options : HtmlToMarkdownOptions)
         (body : list Node),
    let limit := orDefault 0%Z (maxLength options) in
    (limit <= 0 \/ Z.of_nat (String.length html) <= limit * 10)%Z ->
    parsedBody H html options body ->
    forallb blankBlock body = true ->
    htmlToMarkdown H (Str html) options = Normal EmptyString.
Proof.
  intros H html options body limit Hwhole (sanitized & Hsan & Hparse) Hb.
  destruct html as [|c html]; [reflexivity|].
  rewrite htmlToMarkdown_string by reflexivity. fold limit.
  assert (Hcap : capInput limit (String c html) = String c html)
    by (destruct Hwhole;
        [now apply capInput_unlimited | now apply capInput_within]).
  rewrite Hcap.
  unfold convert. rewrite Hsan. cbn [Js.bind]. rewrite Hparse. cbn [Js.bind].
  rewrite normalize_blank_body by exact Hb.
  rewrite turndown_blank by now apply innerHTML_blank.
  change (cleanup EmptyString) with EmptyString.
  now rewrite applyLimit_empty.
Qed.

(** ** Redirect links *)

Lemma anchor_is_not_blank (attrs : list (string * string)) (ch : list Node) :
  Turndown.isBlank (Element "a" attrs ch) = false.
Proof. reflexivity. Qed.

(** An anchor that the [emailLinks] filter accepts is converted by the
    [emailLinks] rule: it was added last, so it is found first. *)
Lemma emailLinks_rule_applies (H : Host) (o : Turndown.Options)
  (attrs : list (string * string)) (ch : list Node) :
  emailLinksFilter (Element "a" attrs ch) = true ->
  Turndown.forNode (rules H) (Element "a" attrs ch) o = emailLinks H.
Proof.
  intros Hf. unfold Turndown.forNode. rewrite anchor_is_not_blank.
  cbn [rules Turndown.array Turndown.findRule].
  unfold Turndown.filterValue at 1. cbn [emailLinks Turndown.filter].
  now rewrite Hf.
Qed.

Lemma emailLinks_fallback (H : Host) (content href : string) (n : Node) :
  getAttribute "href" n = Some href ->
  raises (extractDestination H content href) ->
  emailLinksReplacement H content n = inlineLink content href.
Proof.
  intros Hhref [message Hthrow]. unfold emailLinksReplacement.
  rewrite Hhref, Hthrow. simpl. now destruct (nonEmpty href).
Qed.

Lemma extractDestination_raises (H : Host) (content href : string) :
  raises (newURL H href) \/
  (exists url destination,
      newURL H href = Normal url /\
      Url.get "destination" (Url.searchParams url) = Some destination /\
      raises (decodeURIComponent H destination)) ->
  raises (extractDestination H content href) \/
  extractDestination H content href = Normal None.
Proof.
  unfold extractDestination.
  intros [[message ->] | (url & destination & -> & Hget & [message Hdec])];
    cbn [Js.bind].
  - left. now exists message.
  - rewrite Hget, Hdec. cbn [Js.bind].
    destruct (nonEmpty destination); [left; now exists message | now right].
Qed.

(** C7.  When the libraries hand over the anchor of the scenario and
    [URL] and [decodeURIComponent] decode its [destination] parameter to
    [https://real.example], [htmlToMarkdown] returns
    [[click](https://real.example)].  And for every anchor that the
    [emailLinks] filter accepts, if [new URL(href)] throws, or the
    [destination] parameter is there and [decodeURIComponent] throws on
    it, the rule that converts the anchor is [emailLinks] and its
    replacement is the link to the original [href]; no exception leaves
    the rule. *)
Theorem redirect_link_is_unwrapped_or_kept :
  (forall (H : Host) (url : Url.URL),
      yieldsBody H redirectInput noOptions
        [Element "a" [("href", safelink)] [Text "click"]] ->
      newURL H safelink = Normal url ->
      Url.get "destination" (Url.searchParams url)
        = Some "https://real.example" ->
      decodeURIComponent H "https://real.example"
        = Normal "https://real.example" ->
      htmlToMarkdown H (Str redirectInput) noOptions
        = Normal "[click](https://real.example)") /\
  (forall (H : Host) (attrs : list (string * string)) (ch : list Node)
          (href content : string) (site : Turndown.Site)
          (o : Turndown.Options),
      let anchor := Element "a" attrs ch in
      getAttribute "href" anchor = Some href ->
      emailLinksFilter anchor = true ->
      raises (newURL H href) \/
      (exists url destination,
          newURL H href = Normal url /\
          Url.get "destination" (Url.searchParams url) = Some destination /\
          raises (decodeURIComponent H destination)) ->
      Turndown.forNode (rules H) anchor o = emailLinks H /\
      Turndown.replacement (emailLinks H) content anchor site o
        = inlineLink content href).
Proof.
  split.
  - intros H url (sanitized & Hsan & Hparse) Hurl Hdest Hdecode.
    rewrite htmlToMarkdown_string by reflexivity.
    unfold convert.
    change (capInput (orDefault 0%Z (maxLength noOptions)) redirectInput)
      with redirectInput in *.
    cbn [orDefault noOptions preserveTables includeImageAlt allowedDomains
         preserveLineBreaks maxLength] in *.
    rewrite Hsan. cbn [Js.bind]. rewrite Hparse. cbn [Js.bind].
    change (normalize [Element "a" [("href", safelink)] [Text "click"]])
      with [Element "a" [("href", safelink)] [Text "click"]].
    change (innerHTML [Element "a" [("href", safelink)] [Text "click"]])
      with [Element "a" [("href", safelink)] [Text "click"]].
    unfold Turndown.turndown, Turndown.process.
    cbn [childNodes Turndown.reduceChildren Turndown.replacementForNode].
    rewrite emailLinks_rule_applies by reflexivity.
    change (Turndown.flankingWhitespace _
              (Element "a" [("href", safelink)] [Text "click"]))
      with (EmptyString, EmptyString).
    cbn [emailLinks Turndown.replacement Turndown.insideCode orb
         String.eqb Ascii.eqb Bool.eqb nonEmpty negb].
    change (Turndown.join EmptyString (Turndown.escape "click"))
      with "click".
    unfold emailLinksReplacement.
    change (getAttribute "href"
              (Element "a" [("href", safelink)] [Text "click"]))
      with (Some safelink).
    change (nonEmpty safelink) with true. cbv iota.
    unfold extractDestination. rewrite Hurl. cbn [Js.bind].
    rewrite Hdest. change (nonEmpty "https://real.example") with true.
    cbv iota. rewrite Hdecode. cbn [Js.bind].
    vm_compute. reflexivity.
  - intros H attrs ch href content site o anchor Hhref Hfilter Hfail.
    split; [now apply emailLinks_rule_applies|].
    cbn [emailLinks Turndown.replacement].
    destruct (extractDestination_raises H content href Hfail) as [Hr | Hn].
    + now apply emailLinks_fallback.
    + unfold emailLinksReplacement. rewrite Hhref, Hn.
      now destruct (nonEmpty href).
Qed.

(** ** Domain filtering *)

Lemma exclusiveFilter_unrestricted (H : Host) (frame : SanitizeHtml.Frame) :
  exclusiveFilter H [] frame = false.
Proof. reflexivity. Qed.

Lemma exclusiveFilter_anchor (H : Host) (allowedDomains : list string)
  (frame : SanitizeHtml.Frame) (href : string) :
  allowedDomains <> [] ->
  SanitizeHtml.tag frame = "a" ->
  lookupAttr "href" (SanitizeHtml.attribs frame) = Some href ->
  href <> EmptyString ->
  exclusiveFilter H allowedDomains frame =
  match newURL H href with
  | Normal url => negb (arrayIncludes (Url.hostname url) allowedDomains)
  | Throw _ => true
  end.
Proof.
  intros Hdomains Htag Hhref Hne. unfold exclusiveFilter.
  destruct allowedDomains as [|d ds]; [now elim Hdomains|].
  cbn [List.length Nat.eqb]. rewrite Hhref, Htag.
  destruct href; [now elim Hne | reflexivity].
Qed.

Lemma exclusiveFilter_without_href (H : Host) (allowedDomains : list string)
  (frame : SanitizeHtml.Frame) :
  lookupAttr "href" (SanitizeHtml.attribs frame) = None \/
  lookupAttr "href" (SanitizeHtml.attribs frame) = Some EmptyString ->
  exclusiveFilter H allowedDomains frame = false.
Proof.
  unfold exclusiveFilter. intros [-> | ->];
    destruct (List.length allowedDomains =? 0)%nat; try reflexivity.
  now rewrite andb_false_r.
Qed.

(** The [href] that the reference sanitizer leaves in the frame of an
    anchor: not empty, and with no scheme or one of the allowed ones. *)
Lemma href_shown (H : Host) (tables alt lineBreaks : bool)
  (allowedDomains : list string) (href : string) :
  Reference.attributeKept
    (sanitizeOptions H tables alt allowedDomains lineBreaks) "a"
    ("href", href) =
  nonEmpty href &&
  match Reference.splitScheme (Reference.stripControls href) with
  | Some (scheme, _) => arrayIncludes scheme ["http"; "https"; "mailto"]
  | None => true
  end.
Proof.
  unfold Reference.attributeKept, Reference.naughtyHref.
  cbn [sanitizeOptions SanitizeHtml.allowedAttributes
       SanitizeHtml.allowedSchemesByTag SanitizeHtml.allowedSchemes
       Reference.lookupList fst snd].
  change (String.eqb "a" "a") with true.
  change (String.eqb "img" "a") with false. cbv iota.
  change (arrayIncludes "href" Reference.allowedEmptyAttributes) with false.
  change (arrayIncludes "href" ["href"; "title"]) with true.
  change (arrayIncludes "href" ["href"; "src"; "cite"]) with true.
  rewrite orb_false_r, andb_true_r. cbn [andb]. f_equal.
  destruct (Reference.splitScheme (Reference.stripControls href))
    as [[scheme rest]|]; [apply negb_involutive | reflexivity].
Qed.

Lemma sanitizeNode_anchor (H : Host) (tables alt lineBreaks : bool)
  (allowedDomains : list string) (attrs : list (string * string))
  (ch : list Node) :
  let o := sanitizeOptions H tables alt allowedDomains lineBreaks in
  let shown := List.filter (Reference.attributeKept o "a") attrs in
  Reference.sanitizeNode o (Element "a" attrs ch) =
  if exclusiveFilter H allowedDomains
       {| SanitizeHtml.tag := "a"; SanitizeHtml.attribs := shown |}
  then []
  else [Element "a" shown (flat_map (Reference.sanitizeNode o) ch)].
Proof.
  intros o shown. cbn [Reference.sanitizeNode].
  change (Reference.transformed o "a") with "a".
  replace (arrayIncludes "a" (SanitizeHtml.allowedTags o)) with true
    by reflexivity.
  reflexivity.
Qed.

(** C8, as amended.  With a non-empty [allowedDomains], [exclusiveFilter]
    marks an anchor frame whose [href] is not empty when the [href] is no
    valid URL, and otherwise exactly when [allowedDomains] does not
    include its hostname; it marks no frame whose [href] is absent or
    empty.  The sanitizer, here the reference one, drops an anchor with
    its content exactly when the frame of the attributes it has left is
    marked, and leaves an [href] in the frame only when it is not empty
    and has no scheme or one of [http], [https] and [mailto]: an anchor
    with any other [href] stays, without the [href].  With an empty
    [allowedDomains] the filter marks nothing. *)
Theorem anchors_outside_allowed_domains_are_removed :
  forall (H : Host) (allowedDomains : list string),
    (allowedDomains <> [] ->
     forall (frame : SanitizeHtml.Frame) (href : string),
       SanitizeHtml.tag frame = "a" ->
       lookupAttr "href" (SanitizeHtml.attribs frame) = Some href ->
       href <> EmptyString ->
       (raises (newURL H href) ->
        exclusiveFilter H allowedDomains frame = true) /\
       (forall url, newURL H href = Normal url ->
                    exclusiveFilter H allowedDomains frame =
                    negb (arrayIncludes (Url.hostname url) allowedDomains))) /\
    (forall frame : SanitizeHtml.Frame,
        lookupAttr "href" (SanitizeHtml.attribs frame) = None \/
        lookupAttr "href" (SanitizeHtml.attribs frame) = Some EmptyString ->
        exclusiveFilter H allowedDomains frame = false) /\
    (forall (tables alt lineBreaks : bool) (attrs : list (string * string))
            (ch : list Node),
        let o := sanitizeOptions H tables alt allowedDomains lineBreaks in
        let shown := List.filter (Reference.attributeKept o "a") attrs in
        Reference.sanitizeNode o (Element "a" attrs ch) =
        if exclusiveFilter H allowedDomains
             {| SanitizeHtml.tag := "a"; SanitizeHtml.attribs := shown |}
        then []
        else [Element "a" shown (flat_map (Reference.sanitizeNode o) ch)]) /\
    (forall (tables alt lineBreaks : bool) (href : string),
        Reference.attributeKept
          (sanitizeOptions H tables alt allowedDomains lineBreaks) "a"
          ("href", href) =
        nonEmpty href &&
        match Reference.splitScheme (Reference.stripControls href) with
        | Some (scheme, _) =>
            arrayIncludes scheme ["http"; "https"; "mailto"]
        | None => true
        end) /\
    (forall (tables alt lineBreaks : bool) (href : string) (ch : list Node),
        let o := sanitizeOptions H tables alt allowedDomains lineBreaks in
        Reference.attributeKept o "a" ("href", href) = false ->
        Reference.sanitizeNode o (Element "a" [("href", href)] ch) =
        [Element "a" [] (flat_map (Reference.sanitizeNode o) ch)]) /\
    (allowedDomains = [] ->
     forall frame, exclusiveFilter H allowedDomains frame = false).
Proof.
  intros H allowedDomains. split; [|split; [|split; [|split; [|split]]]].
  - intros Hdomains frame href Htag Hhref Hne.
    rewrite (exclusiveFilter_anchor H allowedDomains frame href)
      by assumption.
    split; [now intros [message ->] | now intros url ->].
  - apply exclusiveFilter_without_href.
  - intros tables alt lineBreaks attrs ch. apply sanitizeNode_anchor.
  - intros tables alt lineBreaks href. apply href_shown.
  - intros tables alt lineBreaks href ch o Hdropped.
    pose proof (sanitizeNode_anchor H tables alt lineBreaks allowedDomains
                  [("href", href)] ch) as Hnode.
    cbv zeta in Hnode. fold o in Hnode. rewrite Hnode.
    cbn [List.filter]. rewrite Hdropped.
    now rewrite exclusiveFilter_without_href by now left.
  - intros ->. apply exclusiveFilter_unrestricted.
Qed.

(** ** Idempotence of the cleanup chain *)

(** *** Code units *)

Lemma isLF_eq (c : ascii) : isLF c = true -> c = LF.
Proof. apply Ascii.eqb_eq. Qed.

Lemma isSpace_eq (c : ascii) : isSpace c = true -> c = " "%char.
Proof. apply Ascii.eqb_eq. Qed.

Lemma isLF_isWhiteSpace (c : ascii) : isLF c = true -> isWhiteSpace c = true.
Proof. intros Hc. apply isLF_eq in Hc. now subst. Qed.

Lemma isSpace_isWhiteSpace (c : ascii) :
  isSpace c = true -> isWhiteSpace c = true.
Proof. intros Hc. apply isSpace_eq in Hc. now subst. Qed.

Lemma isSpace_not_LF (c : ascii) : isSpace c = true -> isLF c = false.
Proof. intros Hc. apply isSpace_eq in Hc. now subst. Qed.

Lemma isListMarker_not_space (c : ascii) :
  isListMarker c = true -> isWhiteSpace c = false.
Proof.
  unfold isListMarker. intros Hc.
  apply orb_prop in Hc as [Hc|Hc]; [apply orb_prop in Hc as [Hc|Hc]|];
    apply Ascii.eqb_eq in Hc; now subst.
Qed.

(** *** The steps on examples *)

(** ** The patterns of the cleanup chain *)

Lemma substring_0_0 (s : string) : substring 0 0 s = EmptyString.
Proof. now destruct s. Qed.

Lemma substring_0_all (n : nat) (s : string) :
  String.length s <= n -> substring 0 n s = s.
Proof.
  revert s; induction n as [|n IH]; intros [|c s]; simpl; try reflexivity.
  - lia.
  - intros Hs. rewrite IH; [reflexivity | lia].
Qed.

Lemma substring_takeWhile (f : ascii -> bool) (s : string) :
  substring 0 (String.length (takeWhile f s)) s = takeWhile f s.
Proof.
  induction s as [|c s IH]; simpl; [reflexivity|].
  destruct (f c); simpl; [now rewrite IH | reflexivity].
Qed.

Lemma skip_takeWhile (f : ascii -> bool) (s : string) :
  skip (String.length (takeWhile f s)) s = dropWhile f s.
Proof.
  induction s as [|c s IH]; simpl; [reflexivity|].
  destruct (f c); simpl; [exact IH | reflexivity].
Qed.

Lemma length_dropWhile (f : ascii -> bool) (s : string) :
  String.length (dropWhile f s) <= String.length s.
Proof.
  induction s as [|c s IH]; simpl; [lia|].
  destruct (f c); simpl; lia.
Qed.

Lemma length_skip (n : nat) (s : string) :
  String.length (skip n s) <= String.length s.
Proof.
  revert s; induction n as [|n IH]; intros [|c s]; simpl; try lia.
  specialize (IH s). lia.
Qed.

(** Inside the run of a class the next code unit is in the class. *)
Lemma skip_inside_run (f : ascii -> bool) (s : string) (k : nat) :
  k < String.length (takeWhile f s) ->
  exists c r, skip k s = String c r /\ f c = true.
Proof.
  revert k; induction s as [|c s IH]; intros k; simpl; [lia|].
  destruct (f c) eqn:Hc; simpl; [|lia].
  destruct k as [|k]; [now exists c, s|].
  intros Hk. apply IH. lia.
Qed.

Lemma dropWhile_skip_run (f g : ascii -> bool) (s : string) (k : nat) :
  (forall c, f c = true -> g c = true) ->
  k <= String.length (takeWhile f s) ->
  dropWhile g (skip k s) = dropWhile g s.
Proof.
  intros Hfg. revert k; induction s as [|c s IH]; intros k; simpl.
  - now destruct k.
  - destruct k as [|k]; [reflexivity|].
    destruct (f c) eqn:Hc; simpl; [|lia].
    intros Hk. rewrite (Hfg c Hc). apply IH. lia.
Qed.

(** *** Backtracking *)

Lemma backtrack_first (continue : string -> option (list string * string))
  (min extra : nat) (s : string) (ms : list string) (rest : string) :
  continue (skip (min + extra) s) = Some (ms, rest) ->
  backtrack continue min s extra
  = Some (substring 0 (min + extra) s :: ms, rest).
Proof. intros Hc. destruct extra; simpl; now rewrite Hc. Qed.

Lemma backtrack_none (continue : string -> option (list string * string))
  (min extra : nat) (s : string) :
  (forall k, k <= extra -> continue (skip (min + k) s) = None) ->
  backtrack continue min s extra = None.
Proof.
  induction extra as [|extra IH]; intros Hnone; simpl.
  - now rewrite (Hnone 0).
  - rewrite (Hnone (S extra)) by lia. apply IH. intros k Hk.
    apply Hnone. lia.
Qed.

(** A quantified class at the end of a pattern takes the whole run. *)
Lemma matchAt_run (min : nat) (f : ascii -> bool) (s : string) :
  matchAt [AtLeast min f] s =
  if (min <=? String.length (takeWhile f s))%nat
  then Some ([takeWhile f s], dropWhile f s)
  else None.
Proof.
  cbn [matchAt].
  destruct (Nat.leb_spec min (String.length (takeWhile f s))) as [Hmin|];
    [|reflexivity].
  rewrite (backtrack_first _ _ _ _ [] (dropWhile f s)).
  - replace (min + (String.length (takeWhile f s) - min))
      with (String.length (takeWhile f s)) by lia.
    now rewrite substring_takeWhile.
  - replace (min + (String.length (takeWhile f s) - min))
      with (String.length (takeWhile f s)) by lia.
    now rewrite skip_takeWhile.
Qed.

(** A quantified class takes its whole run when the rest of the pattern
    matches behind the run; when it does not match there and cannot match
    inside the run either, the match fails. *)
Lemma matchAt_run_then (min : nat) (f : ascii -> bool) (p : Pattern)
  (s : string) :
  (matchAt p (dropWhile f s) = None ->
   forall k, k < String.length (takeWhile f s) ->
             min <= k -> matchAt p (skip k s) = None) ->
  matchAt (AtLeast min f :: p) s =
  if (min <=? String.length (takeWhile f s))%nat
  then match matchAt p (dropWhile f s) with
       | Some (ms, rest) => Some (takeWhile f s :: ms, rest)
       | None => None
       end
  else None.
Proof.
  intros Hinside. cbn [matchAt].
  destruct (Nat.leb_spec min (String.length (takeWhile f s))) as [Hmin|];
    [|reflexivity].
  assert (Hmost : min + (String.length (takeWhile f s) - min)
                  = String.length (takeWhile f s)) by lia.
  destruct (matchAt p (dropWhile f s)) as [[ms rest]|] eqn:Hp.
  - rewrite (backtrack_first _ _ _ _ ms rest).
    + now rewrite Hmost, substring_takeWhile.
    + now rewrite Hmost, skip_takeWhile.
  - apply backtrack_none. intros k Hk.
    destruct (Nat.eq_dec (min + k) (String.length (takeWhile f s))) as [E|E].
    + now rewrite E, skip_takeWhile.
    + apply Hinside; [reflexivity | lia | lia].
Qed.

Lemma matchAt_once_inside (f g : ascii -> bool) (p : Pattern) (s : string)
  (k : nat) :
  (forall c, f c = true -> g c = false) ->
  k < String.length (takeWhile f s) ->
  matchAt (Once g :: p) (skip k s) = None.
Proof.
  intros Hfg Hk.
  destruct (skip_inside_run f s k Hk) as (c & r & -> & Hc).
  cbn [matchAt]. now rewrite (Hfg c Hc).
Qed.

(** *** A replacement as a scan *)

Lemma replace_by_scan (p : Pattern) (f : list string -> string)
  (scan : string -> string) :
  scan EmptyString = EmptyString ->
  (forall c r, matchAt p (String c r) = None ->
               scan (String c r) = String c (scan r)) ->
  (forall c r ms rest,
      matchAt p (String c r) = Some (ms, rest) ->
      String.length rest <= String.length r /\
      scan (String c r) = f ms ++ scan rest) ->
  forall s, replace p f s = scan s.
Proof.
  intros Hnil Hnone Hsome s. unfold replace.
  assert (Hfuel : forall fuel t, String.length t <= fuel ->
                                 replaceFrom fuel p f t = scan t).
  { induction fuel as [|fuel IH]; intros [|c r]; simpl; intros Hlen;
      try (now rewrite Hnil); try lia.
    destruct (matchAt p (String c r)) as [[ms rest]|] eqn:Hm.
    - destruct (Hsome _ _ _ _ Hm) as [Hrest ->]. rewrite IH by lia.
      reflexivity.
    - rewrite (Hnone _ _ Hm), IH by lia. reflexivity. }
  now apply Hfuel.
Qed.

(** *** [/\n{3,}/g] *)

Lemma collapseNewlines_run (s : string) (k : nat) :
  collapseNewlines k s =
  substring 0 (2 - k) (takeWhile isLF s) ++
  collapseNewlines 0 (dropWhile isLF s).
Proof.
  revert k; induction s as [|c s IH]; intros k.
  - cbn [collapseNewlines takeWhile dropWhile].
    now rewrite substring_0_all by (simpl; lia).
  - cbn [collapseNewlines takeWhile dropWhile].
    destruct (isLF c) eqn:Hc.
    + destruct (Nat.ltb_spec k 2) as [Hk|Hk].
      * rewrite IH. replace (2 - k) with (S (2 - S k)) by lia. reflexivity.
      * rewrite IH. replace (2 - k) with 0 by lia.
        now rewrite !substring_0_0.
    + rewrite substring_0_all by (simpl; lia). simpl. now rewrite Hc.
Qed.

Lemma two_newlines (s : string) :
  2 <= String.length (takeWhile isLF s) ->
  substring 0 2 (takeWhile isLF s) = twoNewlines.
Proof.
  destruct s as [|a [|b s]]; simpl; try lia;
    destruct (isLF a) eqn:Ha; simpl; try lia.
  destruct (isLF b) eqn:Hb; simpl; try lia.
  intros _. rewrite (isLF_eq a Ha), (isLF_eq b Hb).
  now rewrite substring_0_0.
Qed.

Lemma manyNewlines_scan (s : string) :
  replace manyNewlines (fun _ => twoNewlines) s = collapseNewlines 0 s.
Proof.
  apply replace_by_scan; [reflexivity | |]; intros c r;
    unfold manyNewlines; rewrite matchAt_run;
    destruct (Nat.leb_spec 3 (String.length (takeWhile isLF (String c r))))
      as [Hrun|Hrun]; try discriminate.
  - intros _. simpl in *. destruct (isLF c) eqn:Hc; [|reflexivity].
    f_equal. rewrite (collapseNewlines_run r 1), (collapseNewlines_run r 0).
    simpl in Hrun. now rewrite !substring_0_all by lia.
  - intros ms rest [= <- <-].
    rewrite (collapseNewlines_run (String c r) 0).
    rewrite two_newlines by lia. split; [|reflexivity].
    simpl in *. destruct (isLF c); [apply length_dropWhile | simpl in Hrun; lia].
Qed.

(** *** [/ {2,}/g] *)

Lemma collapseSpaces_run (s : string) (prev : bool) :
  collapseSpaces prev s =
  substring 0 (if prev then 0 else 1) (takeWhile isSpace s) ++
  collapseSpaces false (dropWhile isSpace s).
Proof.
  revert prev; induction s as [|c s IH]; intros prev.
  - simpl. now destruct prev.
  - cbn [collapseSpaces takeWhile dropWhile].
    destruct (isSpace c) eqn:Hc.
    + rewrite IH. destruct prev; simpl; now rewrite ?substring_0_0.
    + simpl. rewrite Hc. now destruct prev.
Qed.

Lemma manySpaces_scan (s : string) :
  replace manySpaces (fun _ => " ") s = collapseSpaces false s.
Proof.
  apply replace_by_scan; [reflexivity | |]; intros c r;
    unfold manySpaces; rewrite matchAt_run;
    destruct (Nat.leb_spec 2 (String.length (takeWhile isSpace (String c r))))
      as [Hrun|Hrun]; try discriminate.
  - intros _. simpl in *. destruct (isSpace c) eqn:Hc; [|reflexivity].
    f_equal. rewrite (collapseSpaces_run r true).
    simpl in Hrun. rewrite substring_0_0.
    destruct r as [|d r]; [reflexivity|]. simpl in *.
    destruct (isSpace d) eqn:Hd; [simpl in Hrun; lia|].
    simpl. now rewrite Hd.
  - intros ms rest [= <- <-].
    rewrite (collapseSpaces_run (String c r) false). simpl in *.
    destruct (isSpace c) eqn:Hc; [|simpl in Hrun; lia].
    rewrite (isSpace_eq c Hc). simpl. rewrite substring_0_0.
    split; [apply length_dropWhile | reflexivity].
Qed.

(** *** [/\n+#/g] *)

Lemma dropping_run (s : string) :
  spaceHeaders Dropping s = spaceHeaders Idle (dropWhile isLF s).
Proof.
  induction s as [|c s IH]; simpl; [reflexivity|].
  destruct (isLF c) eqn:Hc; [exact IH|]. simpl. now rewrite Hc.
Qed.

Lemma copying_idle (s : string) :
  hashAfterNewlines s = false -> spaceHeaders Copying s = spaceHeaders Idle s.
Proof.
  destruct s as [|c s]; simpl; [reflexivity|].
  destruct (isLF c); [|reflexivity]. now intros ->.
Qed.

Lemma hash_after_run (s : string) :
  hashAfterNewlines s = firstIs (just "#") (dropWhile isLF s).
Proof.
  induction s as [|c s IH]; simpl; [reflexivity|].
  destruct (isLF c); [exact IH|]. simpl. unfold just. apply Ascii.eqb_sym.
Qed.

Lemma newlinesHash_at (s : string) :
  matchAt newlinesHash s =
  if (1 <=? String.length (takeWhile isLF s))%nat
  then match dropWhile isLF s with
       | String c r =>
           if just "#" c
           then Some ([takeWhile isLF s; String c EmptyString], r)
           else None
       | EmptyString => None
       end
  else None.
Proof.
  unfold newlinesHash. rewrite matchAt_run_then.
  - destruct (1 <=? _)%nat; [|reflexivity].
    cbn [matchAt]. destruct (dropWhile isLF s) as [|c r]; [reflexivity|].
    now destruct (just "#" c).
  - intros _ k Hk _. apply (matchAt_once_inside isLF); [|exact Hk].
    intros c Hc. now rewrite (isLF_eq c Hc).
Qed.

Lemma newlinesHash_scan (s : string) :
  replace newlinesHash (fun _ => twoNewlines ++ "#") s = spaceHeaders Idle s.
Proof.
  apply replace_by_scan; [reflexivity | |]; intros c r;
    rewrite newlinesHash_at; cbn [takeWhile dropWhile spaceHeaders];
    destruct (isLF c) eqn:Hc; cbn [String.length Nat.leb];
    try discriminate; try reflexivity;
    rewrite (hash_after_run r);
    destruct (dropWhile isLF r) as [|d t] eqn:Hdrop; cbn [firstIs].
  - intros _. rewrite copying_idle; [reflexivity|].
    now rewrite hash_after_run, Hdrop.
  - destruct (just "#" d) eqn:Hd; [discriminate|]. intros _.
    rewrite copying_idle; [reflexivity|].
    now rewrite hash_after_run, Hdrop.
  - discriminate.
  - destruct (just "#" d) eqn:Hd; [|discriminate].
    intros ms rest [= <- <-]. split.
    + pose proof (length_dropWhile isLF r) as Hlen.
      rewrite Hdrop in Hlen. simpl in Hlen. lia.
    + rewrite dropping_run, Hdrop.
      apply Ascii.eqb_eq in Hd. subst d. reflexivity.
Qed.

(** *** [/\n+(\s*[-*+])/g] *)

Lemma append_assoc (a b c : string) : (a ++ b) ++ c = a ++ (b ++ c).
Proof. induction a as [|x a IH]; simpl; [reflexivity | now rewrite IH]. Qed.

Lemma dropLF_run (s : string) :
  tightenLists DropLF s = tightenLists Group (dropWhile isLF s).
Proof.
  induction s as [|c s IH]; simpl; [reflexivity|].
  destruct (isLF c) eqn:Hc; [exact IH|]. simpl.
  reflexivity.
Qed.

Lemma group_run (s : string) :
  tightenLists Group s =
  takeWhile isWhiteSpace s ++ tightenLists Scan (dropWhile isWhiteSpace s).
Proof.
  induction s as [|c s IH]; simpl; [reflexivity|].
  destruct (isWhiteSpace c) eqn:Hc; simpl; [now rewrite IH|].
  destruct (isLF c) eqn:Hlf; [|reflexivity].
  now rewrite (isLF_isWhiteSpace c Hlf) in Hc.
Qed.

Lemma marker_after_run (s : string) :
  markerAfterSpace s = firstIs isListMarker (dropWhile isWhiteSpace s).
Proof.
  induction s as [|c s IH]; simpl; [reflexivity|].
  destruct (isWhiteSpace c); [exact IH | reflexivity].
Qed.

Lemma dropWhile_space_newlines (s : string) :
  dropWhile isWhiteSpace (dropWhile isLF s) = dropWhile isWhiteSpace s.
Proof.
  rewrite <- (skip_takeWhile isLF s).
  apply (dropWhile_skip_run isLF); [apply isLF_isWhiteSpace | lia].
Qed.

Lemma marker_at (s : string) :
  matchAt [AtLeast 0 isWhiteSpace; Once isListMarker] s =
  match dropWhile isWhiteSpace s with
  | String c r =>
      if isListMarker c
      then Some ([takeWhile isWhiteSpace s; String c EmptyString], r)
      else None
  | EmptyString => None
  end.
Proof.
  rewrite matchAt_run_then.
  - cbn [Nat.leb matchAt].
    destruct (dropWhile isWhiteSpace s) as [|c r]; [reflexivity|].
    now destruct (isListMarker c).
  - intros _ k Hk _. apply (matchAt_once_inside isWhiteSpace); [|exact Hk].
    intros c Hc. destruct (isListMarker c) eqn:Hm; [|reflexivity].
    now rewrite (isListMarker_not_space c Hm) in Hc.
Qed.

Lemma newlinesMarker_at (s : string) :
  matchAt newlinesMarker s =
  if (1 <=? String.length (takeWhile isLF s))%nat
  then match dropWhile isWhiteSpace s with
       | String c r =>
           if isListMarker c
           then Some ([takeWhile isLF s;
                       takeWhile isWhiteSpace (dropWhile isLF s);
                       String c EmptyString], r)
           else None
       | EmptyString => None
       end
  else None.
Proof.
  unfold newlinesMarker. rewrite matchAt_run_then.
  - rewrite marker_at, dropWhile_space_newlines.
    destruct (1 <=? _)%nat; [|reflexivity].
    destruct (dropWhile isWhiteSpace s) as [|c r]; [reflexivity|].
    now destruct (isListMarker c).
  - rewrite marker_at, dropWhile_space_newlines. intros Hnone k Hk _.
    rewrite marker_at.
    rewrite (dropWhile_skip_run isLF)
      by (apply isLF_isWhiteSpace || lia).
    destruct (dropWhile isWhiteSpace s) as [|c r]; [reflexivity|].
    now destruct (isListMarker c).
Qed.

Lemma newlinesMarker_scan (s : string) :
  replace newlinesMarker (fun ms => String LF (groupFrom 1 ms)) s
  = tightenLists Scan s.
Proof.
  apply replace_by_scan; [reflexivity | |]; intros c r;
    rewrite newlinesMarker_at; cbn [takeWhile dropWhile tightenLists];
    destruct (isLF c) eqn:Hc; cbn [String.length Nat.leb andb];
    try discriminate; try reflexivity;
    rewrite (isLF_isWhiteSpace c Hc), (marker_after_run r);
    destruct (dropWhile isWhiteSpace r) as [|d t] eqn:Hdrop; cbn [firstIs].
  - reflexivity.
  - destruct (isListMarker d) eqn:Hd; [discriminate | reflexivity].
  - discriminate.
  - destruct (isListMarker d) eqn:Hd; [|discriminate].
    intros ms rest [= <- <-]. split.
    + pose proof (length_dropWhile isWhiteSpace r) as Hlen.
      rewrite Hdrop in Hlen. simpl in Hlen. lia.
    + rewrite dropLF_run, group_run, dropWhile_space_newlines, Hdrop.
      rewrite (isLF_eq c Hc). cbn [tightenLists].
      pose proof (isListMarker_not_space d Hd) as Hw.
      destruct (isLF d) eqn:Hlf;
        [now rewrite (isLF_isWhiteSpace d Hlf) in Hw|].
      cbn [andb]. unfold groupFrom. cbn [skipn fold_right].
      cbn [String.append]. f_equal.
      now rewrite !append_assoc.
Qed.

(** *** [/\[]\([^)]*\)/g] *)

Lemma inside_run (s : string) :
  removeEmptyLinks true s
  = removeEmptyLinks false (skip 1 (dropWhile (anyBut ")") s)).
Proof.
  induction s as [|c s IH]; [reflexivity|].
  cbn [removeEmptyLinks dropWhile]. unfold anyBut at 1.
  rewrite (Ascii.eqb_sym ")" c).
  destruct (Ascii.eqb c ")"); simpl negb; cbv iota; [reflexivity | exact IH].
Qed.

Lemma hasClose_run (s : string) :
  hasClose s = nonEmpty (dropWhile (anyBut ")") s).
Proof.
  induction s as [|c s IH]; [reflexivity|].
  cbn [hasClose dropWhile]. unfold anyBut at 1.
  rewrite (Ascii.eqb_sym ")" c).
  destruct (Ascii.eqb c ")"); simpl; [reflexivity | exact IH].
Qed.

Lemma close_at (s : string) :
  matchAt [AtLeast 0 (anyBut ")"); Once (just ")")] s =
  match dropWhile (anyBut ")") s with
  | String c r =>
      Some ([takeWhile (anyBut ")") s; String c EmptyString], r)
  | EmptyString => None
  end.
Proof.
  rewrite matchAt_run_then.
  - cbn [Nat.leb matchAt].
    destruct (dropWhile (anyBut ")") s) as [|c r] eqn:Hdrop; [reflexivity|].
    assert (Hc : just ")" c = true).
    { clear -Hdrop. induction s as [|d s IH]; [discriminate|].
      cbn [dropWhile] in Hdrop. unfold anyBut at 1 in Hdrop.
      destruct (Ascii.eqb ")" d) eqn:Hd; simpl in Hdrop.
      - injection Hdrop as -> _. exact Hd.
      - now apply IH. }
    now rewrite Hc.
  - intros _ k Hk _.
    apply (matchAt_once_inside (anyBut ")")); [|exact Hk].
    intros c. unfold anyBut, just. now destruct (Ascii.eqb ")" c).
Qed.

Lemma matchAt_once (f : ascii -> bool) (p : Pattern) (c : ascii)
  (r : string) :
  matchAt (Once f :: p) (String c r) =
  if f c
  then match matchAt p r with
       | Some (ms, rest) => Some (String c EmptyString :: ms, rest)
       | None => None
       end
  else None.
Proof. reflexivity. Qed.

Lemma emptyLink_at (s : string) :
  match matchAt emptyLink s with
  | Some (ms, rest) =>
      emptyLinkAt s = true /\
      rest = skip 1 (dropWhile (anyBut ")") (skip 3 s))
  | None => emptyLinkAt s = false
  end.
Proof.
  unfold emptyLink, emptyLinkAt.
  destruct s as [|a s]; [reflexivity|]. rewrite matchAt_once.
  unfold just at 1. rewrite (Ascii.eqb_sym "[" a).
  destruct (Ascii.eqb a "[");
    [|now destruct s as [|b [|c t]]].
  destruct s as [|b s]; [reflexivity|]. rewrite matchAt_once.
  unfold just at 1. rewrite (Ascii.eqb_sym "]" b).
  destruct (Ascii.eqb b "]"); [|now destruct s].
  destruct s as [|c t]; [reflexivity|]. rewrite matchAt_once.
  unfold just at 1. rewrite (Ascii.eqb_sym "(" c).
  destruct (Ascii.eqb c "("); [|reflexivity].
  rewrite close_at, hasClose_run. cbn [andb skip].
  destruct (dropWhile (anyBut ")") t) as [|d r]; [reflexivity|].
  split; reflexivity.
Qed.

Lemma emptyLink_scan (s : string) :
  replace emptyLink (fun _ => EmptyString) s = removeEmptyLinks false s.
Proof.
  apply replace_by_scan; [reflexivity | |]; intros c r.
  - intros Hnone. pose proof (emptyLink_at (String c r)) as Hat.
    rewrite Hnone in Hat. cbn [removeEmptyLinks]. now rewrite Hat.
  - intros ms rest Hsome. pose proof (emptyLink_at (String c r)) as Hat.
    rewrite Hsome in Hat. destruct Hat as [Hlink ->].
    cbn [removeEmptyLinks]. rewrite Hlink.
    destruct r as [|b [|d t]]; try discriminate Hlink.
    unfold emptyLinkAt in Hlink.
    apply andb_prop in Hlink as [Hlink _].
    apply andb_prop in Hlink as [Hlink Hd].
    apply andb_prop in Hlink as [_ Hb].
    apply Ascii.eqb_eq in Hb, Hd. subst b d.
    change (skip 3 (String c (String "]" (String "(" t)))) with t.
    cbn [String.length]. split.
    + pose proof (length_skip 1 (dropWhile (anyBut ")") t)).
      pose proof (length_dropWhile (anyBut ")") t). lia.
    + cbn [removeEmptyLinks String.append]. simpl negb. cbv iota.
      apply inside_run.
Qed.

(** The chain of replacements is the chain of scans. *)
Lemma cleanup_scans (markdown : string) :
  cleanup markdown = cleanupScan markdown.
Proof.
  unfold cleanup, cleanupScan.
  now rewrite manyNewlines_scan, newlinesHash_scan, newlinesMarker_scan,
    emptyLink_scan, manySpaces_scan.
Qed.

(** *** The single passes at work *)

Example collapseNewlines_example :
  collapseNewlines 0 ("a" ++ LF1 ++ LF1 ++ LF1 ++ LF1 ++ "b" ++ LF1 ++ LF1 ++ "c")
  = "a" ++ LF1 ++ LF1 ++ "b" ++ LF1 ++ LF1 ++ "c".
Proof. reflexivity. Qed.

Example spaceHeaders_example :
  spaceHeaders Idle ("a" ++ LF1 ++ "# b" ++ LF1 ++ "c #" ++ LF1 ++ LF1 ++ "## d")
  = "a" ++ LF1 ++ LF1 ++ "# b" ++ LF1 ++ "c #" ++ LF1 ++ LF1 ++ "## d".
Proof. reflexivity. Qed.

Example tightenLists_example :
  tightenLists Scan
    ("a" ++ LF1 ++ LF1 ++ "  " ++ LF1 ++ LF1 ++ "- b" ++ LF1 ++ LF1 ++ "c")
  = "a" ++ LF1 ++ "  " ++ LF1 ++ LF1 ++ "- b" ++ LF1 ++ LF1 ++ "c".
Proof. reflexivity. Qed.

Example removeEmptyLinks_example :
  removeEmptyLinks false "x[](a b)y[z](c)[](d"
  = "xy[z](c)[](d".
Proof. reflexivity. Qed.

Example collapseSpaces_example :
  collapseSpaces false "a   b c  " = "a b c ".
Proof. reflexivity. Qed.

Example cleanup_example :
  cleanup ("  # T" ++ LF1 ++ LF1 ++ LF1 ++ "x  y" ++ LF1 ++ LF1 ++ "- i" ++ LF1)
  = "# T" ++ LF1 ++ LF1 ++ "x y" ++ LF1 ++ "- i".
Proof. reflexivity. Qed.

(** *** Each step leaves a string of its shape as it is *)

Lemma collapseNewlines_fixed (s : string) (k : nat) :
  noTriple k s = true -> collapseNewlines k s = s.
Proof.
  revert k; induction s as [|c s IH]; intros k; simpl; [reflexivity|].
  destruct (isLF c).
  - intros Hs. apply andb_prop in Hs as [-> Hs]. now rewrite IH.
  - intros Hs. now rewrite IH.
Qed.

Lemma trimStart_fixed (s : string) :
  firstIs isWhiteSpace s = false -> trimStart s = s.
Proof. destruct s as [|c s]; simpl; [reflexivity | now intros ->]. Qed.

Lemma trimEnd_fixed (s : string) :
  match lastChar s with
  | Some c => isWhiteSpace c = false
  | None => True
  end -> trimEnd s = s.
Proof.
  induction s as [|c s IH]; simpl; [reflexivity|].
  destruct (lastChar s) as [d|] eqn:Hlast.
  - intros Hd. rewrite (IH Hd). destruct s; [discriminate Hlast|reflexivity].
  - destruct s as [|c' s]; [|simpl in Hlast; now destruct (lastChar s)].
    simpl. now intros ->.
Qed.

Lemma trim_fixed (s : string) : trimmed s = true -> trim s = s.
Proof.
  unfold trimmed, trim. intros Hs. apply andb_prop in Hs as [Hfirst Hlast].
  apply negb_true_iff in Hfirst. rewrite (trimStart_fixed _ Hfirst).
  apply trimEnd_fixed. destruct (lastChar s); [|exact I].
  now apply negb_true_iff.
Qed.

Lemma spaceHeaders_fixed (s : string) :
  (headersSpaced false s = true -> spaceHeaders Idle s = s) /\
  (headersSpaced true s = true -> hashAfterNewlines s = false ->
   spaceHeaders Copying s = s) /\
  (forall b, headersSpaced b s = true -> firstIs (Ascii.eqb "#") s = true ->
             spaceHeaders Dropping s = s) /\
  (headersSpaced true s = true -> startsLFHash s = true ->
   String LF (spaceHeaders Dropping s) = s).
Proof.
  induction s as [|c s (IHidle & IHcopy & IHhash & IHdrop)]; simpl.
  - repeat split; intros; discriminate.
  - destruct (isLF c) eqn:Hc.
    + pose proof (isLF_eq c Hc) as ->. simpl.
      repeat split.
      * intros Hs. apply andb_prop in Hs as [Hrun Hs].
        destruct (hashAfterNewlines s) eqn:Hhash.
        -- simpl in Hrun. now rewrite (IHdrop Hs Hrun).
        -- now rewrite (IHcopy Hs eq_refl).
      * intros Hs Hhash. now rewrite (IHcopy Hs Hhash).
      * intros b _ Hfirst. discriminate Hfirst.
      * intros Hs Hstart.
        destruct s as [|d s]; [discriminate Hstart|].
        rewrite (IHhash true Hs); [reflexivity|].
        cbn [firstIs]. now rewrite Ascii.eqb_sym.
    + repeat split.
      * intros Hs. now rewrite (IHidle Hs).
      * intros Hs _. now rewrite (IHidle Hs).
      * intros b Hs _. now rewrite (IHidle Hs).
      * intros _ Hstart. destruct s; discriminate Hstart.
Qed.

Lemma tightenLists_fixed (s : string) :
  (listsTight false s = true -> tightenLists Scan s = s) /\
  (listsTight true s = true -> tightenLists Group s = s) /\
  (listsTight true s = true -> firstIs isLF s = false ->
   tightenLists DropLF s = s).
Proof.
  induction s as [|c s (IHscan & IHgroup & IHdrop)]; simpl.
  - repeat split; reflexivity.
  - repeat split.
    + destruct (isLF c && markerAfterSpace s).
      * intros Hs. apply andb_prop in Hs as [Hfirst Hs].
        apply negb_true_iff in Hfirst. now rewrite (IHdrop Hs Hfirst).
      * intros Hs. now rewrite (IHscan Hs).
    + destruct (isWhiteSpace c); intros Hs;
        [now rewrite (IHgroup Hs) | now rewrite (IHscan Hs)].
    + intros Hs ->. destruct (isWhiteSpace c);
        [now rewrite (IHgroup Hs) | now rewrite (IHscan Hs)].
Qed.

Lemma linkFree_no_link_here (a : LinkState) (s : string) :
  linkFree a s = true -> emptyLinkAt s = false.
Proof.
  destruct s as [|c1 [|c2 [|c3 s]]]; try reflexivity.
  unfold emptyLinkAt. cbn [linkFree].
  destruct (Ascii.eqb_spec c1 "[") as [->|]; [|reflexivity].
  destruct (Ascii.eqb_spec c2 "]") as [->|]; [|reflexivity].
  destruct (Ascii.eqb_spec c3 "(") as [->|]; [|reflexivity].
  intros Hs. apply andb_prop in Hs as [_ Hs].
  apply andb_prop in Hs as [_ Hs]. apply andb_prop in Hs as [Hs _].
  apply negb_true_iff in Hs. exact Hs.
Qed.

Lemma removeEmptyLinks_fixed (s : string) (a : LinkState) :
  linkFree a s = true -> removeEmptyLinks false s = s.
Proof.
  revert a; induction s as [|c s IH]; intros a Hs; [reflexivity|].
  cbn [removeEmptyLinks]. rewrite (linkFree_no_link_here a _ Hs).
  simpl in Hs. apply andb_prop in Hs as [_ Hs]. now rewrite (IH _ Hs).
Qed.

Lemma collapseSpaces_fixed (s : string) (prev : bool) :
  singleSpaced prev s = true -> collapseSpaces prev s = s.
Proof.
  revert prev; induction s as [|c s IH]; intros prev; simpl; [reflexivity|].
  destruct (isSpace c).
  - intros Hs. apply andb_prop in Hs as [Hprev Hs].
    apply negb_true_iff in Hprev. subst prev. now rewrite IH.
  - intros Hs. now rewrite IH.
Qed.

(** *** What the scans of the steps look at survives the steps *)

Lemma linkStep_space (a : LinkState) (c : ascii) :
  isWhiteSpace c = true -> linkStep a c = NoBracket.
Proof.
  intros Hc. unfold linkStep.
  rewrite (whitespace_is_not "[" c), (whitespace_is_not "]" c) by easy.
  now destruct a.
Qed.

Lemma completesLink_space (a : LinkState) (c : ascii) (r : string) :
  isWhiteSpace c = true -> completesLink a c r = false.
Proof.
  intros Hc. unfold completesLink.
  rewrite (whitespace_is_not "(" c) by easy. now destruct a.
Qed.

Lemma close_is_not_space (c : ascii) :
  isWhiteSpace c = true -> Ascii.eqb c ")" = false.
Proof. intros Hc. now apply whitespace_is_not. Qed.

Lemma noTriple_fewer (s : string) (k k' : nat) :
  k' <= k -> noTriple k s = true -> noTriple k' s = true.
Proof.
  destruct s as [|c s]; [reflexivity|]. simpl. intros Hk.
  destruct (isLF c); [|trivial].
  intros Hs. apply andb_prop in Hs as [Hlt Hs].
  apply Nat.ltb_lt in Hlt.
  assert ((k' <? 2)%nat = true) as -> by (apply Nat.ltb_lt; lia). simpl.
  revert Hs. clear Hlt. revert k k' Hk.
  induction s as [|d s IH]; intros k k' Hk; [reflexivity|]. simpl.
  destruct (isLF d); [|trivial].
  intros Hs. apply andb_prop in Hs as [Hlt Hs].
  apply Nat.ltb_lt in Hlt.
  assert ((S k' <? 2)%nat = true) as -> by (apply Nat.ltb_lt; lia). simpl.
  apply (IH (S k) (S k')); [lia | exact Hs].
Qed.

(** *** Step 1: runs of LF *)

Lemma noTriple_collapseNewlines (s : string) (k : nat) :
  noTriple k (collapseNewlines k s) = true.
Proof.
  revert k; induction s as [|c s IH]; intros k; simpl; [reflexivity|].
  destruct (isLF c) eqn:Hc.
  - destruct (k <? 2)%nat eqn:Hk; [|apply IH].
    simpl. now rewrite Hc, Hk, IH.
  - simpl. now rewrite Hc, IH.
Qed.

Lemma hasClose_collapseNewlines (s : string) (k : nat) :
  hasClose (collapseNewlines k s) = hasClose s.
Proof.
  revert k; induction s as [|c s IH]; intros k; simpl; [reflexivity|].
  destruct (isLF c) eqn:Hc.
  - rewrite (close_is_not_space c (isLF_isWhiteSpace c Hc)). simpl.
    destruct (k <? 2)%nat; [|apply IH].
    simpl. now rewrite (close_is_not_space c (isLF_isWhiteSpace c Hc)), IH.
  - simpl. now rewrite IH.
Qed.

Lemma linkFree_collapseNewlines (s : string) (k : nat) (a : LinkState) :
  (1 <= k -> a = NoBracket) ->
  linkFree a s = true -> linkFree a (collapseNewlines k s) = true.
Proof.
  revert k a; induction s as [|c s IH]; intros k a Hk; [reflexivity|].
  cbn [linkFree collapseNewlines]. intros Hs.
  apply andb_prop in Hs as [Hhere Hs].
  destruct (isLF c) eqn:Hc.
  - pose proof (isLF_isWhiteSpace c Hc) as Hw.
    rewrite linkStep_space in Hs by exact Hw.
    destruct (k <? 2)%nat eqn:Hlt.
    + cbn [linkFree]. rewrite completesLink_space, linkStep_space by exact Hw.
      simpl. now apply IH.
    + apply Nat.ltb_ge in Hlt. rewrite Hk by lia. now apply IH.
  - cbn [linkFree]. unfold completesLink in *.
    rewrite hasClose_collapseNewlines, Hhere. simpl.
    apply IH; [intros Hk0; inversion Hk0 | exact Hs].
Qed.

(** *** Step 2: the ends *)

Lemma lastChar_trimEnd (s : string) :
  match lastChar (trimEnd s) with
  | Some c => isWhiteSpace c = false
  | None => True
  end.
Proof.
  induction s as [|c s IH]; simpl; [exact I|].
  destruct (trimEnd s) as [|d t] eqn:Ht.
  - destruct (isWhiteSpace c) eqn:Hc; simpl; [exact I | exact Hc].
  - cbn [lastChar] in *. now destruct (lastChar t).
Qed.

Lemma firstIs_trimEnd (s : string) :
  firstIs isWhiteSpace s = false -> firstIs isWhiteSpace (trimEnd s) = false.
Proof.
  destruct s as [|c s]; simpl; [reflexivity|].
  intros Hc. rewrite Hc. now destruct (trimEnd s).
Qed.

Lemma firstIs_trimStart (s : string) :
  firstIs isWhiteSpace (trimStart s) = false.
Proof.
  induction s as [|c s IH]; simpl; [reflexivity|].
  destruct (isWhiteSpace c) eqn:Hc; [exact IH | simpl; exact Hc].
Qed.

Lemma trimmed_trim (s : string) : trimmed (trim s) = true.
Proof.
  unfold trimmed, trim.
  rewrite firstIs_trimEnd by apply firstIs_trimStart. simpl.
  pose proof (lastChar_trimEnd (trimStart s)) as Hlast.
  destruct (lastChar (trimEnd (trimStart s))); [now rewrite Hlast | reflexivity].
Qed.

Lemma noTriple_trimStart (s : string) (k : nat) :
  noTriple k s = true -> noTriple 0 (trimStart s) = true.
Proof.
  revert k; induction s as [|c s IH]; intros k; simpl; [reflexivity|].
  destruct (isWhiteSpace c) eqn:Hw.
  - destruct (isLF c).
    + intros Hs. apply andb_prop in Hs as [_ Hs]. now apply (IH (S k)).
    + apply IH.
  - destruct (isLF c) eqn:Hc.
    + now rewrite (isLF_isWhiteSpace c Hc) in Hw.
    + simpl. now rewrite Hc.
Qed.

Lemma noTriple_trimEnd (s : string) (k : nat) :
  noTriple k s = true -> noTriple k (trimEnd s) = true.
Proof.
  revert k; induction s as [|c s IH]; intros k; simpl; [reflexivity|].
  destruct (isLF c) eqn:Hc.
  - intros Hs. apply andb_prop in Hs as [Hk Hs]. specialize (IH _ Hs).
    destruct (trimEnd s) as [|d t].
    + now rewrite (isLF_isWhiteSpace c Hc).
    + cbn [noTriple]. rewrite Hc, Hk. exact IH.
  - intros Hs. specialize (IH _ Hs).
    destruct (trimEnd s) as [|d t].
    + destruct (isWhiteSpace c); [reflexivity|]. simpl. now rewrite Hc.
    + cbn [noTriple]. rewrite Hc. exact IH.
Qed.

Lemma noTriple_trim (s : string) :
  noTriple 0 s = true -> noTriple 0 (trim s) = true.
Proof.
  intros Hs. unfold trim. apply noTriple_trimEnd.
  now apply (noTriple_trimStart s 0).
Qed.

Lemma hasClose_trimEnd (s : string) : hasClose (trimEnd s) = hasClose s.
Proof.
  induction s as [|c s IH]; simpl; [reflexivity|].
  destruct (trimEnd s) as [|d t].
  - rewrite <- IH. simpl. rewrite orb_false_r.
    destruct (isWhiteSpace c) eqn:Hc; simpl.
    + now rewrite close_is_not_space.
    + now rewrite orb_false_r.
  - cbn [hasClose] in *. now rewrite IH.
Qed.

Lemma linkFree_trimStart (s : string) :
  linkFree NoBracket s = true -> linkFree NoBracket (trimStart s) = true.
Proof.
  induction s as [|c s IH]; simpl; [reflexivity|].
  destruct (isWhiteSpace c) eqn:Hc; [|trivial].
  rewrite linkStep_space by exact Hc. intros Hs. now apply IH.
Qed.

Lemma linkFree_trimEnd (s : string) (a : LinkState) :
  linkFree a s = true -> linkFree a (trimEnd s) = true.
Proof.
  revert a; induction s as [|c s IH]; intros a; [reflexivity|].
  cbn [linkFree trimEnd]. intros Hs. apply andb_prop in Hs as [Hhere Hs].
  specialize (IH _ Hs). pose proof (hasClose_trimEnd s) as Hclose.
  destruct (trimEnd s) as [|d t].
  - destruct (isWhiteSpace c); [reflexivity|].
    cbn [linkFree]. unfold completesLink. simpl.
    rewrite andb_false_r. now destruct a.
  - cbn [linkFree] in *. unfold completesLink in *.
    rewrite Hclose, Hhere. exact IH.
Qed.

Lemma linkFree_trim (s : string) :
  linkFree NoBracket s = true -> linkFree NoBracket (trim s) = true.
Proof.
  intros Hs. unfold trim. now apply linkFree_trimEnd, linkFree_trimStart.
Qed.

(** *** Step 3: headings *)

Lemma hash_spaceHeaders (s : string) (m : RunMode) :
  hashAfterNewlines (spaceHeaders m s) = hashAfterNewlines s.
Proof.
  revert m; induction s as [|c s IH]; intros m; simpl; [reflexivity|].
  destruct (isLF c) eqn:Hc.
  - destruct m.
    + destruct (hashAfterNewlines s) eqn:Hs; simpl.
      * now rewrite IH.
      * now rewrite Hc, IH.
    + apply IH.
    + simpl. now rewrite Hc, IH.
  - simpl. now rewrite Hc.
Qed.

Lemma hash_first_dropped (s : string) :
  hashAfterNewlines s = true ->
  firstIs (Ascii.eqb "#") (spaceHeaders Dropping s) = true.
Proof.
  induction s as [|c s IH]; simpl; [discriminate|].
  destruct (isLF c); [exact IH | trivial].
Qed.

Lemma headersSpaced_after_drop (s : string) (b : bool) :
  headersSpaced b (spaceHeaders Dropping s)
  = headersSpaced false (spaceHeaders Dropping s).
Proof.
  induction s as [|c s IH]; simpl; [reflexivity|].
  destruct (isLF c) eqn:Hc; [exact IH|]. simpl. now rewrite Hc.
Qed.

Lemma headersSpaced_spaceHeaders (s : string) :
  headersSpaced false (spaceHeaders Idle s) = true /\
  headersSpaced true (spaceHeaders Copying s) = true /\
  headersSpaced false (spaceHeaders Dropping s) = true.
Proof.
  induction s as [|c s (IHidle & IHcopy & IHdrop)]; simpl;
    [repeat split; reflexivity|].
  destruct (isLF c) eqn:Hc.
  - repeat split.
    + destruct (hashAfterNewlines s) eqn:Hhash.
      * pose proof (hash_first_dropped s Hhash) as Hfirst.
        cbn [headersSpaced hashAfterNewlines startsLFHash].
        change (isLF LF) with true. cbv iota.
        rewrite headersSpaced_after_drop, IHdrop.
        destruct (spaceHeaders Dropping s) as [|d t]; [discriminate Hfirst|].
        cbn [firstIs] in Hfirst. rewrite Ascii.eqb_sym in Hfirst.
        rewrite Hfirst. now rewrite !orb_true_r.
      * cbn [headersSpaced]. rewrite Hc, hash_spaceHeaders, Hhash, IHcopy.
        reflexivity.
    + cbn [headersSpaced]. now rewrite Hc, IHcopy.
    + exact IHdrop.
  - simpl. rewrite Hc. repeat split; exact IHidle.
Qed.

Lemma noTriple_spaceHeaders (s : string) :
  (noTriple 0 s = true -> noTriple 0 (spaceHeaders Idle s) = true) /\
  (forall k, noTriple k s = true ->
             noTriple k (spaceHeaders Copying s) = true) /\
  (forall k, noTriple k s = true ->
             noTriple 2 (spaceHeaders Dropping s) = true).
Proof.
  induction s as [|c s (IHidle & IHcopy & IHdrop)]; simpl;
    [repeat split; reflexivity|].
  destruct (isLF c) eqn:Hc.
  - repeat split.
    + intros Hs. destruct (hashAfterNewlines s).
      * simpl. now apply (IHdrop 1).
      * simpl. rewrite Hc. now apply IHcopy.
    + intros k Hs. apply andb_prop in Hs as [Hk Hs].
      simpl. rewrite Hc, Hk. now apply IHcopy.
    + intros k Hs. apply andb_prop in Hs as [_ Hs]. now apply (IHdrop (S k)).
  - simpl. rewrite Hc. repeat split; intros; now apply IHidle.
Qed.

Lemma lastChar_cons (c d : ascii) (s : string) :
  lastChar s = Some d -> lastChar (String c s) = Some d.
Proof. simpl. now intros ->. Qed.

Lemma lastChar_spaceHeaders (s : string) (m : RunMode) (d : ascii) :
  lastChar s = Some d -> isLF d = false ->
  lastChar (spaceHeaders m s) = Some d.
Proof.
  intros Hlast Hd. revert m Hlast.
  induction s as [|c s IH]; intros m; [discriminate|].
  cbn [lastChar]. destruct (lastChar s) as [e|] eqn:Hs.
  - intros [= ->]. cbn [spaceHeaders].
    destruct (isLF c); [destruct m; [destruct (hashAfterNewlines s)| |]|];
      repeat apply lastChar_cons; now apply IH.
  - intros [= ->]. destruct s; [|simpl in Hs; now destruct (lastChar s)].
    simpl. now rewrite Hd.
Qed.

Lemma firstIs_spaceHeaders (s : string) :
  firstIs isWhiteSpace s = false ->
  firstIs isWhiteSpace (spaceHeaders Idle s) = false.
Proof.
  destruct s as [|c s]; simpl; [reflexivity|].
  intros Hc. destruct (isLF c) eqn:Hlf.
  - now rewrite (isLF_isWhiteSpace c Hlf) in Hc.
  - exact Hc.
Qed.

Lemma trimmed_spaceHeaders (s : string) :
  trimmed s = true -> trimmed (spaceHeaders Idle s) = true.
Proof.
  unfold trimmed. intros Hs. apply andb_prop in Hs as [Hfirst Hlast].
  apply negb_true_iff in Hfirst.
  rewrite firstIs_spaceHeaders by exact Hfirst. simpl.
  destruct (lastChar s) as [d|] eqn:Hd.
  - rewrite (lastChar_spaceHeaders s Idle d Hd); [exact Hlast|].
    apply negb_true_iff in Hlast.
    destruct (isLF d) eqn:Hlf; [|reflexivity].
    now rewrite (isLF_isWhiteSpace d Hlf) in Hlast.
  - destruct s; [reflexivity | simpl in Hd; now destruct (lastChar s)].
Qed.

Lemma hasClose_spaceHeaders (s : string) (m : RunMode) :
  hasClose (spaceHeaders m s) = hasClose s.
Proof.
  revert m; induction s as [|c s IH]; intros m; simpl; [reflexivity|].
  destruct (isLF c) eqn:Hc.
  - rewrite (close_is_not_space c (isLF_isWhiteSpace c Hc)). simpl.
    destruct m; [destruct (hashAfterNewlines s)| |]; simpl;
      rewrite ?(close_is_not_space c (isLF_isWhiteSpace c Hc)); apply IH.
  - simpl. now rewrite IH.
Qed.

Lemma linkFree_spaceHeaders (s : string) :
  (forall a, linkFree a s = true -> linkFree a (spaceHeaders Idle s) = true) /\
  (linkFree NoBracket s = true ->
   linkFree NoBracket (spaceHeaders Copying s) = true) /\
  (linkFree NoBracket s = true ->
   linkFree NoBracket (spaceHeaders Dropping s) = true).
Proof.
  induction s as [|c s (IHidle & IHcopy & IHdrop)];
    [repeat split; reflexivity|].
  cbn [spaceHeaders linkFree].
  destruct (isLF c) eqn:Hc.
  - pose proof (isLF_isWhiteSpace c Hc) as Hw.
    assert (HLF : isWhiteSpace LF = true) by reflexivity.
    repeat split.
    + intros a Hs. apply andb_prop in Hs as [_ Hs].
      rewrite linkStep_space in Hs by exact Hw.
      destruct (hashAfterNewlines s); cbn [linkFree];
        rewrite ?completesLink_space, ?linkStep_space by assumption;
        simpl; auto.
    + intros Hs. apply andb_prop in Hs as [_ Hs].
      rewrite linkStep_space in Hs by exact Hw.
      cbn [linkFree].
      rewrite completesLink_space, linkStep_space by assumption. auto.
    + intros Hs. apply andb_prop in Hs as [_ Hs].
      rewrite linkStep_space in Hs by exact Hw. auto.
  - repeat split.
    + intros a Hs. apply andb_prop in Hs as [Hhere Hs].
      cbn [linkFree]. unfold completesLink in *.
      rewrite hasClose_spaceHeaders, Hhere. simpl. auto.
    + intros Hs. apply andb_prop in Hs as [_ Hs]. simpl. auto.
    + intros Hs. apply andb_prop in Hs as [_ Hs]. simpl. auto.
Qed.

(** *** Step 4: list items *)

Lemma marker_is_no_hash (s : string) :
  markerAfterSpace s = true -> hashAfterNewlines s = false.
Proof.
  induction s as [|c s IH]; simpl; [reflexivity|].
  destruct (isLF c) eqn:Hc.
  - now rewrite (isLF_isWhiteSpace c Hc).
  - destruct (isWhiteSpace c) eqn:Hw.
    + intros _. now apply whitespace_is_not.
    + intros Hm. destruct (Ascii.eqb_spec c "#") as [->|]; [|reflexivity].
      discriminate Hm.
Qed.

Lemma marker_tightenLists (s : string) (m : ListMode) :
  markerAfterSpace (tightenLists m s) = markerAfterSpace s.
Proof.
  revert m; induction s as [|c s IH]; intros m; simpl; [reflexivity|].
  destruct m.
  - destruct (isLF c && markerAfterSpace s); simpl; now rewrite IH.
  - destruct (isLF c) eqn:Hc.
    + now rewrite (isLF_isWhiteSpace c Hc), IH.
    + destruct (isWhiteSpace c) eqn:Hw; simpl; now rewrite Hw, ?IH.
  - destruct (isWhiteSpace c) eqn:Hw; simpl; now rewrite Hw, ?IH.
Qed.

Lemma hash_tightenLists (s : string) (m : ListMode) :
  hashAfterNewlines (tightenLists m s) = hashAfterNewlines s.
Proof.
  revert m; induction s as [|c s IH]; intros m; simpl; [reflexivity|].
  destruct m.
  - destruct (isLF c && markerAfterSpace s); simpl; now rewrite IH.
  - destruct (isLF c) eqn:Hc; [apply IH|].
    destruct (isWhiteSpace c); simpl; now rewrite Hc.
  - destruct (isWhiteSpace c); simpl; now rewrite IH.
Qed.

Lemma firstIs_dropLF (s : string) :
  firstIs isLF (tightenLists DropLF s) = false.
Proof.
  induction s as [|c s IH]; simpl; [reflexivity|].
  destruct (isLF c) eqn:Hc; [exact IH|].
  destruct (isWhiteSpace c); simpl; exact Hc.
Qed.

Lemma listsTight_tightenLists (s : string) :
  listsTight false (tightenLists Scan s) = true /\
  listsTight true (tightenLists Group s) = true /\
  listsTight true (tightenLists DropLF s) = true.
Proof.
  induction s as [|c s (IHscan & IHgroup & IHdrop)]; simpl;
    [repeat split; reflexivity|].
  repeat split.
  - destruct (isLF c && markerAfterSpace s) eqn:Hm; cbn [listsTight];
      rewrite marker_tightenLists, Hm; [|exact IHscan].
    now rewrite firstIs_dropLF, IHdrop.
  - destruct (isWhiteSpace c) eqn:Hw; cbn [listsTight]; now rewrite Hw.
  - destruct (isLF c); [exact IHdrop|].
    destruct (isWhiteSpace c) eqn:Hw; cbn [listsTight]; now rewrite Hw.
Qed.

Lemma noTriple_tightenLists (s : string) :
  (forall k, noTriple k s = true -> noTriple k (tightenLists Scan s) = true) /\
  (forall k, noTriple k s = true ->
             noTriple k (tightenLists Group s) = true) /\
  (forall k k', noTriple k s = true ->
                noTriple k' (tightenLists DropLF s) = true).
Proof.
  induction s as [|c s (IHscan & IHgroup & IHdrop)]; simpl;
    [repeat split; reflexivity|].
  repeat split.
  - intros k Hs. destruct (isLF c) eqn:Hc.
    + apply andb_prop in Hs as [Hk Hs].
      destruct (markerAfterSpace s); simpl; rewrite Hc, Hk; simpl;
        [now apply (IHdrop (S k)) | now apply IHscan].
    + simpl. rewrite Hc. now apply IHscan.
  - intros k Hs. destruct (isLF c) eqn:Hc.
    + apply andb_prop in Hs as [Hk Hs].
      rewrite (isLF_isWhiteSpace c Hc). simpl. rewrite Hc, Hk.
      now apply IHgroup.
    + destruct (isWhiteSpace c); simpl; rewrite Hc; auto.
  - intros k k' Hs. destruct (isLF c) eqn:Hc.
    + apply andb_prop in Hs as [_ Hs]. now apply (IHdrop (S k)).
    + destruct (isWhiteSpace c); simpl; rewrite Hc; auto.
Qed.

Lemma lastChar_tightenLists (s : string) (m : ListMode) (d : ascii) :
  lastChar s = Some d -> isLF d = false ->
  lastChar (tightenLists m s) = Some d.
Proof.
  intros Hlast Hd. revert m Hlast.
  induction s as [|c s IH]; intros m; [discriminate|].
  cbn [lastChar]. destruct (lastChar s) as [e|] eqn:Hs.
  - intros [= ->]. cbn [tightenLists].
    destruct m; [destruct (isLF c && markerAfterSpace s)
                | destruct (isLF c); [|destruct (isWhiteSpace c)]
                | destruct (isWhiteSpace c)];
      repeat apply lastChar_cons; now apply IH.
  - intros [= ->]. destruct s; [|simpl in Hs; now destruct (lastChar s)].
    simpl. rewrite Hd.
    destruct m; simpl; try reflexivity; now destruct (isWhiteSpace d).
Qed.

Lemma trimmed_tightenLists (s : string) :
  trimmed s = true -> trimmed (tightenLists Scan s) = true.
Proof.
  unfold trimmed. intros Hs. apply andb_prop in Hs as [Hfirst Hlast].
  assert (Hfirst' : firstIs isWhiteSpace (tightenLists Scan s) = false).
  { apply negb_true_iff in Hfirst. destruct s as [|c s]; [reflexivity|].
    simpl in *. now destruct (isLF c && markerAfterSpace s). }
  rewrite Hfirst'. simpl.
  destruct (lastChar s) as [d|] eqn:Hd.
  - rewrite (lastChar_tightenLists s Scan d Hd); [exact Hlast|].
    apply negb_true_iff in Hlast.
    destruct (isLF d) eqn:Hlf; [|reflexivity].
    now rewrite (isLF_isWhiteSpace d Hlf) in Hlast.
  - destruct s; [reflexivity | simpl in Hd; now destruct (lastChar s)].
Qed.

Lemma startsLFHash_tightenLists (s : string) (m : ListMode) :
  m <> DropLF -> startsLFHash s = true ->
  startsLFHash (tightenLists m s) = true.
Proof.
  intros Hm. destruct s as [|a [|b s]]; try discriminate.
  cbn [startsLFHash]. intros Hs. apply andb_prop in Hs as [Ha Hb].
  apply Ascii.eqb_eq in Hb. subst b.
  pose proof (isLF_isWhiteSpace a Ha) as Hw.
  destruct m; [| now elim Hm |]; simpl; rewrite ?Ha, ?Hw; simpl;
    now rewrite Ha.
Qed.

Lemma headersSpaced_tightenLists (s : string) :
  (forall b, headersSpaced b s = true ->
             headersSpaced b (tightenLists Scan s) = true) /\
  (forall b, headersSpaced b s = true ->
             headersSpaced b (tightenLists Group s) = true) /\
  (headersSpaced true s = true ->
   headersSpaced true (tightenLists DropLF s) = true).
Proof.
  induction s as [|c s (IHscan & IHgroup & IHdrop)]; simpl;
    [repeat split; reflexivity|].
  repeat split.
  - intros b Hs. destruct (isLF c) eqn:Hc.
    + apply andb_prop in Hs as [Hrun Hs].
      destruct (markerAfterSpace s) eqn:Hm; cbn [andb headersSpaced];
        rewrite Hc, hash_tightenLists.
      * rewrite (marker_is_no_hash s Hm). rewrite orb_true_r. simpl. auto.
      * rewrite IHscan by exact Hs. rewrite andb_true_r.
        destruct b; [reflexivity|]. simpl in *.
        destruct (hashAfterNewlines s); [|reflexivity]. simpl in *.
        apply startsLFHash_tightenLists; [discriminate | exact Hrun].
    + simpl. rewrite Hc. auto.
  - intros b Hs. destruct (isLF c) eqn:Hc.
    + apply andb_prop in Hs as [Hrun Hs].
      rewrite (isLF_isWhiteSpace c Hc). cbn [headersSpaced].
      rewrite Hc, hash_tightenLists.
      rewrite IHgroup by exact Hs. rewrite andb_true_r.
      destruct b; [reflexivity|]. simpl in *.
      destruct (hashAfterNewlines s); [|reflexivity]. simpl in *.
      apply startsLFHash_tightenLists; [discriminate | exact Hrun].
    + destruct (isWhiteSpace c); simpl; rewrite Hc; auto.
  - intros Hs. destruct (isLF c) eqn:Hc.
    + auto.
    + destruct (isWhiteSpace c); simpl; rewrite Hc; auto.
Qed.

Lemma hasClose_tightenLists (s : string) (m : ListMode) :
  hasClose (tightenLists m s) = hasClose s.
Proof.
  revert m; induction s as [|c s IH]; intros m; simpl; [reflexivity|].
  destruct m.
  - destruct (isLF c && markerAfterSpace s); simpl; now rewrite IH.
  - destruct (isLF c) eqn:Hc.
    + now rewrite (close_is_not_space c (isLF_isWhiteSpace c Hc)), IH.
    + destruct (isWhiteSpace c); simpl; now rewrite IH.
  - destruct (isWhiteSpace c); simpl; now rewrite IH.
Qed.

Lemma linkFree_tightenLists (s : string) :
  (forall a, linkFree a s = true ->
             linkFree a (tightenLists Scan s) = true) /\
  (forall a, linkFree a s = true ->
             linkFree a (tightenLists Group s) = true) /\
  (linkFree NoBracket s = true ->
   linkFree NoBracket (tightenLists DropLF s) = true).
Proof.
  induction s as [|c s (IHscan & IHgroup & IHdrop)];
    [repeat split; reflexivity|].
  cbn [tightenLists linkFree].
  repeat split.
  - intros a Hs. apply andb_prop in Hs as [Hhere Hs].
    destruct (isLF c) eqn:Hc.
    + pose proof (isLF_isWhiteSpace c Hc) as Hw.
      rewrite linkStep_space in Hs by exact Hw.
      destruct (markerAfterSpace s); cbn [andb linkFree];
        rewrite completesLink_space, linkStep_space by exact Hw; simpl; auto.
    + cbn [andb linkFree]. unfold completesLink in *.
      rewrite hasClose_tightenLists, Hhere. simpl. auto.
  - intros a Hs. apply andb_prop in Hs as [Hhere Hs].
    destruct (isWhiteSpace c) eqn:Hw; cbn [linkFree]; unfold completesLink in *;
      rewrite hasClose_tightenLists, Hhere; simpl; auto.
  - intros Hs. apply andb_prop in Hs as [Hhere Hs].
    destruct (isLF c) eqn:Hc.
    + rewrite linkStep_space in Hs by now apply isLF_isWhiteSpace. auto.
    + destruct (isWhiteSpace c) eqn:Hw; simpl; auto.
Qed.

(** *** Step 6: runs of spaces *)

Lemma marker_collapseSpaces (s : string) (prev : bool) :
  markerAfterSpace (collapseSpaces prev s) = markerAfterSpace s.
Proof.
  revert prev; induction s as [|c s IH]; intros prev; simpl; [reflexivity|].
  destruct (isSpace c) eqn:Hc.
  - rewrite (isSpace_isWhiteSpace c Hc).
    destruct prev; [apply IH|]. simpl.
    now rewrite (isSpace_isWhiteSpace c Hc), IH.
  - simpl. now rewrite IH.
Qed.

Lemma first_collapseSpaces (s : string) (f : ascii -> bool) :
  firstIs f (collapseSpaces false s) = firstIs f s.
Proof. destruct s as [|c s]; simpl; [reflexivity|]. now destruct (isSpace c). Qed.

Lemma hash_collapseSpaces (s : string) :
  hashAfterNewlines (collapseSpaces false s) = hashAfterNewlines s.
Proof.
  induction s as [|c s IH]; simpl; [reflexivity|].
  destruct (isSpace c) eqn:Hc; simpl.
  - now rewrite (isSpace_not_LF c Hc).
  - now rewrite IH.
Qed.

Lemma startsLFHash_collapseSpaces (s : string) :
  startsLFHash s = true -> startsLFHash (collapseSpaces false s) = true.
Proof.
  destruct s as [|a [|b s]]; try discriminate.
  cbn [startsLFHash]. intros Hs. apply andb_prop in Hs as [Ha Hb].
  apply Ascii.eqb_eq in Hb. subst b.
  cbn [collapseSpaces]. destruct (isSpace a) eqn:Hsp.
  - now rewrite (isSpace_not_LF a Hsp) in Ha.
  - simpl. now rewrite Ha.
Qed.

Lemma singleSpaced_collapseSpaces (s : string) (prev : bool) :
  singleSpaced prev (collapseSpaces prev s) = true.
Proof.
  revert prev; induction s as [|c s IH]; intros prev; simpl; [reflexivity|].
  destruct (isSpace c) eqn:Hc.
  - destruct prev; [apply IH|]. simpl. now rewrite Hc, IH.
  - simpl. now rewrite Hc, IH.
Qed.

Lemma noTriple_collapseSpaces (s : string) (prev : bool) (k : nat) :
  (prev = true -> k = 0) ->
  noTriple k s = true -> noTriple k (collapseSpaces prev s) = true.
Proof.
  revert prev k; induction s as [|c s IH]; intros prev k Hk;
    [reflexivity|].
  cbn [noTriple collapseSpaces].
  destruct (isSpace c) eqn:Hc.
  - rewrite (isSpace_not_LF c Hc). intros Hs.
    destruct prev.
    + rewrite Hk by reflexivity. now apply IH.
    + cbn [noTriple]. rewrite (isSpace_not_LF c Hc). now apply IH.
  - cbn [noTriple]. destruct (isLF c).
    + intros Hs. apply andb_prop in Hs as [-> Hs]. simpl.
      apply IH; [discriminate | exact Hs].
    + intros Hs. apply IH; [discriminate | exact Hs].
Qed.

Lemma lastChar_collapseSpaces (s : string) (prev : bool) (d : ascii) :
  lastChar s = Some d -> isSpace d = false ->
  lastChar (collapseSpaces prev s) = Some d.
Proof.
  intros Hlast Hd. revert prev Hlast.
  induction s as [|c s IH]; intros prev; [discriminate|].
  cbn [lastChar]. destruct (lastChar s) as [e|] eqn:Hs.
  - intros [= ->]. cbn [collapseSpaces].
    destruct (isSpace c); [destruct prev|];
      repeat apply lastChar_cons; now apply IH.
  - intros [= ->]. destruct s; [|simpl in Hs; now destruct (lastChar s)].
    simpl. now rewrite Hd.
Qed.

Lemma trimmed_collapseSpaces (s : string) :
  trimmed s = true -> trimmed (collapseSpaces false s) = true.
Proof.
  unfold trimmed. intros Hs. apply andb_prop in Hs as [Hfirst Hlast].
  rewrite first_collapseSpaces, Hfirst. simpl.
  destruct (lastChar s) as [d|] eqn:Hd.
  - rewrite (lastChar_collapseSpaces s false d Hd); [exact Hlast|].
    apply negb_true_iff in Hlast.
    destruct (isSpace d) eqn:Hsp; [|reflexivity].
    now rewrite (isSpace_isWhiteSpace d Hsp) in Hlast.
  - destruct s; [reflexivity | simpl in Hd; now destruct (lastChar s)].
Qed.

Lemma headersSpaced_collapseSpaces (s : string) (prev b : bool) :
  (prev = true -> b = false) ->
  headersSpaced b s = true ->
  headersSpaced b (collapseSpaces prev s) = true.
Proof.
  revert prev b; induction s as [|c s IH]; intros prev b Hb;
    [reflexivity|].
  cbn [headersSpaced collapseSpaces].
  destruct (isSpace c) eqn:Hc.
  - rewrite (isSpace_not_LF c Hc). intros Hs.
    destruct prev.
    + rewrite Hb by reflexivity. now apply IH.
    + cbn [headersSpaced]. rewrite (isSpace_not_LF c Hc). now apply IH.
  - cbn [headersSpaced]. destruct (isLF c).
    + intros Hs. apply andb_prop in Hs as [Hrun Hs].
      rewrite IH by (discriminate || exact Hs). rewrite andb_true_r.
      rewrite hash_collapseSpaces.
      destruct b; [reflexivity|]. simpl in *.
      destruct (hashAfterNewlines s); [|reflexivity]. simpl in *.
      now apply startsLFHash_collapseSpaces.
    + intros Hs. apply IH; [discriminate | exact Hs].
Qed.

Lemma listsTight_collapseSpaces (s : string) (prev g : bool) :
  listsTight g s = true -> listsTight g (collapseSpaces prev s) = true.
Proof.
  revert prev g; induction s as [|c s IH]; intros prev g; [reflexivity|].
  cbn [listsTight collapseSpaces].
  destruct (isSpace c) eqn:Hc.
  - rewrite (isSpace_isWhiteSpace c Hc), (isSpace_not_LF c Hc). simpl.
    replace (if g then listsTight true s else listsTight false s)
      with (listsTight g s) by now destruct g.
    intros Hs. destruct prev; [now apply IH|].
    cbn [listsTight].
    rewrite (isSpace_isWhiteSpace c Hc), (isSpace_not_LF c Hc). simpl.
    destruct g; now apply IH.
  - cbn [listsTight]. rewrite marker_collapseSpaces, first_collapseSpaces.
    destruct g.
    + destruct (isWhiteSpace c); apply IH.
    + destruct (isLF c && markerAfterSpace s); [|apply IH].
      intros Hs. apply andb_prop in Hs as [-> Hs]. now rewrite IH.
Qed.

Lemma hasClose_collapseSpaces (s : string) (prev : bool) :
  hasClose (collapseSpaces prev s) = hasClose s.
Proof.
  revert prev; induction s as [|c s IH]; intros prev; simpl; [reflexivity|].
  destruct (isSpace c) eqn:Hc.
  - rewrite (close_is_not_space c (isSpace_isWhiteSpace c Hc)). simpl.
    destruct prev; [apply IH|]. simpl.
    now rewrite (close_is_not_space c (isSpace_isWhiteSpace c Hc)), IH.
  - simpl. now rewrite IH.
Qed.

Lemma linkFree_collapseSpaces (s : string) (prev : bool) (a : LinkState) :
  (prev = true -> a = NoBracket) ->
  linkFree a s = true -> linkFree a (collapseSpaces prev s) = true.
Proof.
  revert prev a; induction s as [|c s IH]; intros prev a Ha; [reflexivity|].
  cbn [linkFree collapseSpaces]. intros Hs.
  apply andb_prop in Hs as [Hhere Hs].
  destruct (isSpace c) eqn:Hc.
  - pose proof (isSpace_isWhiteSpace c Hc) as Hw.
    rewrite linkStep_space in Hs by exact Hw.
    destruct prev.
    + rewrite Ha by reflexivity. now apply IH.
    + cbn [linkFree]. rewrite completesLink_space, linkStep_space by exact Hw.
      simpl. now apply IH.
  - cbn [linkFree]. unfold completesLink in *.
    rewrite hasClose_collapseSpaces, Hhere. simpl.
    apply IH; [discriminate | exact Hs].
Qed.

(** *** The cut *)

Lemma cut_nil (n : nat) : cut n EmptyString = "...".
Proof. now destruct n. Qed.

Lemma cut_cons (n : nat) (c : ascii) (s : string) :
  cut (S n) (String c s) = String c (cut n s).
Proof. reflexivity. Qed.

Lemma cut_cases (P : nat -> string -> Prop) :
  (forall n s, cut n s = "..." -> P n s) ->
  (forall n c s, P n s -> P (S n) (String c s)) ->
  forall n s, P n s.
Proof.
  intros Hend Hcons. induction n as [|n IH]; intros s.
  - apply Hend. unfold cut. now destruct s.
  - destruct s as [|c s]; [apply Hend; reflexivity | apply Hcons, IH].
Qed.

Lemma hash_cut (n : nat) (s : string) :
  hashAfterNewlines (cut n s) = true -> hashAfterNewlines s = true.
Proof.
  revert n s.
  apply (cut_cases (fun n s => hashAfterNewlines (cut n s) = true ->
                               hashAfterNewlines s = true)).
  - intros n s ->. discriminate.
  - intros n c s IH. rewrite cut_cons. simpl. now destruct (isLF c).
Qed.

Lemma marker_cut (n : nat) (s : string) :
  markerAfterSpace (cut n s) = true -> markerAfterSpace s = true.
Proof.
  revert n s.
  apply (cut_cases (fun n s => markerAfterSpace (cut n s) = true ->
                               markerAfterSpace s = true)).
  - intros n s ->. discriminate.
  - intros n c s IH. rewrite cut_cons. simpl. now destruct (isWhiteSpace c).
Qed.

Lemma hasClose_cut (n : nat) (s : string) :
  hasClose (cut n s) = true -> hasClose s = true.
Proof.
  revert n s.
  apply (cut_cases (fun n s => hasClose (cut n s) = true ->
                               hasClose s = true)).
  - intros n s ->. discriminate.
  - intros n c s IH. rewrite cut_cons. simpl.
    destruct (Ascii.eqb c ")"); [reflexivity | exact IH].
Qed.

Lemma noTriple_cut (n : nat) (s : string) (k : nat) :
  noTriple k s = true -> noTriple k (cut n s) = true.
Proof.
  revert k. revert n s.
  apply (cut_cases (fun n s => forall k, noTriple k s = true ->
                                         noTriple k (cut n s) = true)).
  - intros n s -> k _. reflexivity.
  - intros n c s IH k. rewrite cut_cons. simpl. destruct (isLF c).
    + intros Hs. apply andb_prop in Hs as [-> Hs]. now apply IH.
    + apply IH.
Qed.

Lemma singleSpaced_cut (n : nat) (s : string) (prev : bool) :
  singleSpaced prev s = true -> singleSpaced prev (cut n s) = true.
Proof.
  revert prev. revert n s.
  apply (cut_cases (fun n s => forall p, singleSpaced p s = true ->
                                         singleSpaced p (cut n s) = true)).
  - intros n s -> prev _. reflexivity.
  - intros n c s IH prev. rewrite cut_cons. simpl. destruct (isSpace c).
    + intros Hs. apply andb_prop in Hs as [-> Hs]. now apply IH.
    + apply IH.
Qed.

Lemma linkFree_cut (n : nat) (s : string) (a : LinkState) :
  linkFree a s = true -> linkFree a (cut n s) = true.
Proof.
  revert a. revert n s.
  apply (cut_cases (fun n s => forall a, linkFree a s = true ->
                                         linkFree a (cut n s) = true)).
  - intros n s -> a _. now destruct a.
  - intros n c s IH a. rewrite cut_cons. cbn [linkFree]. intros Hs.
    apply andb_prop in Hs as [Hhere Hs]. rewrite (IH _ Hs), andb_true_r.
    apply negb_true_iff in Hhere. apply negb_true_iff.
    unfold completesLink in *. destruct a; try reflexivity.
    destruct (Ascii.eqb c "("); [|reflexivity]. simpl in *.
    destruct (hasClose (cut n s)) eqn:Hcut; [|reflexivity].
    now rewrite (hasClose_cut n s Hcut) in Hhere.
Qed.

Lemma startsLFHash_cut (n : nat) (s : string) :
  startsLFHash s = true -> hashAfterNewlines (cut n s) = true ->
  startsLFHash (cut n s) = true.
Proof.
  destruct s as [|a [|b s]]; try discriminate.
  destruct n as [|[|n]]; try discriminate.
  - cbn [startsLFHash]. intros Hs. apply andb_prop in Hs as [Ha _].
    rewrite cut_cons. simpl. rewrite Ha. discriminate.
  - now rewrite !cut_cons.
Qed.

Lemma headersSpaced_cut (n : nat) (s : string) (b : bool) :
  headersSpaced b s = true -> headersSpaced b (cut n s) = true.
Proof.
  revert b. revert n s.
  apply (cut_cases (fun n s => forall b, headersSpaced b s = true ->
                                         headersSpaced b (cut n s) = true)).
  - intros n s -> b _. reflexivity.
  - intros n c s IH b. rewrite cut_cons. cbn [headersSpaced].
    destruct (isLF c); [|apply IH].
    intros Hs. apply andb_prop in Hs as [Hrun Hs].
    rewrite (IH _ Hs), andb_true_r.
    destruct b; [reflexivity|]. simpl in *.
    destruct (hashAfterNewlines (cut n s)) eqn:Hcut; [|reflexivity].
    rewrite (hash_cut n s Hcut) in Hrun. simpl in *.
    now apply startsLFHash_cut.
Qed.

(** When the cut falls inside the white space before a list marker,
    what is left holds no match. *)
Lemma listsTight_marker_cut_off (n : nat) (s : string) :
  markerAfterSpace s = true -> markerAfterSpace (cut n s) = false ->
  listsTight false (cut n s) = true.
Proof.
  revert n s.
  apply (cut_cases (fun n s => markerAfterSpace s = true ->
                               markerAfterSpace (cut n s) = false ->
                               listsTight false (cut n s) = true)).
  - intros n s -> _ _. reflexivity.
  - intros n c s IH. rewrite cut_cons. cbn [markerAfterSpace listsTight].
    destruct (isWhiteSpace c).
    + intros Hs Hcut. rewrite Hcut, andb_false_r. now apply IH.
    + intros -> [=].
Qed.

Lemma first_cut (n : nat) (s : string) (f : ascii -> bool) :
  f "."%char = false -> firstIs f s = false -> firstIs f (cut n s) = false.
Proof.
  intros Hdot. destruct s as [|c s]; [now rewrite cut_nil|].
  destruct n as [|n]; [intros _; exact Hdot|].
  now rewrite cut_cons.
Qed.

Lemma listsTight_cut (n : nat) (s : string) (g : bool) :
  listsTight g s = true -> listsTight g (cut n s) = true.
Proof.
  revert g. revert n s.
  apply (cut_cases (fun n s => forall g, listsTight g s = true ->
                                         listsTight g (cut n s) = true)).
  - intros n s -> g _. now destruct g.
  - intros n c s IH g. rewrite cut_cons. cbn [listsTight].
    destruct g.
    + destruct (isWhiteSpace c); apply IH.
    + destruct (isLF c); [|apply IH]. simpl.
      destruct (markerAfterSpace s) eqn:Hm.
      * intros Hs. apply andb_prop in Hs as [Hfirst Hs].
        destruct (markerAfterSpace (cut n s)) eqn:Hcut.
        -- apply negb_true_iff in Hfirst.
           rewrite first_cut by (reflexivity || exact Hfirst).
           now rewrite IH.
        -- now apply listsTight_marker_cut_off.
      * destruct (markerAfterSpace (cut n s)) eqn:Hcut;
          [now rewrite (marker_cut n s Hcut) in Hm | apply IH].
Qed.

Lemma lastChar_cut (n : nat) (s : string) :
  lastChar (cut n s) = Some "."%char.
Proof.
  revert n s.
  apply (cut_cases (fun n s => lastChar (cut n s) = Some "."%char)).
  - now intros n s ->.
  - intros n c s IH. rewrite cut_cons. now apply lastChar_cons.
Qed.

Lemma trimmed_cut (n : nat) (s : string) :
  trimmed s = true -> trimmed (cut n s) = true.
Proof.
  unfold trimmed. intros Hs. apply andb_prop in Hs as [Hfirst _].
  apply negb_true_iff in Hfirst.
  rewrite first_cut by (reflexivity || exact Hfirst).
  now rewrite lastChar_cut.
Qed.

Lemma shaped_cut (n : nat) (s : string) : shaped s -> shaped (cut n s).
Proof.
  intros (Hn & Ht & Hh & Hl & He & Hs).
  repeat split;
    auto using noTriple_cut, trimmed_cut, headersSpaced_cut, listsTight_cut,
      linkFree_cut, singleSpaced_cut.
Qed.

(** *** The chain as a whole *)

Lemma cleanup_fixed (s : string) : shaped s -> cleanup s = s.
Proof.
  intros (Hn & Ht & Hh & Hl & He & Hs).
  rewrite cleanup_scans. unfold cleanupScan.
  rewrite (collapseNewlines_fixed s 0 Hn), (trim_fixed s Ht).
  rewrite (proj1 (spaceHeaders_fixed s) Hh).
  rewrite (proj1 (tightenLists_fixed s) Hl).
  rewrite (removeEmptyLinks_fixed s NoBracket He).
  apply collapseSpaces_fixed, Hs.
Qed.

Lemma linkFree_of_no_link (s : string) (a : LinkState) :
  hasEmptyLink s = false -> headFree a s = true -> linkFree a s = true.
Proof.
  revert a; induction s as [|c s IH]; intros a; [reflexivity|].
  cbn [hasEmptyLink linkFree]. intros Hno Hhead.
  apply orb_false_iff in Hno as [Hhere Hno].
  apply andb_true_intro; split.
  - destruct a; try reflexivity. exact Hhead.
  - apply IH; [exact Hno|]. unfold linkStep.
    destruct (Ascii.eqb_spec c "[") as [->|_].
    + destruct s as [|d [|e s]]; try reflexivity.
      unfold emptyLinkAt in Hhere. simpl in Hhere. simpl.
      now rewrite Hhere.
    + destruct a; try reflexivity.
      destruct (Ascii.eqb c "]") eqn:Hc; [|reflexivity].
      destruct s as [|d s]; [reflexivity|].
      cbn [headFree] in *. now rewrite Hc in Hhead.
Qed.

Lemma cleanup_shaped (m : string) :
  hasEmptyLink m = false -> shaped (cleanup m).
Proof.
  intros Hno.
  pose proof (linkFree_of_no_link m NoBracket Hno eq_refl) as He.
  apply (linkFree_collapseNewlines m 0) in He; [|intros Hk; inversion Hk].
  apply linkFree_trim in He.
  apply (proj1 (linkFree_spaceHeaders _)) in He.
  apply (proj1 (linkFree_tightenLists _)) in He.
  pose proof (noTriple_collapseNewlines m 0) as Hn.
  apply noTriple_trim in Hn.
  apply (proj1 (noTriple_spaceHeaders _)) in Hn.
  apply (proj1 (noTriple_tightenLists _)) in Hn.
  pose proof (trimmed_trim (collapseNewlines 0 m)) as Ht.
  apply trimmed_spaceHeaders, trimmed_tightenLists in Ht.
  pose proof (proj1 (headersSpaced_spaceHeaders
                       (trim (collapseNewlines 0 m)))) as Hh.
  apply (proj1 (headersSpaced_tightenLists _)) in Hh.
  pose proof (proj1 (listsTight_tightenLists
                       (spaceHeaders Idle (trim (collapseNewlines 0 m)))))
    as Hl.
  rewrite cleanup_scans. unfold cleanupScan.
  rewrite (removeEmptyLinks_fixed _ NoBracket He).
  repeat split.
  - apply noTriple_collapseSpaces; [discriminate | exact Hn].
  - now apply trimmed_collapseSpaces.
  - apply headersSpaced_collapseSpaces; [discriminate | exact Hh].
  - now apply listsTight_collapseSpaces.
  - apply linkFree_collapseSpaces; [discriminate | exact He].
  - apply singleSpaced_collapseSpaces.
Qed.

Lemma substring_0_append (a b : string) :
  substring 0 (String.length a) (a ++ b) = a.
Proof.
  induction a as [|c a IH]; simpl; [now destruct b | now rewrite IH].
Qed.

Lemma applyLimit_cut (n : Z) (s : string) :
  applyLimit n s = s \/
  (applyLimit n s = cut (Z.to_nat n) s /\ (0 < n)%Z /\
   (n < Z.of_nat (String.length s))%Z).
Proof.
  unfold applyLimit, cut.
  destruct (Z.ltb_spec 0 n); [|now left].
  destruct (Z.ltb_spec n (Z.of_nat (String.length s))); [|now left].
  right. now repeat split.
Qed.

Lemma applyLimit_idempotent (n : Z) (s : string) :
  applyLimit n (applyLimit n s) = applyLimit n s.
Proof.
  destruct (applyLimit_cut n s) as [Hsame | (Hcut & Hpos & Hlong)];
    [now rewrite !Hsame|].
  rewrite Hcut. unfold applyLimit, cut.
  rewrite length_append, length_substring_0. simpl String.length.
  destruct (Z.ltb_spec 0 n); [|lia].
  destruct (Z.ltb_spec n
              (Z.of_nat (Nat.min (Z.to_nat n) (String.length s) + 3)));
    [|lia].
  simpl. f_equal.
  replace (Z.to_nat n) with (String.length (substring 0 (Z.to_nat n) s))
    at 1; [apply substring_0_append|].
  rewrite length_substring_0. lia.
Qed.

(** C4, as amended.  On Markdown without an empty link, [[](] with a [)]
    after it, the Post-Processor is idempotent, for every [maxLength]. *)
Theorem postProcess_idempotent_without_empty_links :
  forall (markdown : string) (maxLength : Z),
    hasEmptyLink markdown = false ->
    postProcess (postProcess markdown maxLength) maxLength
    = postProcess markdown maxLength.
Proof.
  intros markdown maxLength Hno. unfold postProcess.
  pose proof (cleanup_shaped markdown Hno) as Hshaped.
  assert (Hlimit : shaped (applyLimit maxLength (cleanup markdown))).
  { destruct (applyLimit_cut maxLength (cleanup markdown))
      as [-> | (-> & _ & _)]; [exact Hshaped | now apply shaped_cut]. }
  rewrite (cleanup_fixed _ Hlimit). apply applyLimit_idempotent.
Qed.

(** ** Instances on the reference host *)

(** C1 at concrete inputs: the empty string, [undefined] and a
    white-space-only string are answered with the empty string; none of
    the calls raises. *)
Lemma empty_input_is_not_an_error :
  htmlToMarkdown Reference.host (Str EmptyString) noOptions
    = Normal EmptyString /\
  htmlToMarkdownSimple Reference.host Undefined = Normal EmptyString /\
  htmlToMarkdownSimple Reference.host (Str " ") = Normal EmptyString /\
  ~ raises (htmlToMarkdown Reference.host (Str EmptyString) noOptions) /\
  ~ raises (htmlToMarkdownSimple Reference.host (Str EmptyString)).
Proof.
  repeat split; try (vm_compute; reflexivity);
    intros [message Hthrow]; discriminate Hthrow.
Qed.

(** The guard on a number. *)
Lemma entry_points_return_empty_for_rejected_input_witness :
  (Number 7 = Str EmptyString \/ typeof (Number 7) <> "string") /\
  (htmlToMarkdown Reference.host (Number 7) noOptions = Normal EmptyString /\
   htmlToMarkdownSimple Reference.host (Number 7) = Normal EmptyString).
Proof.
  split; [right; discriminate|].
  apply (proj1 (entry_points_return_empty_for_rejected_input
                  Reference.host (Number 7) noOptions)).
  right; discriminate.
Defined.

(** A paragraph cut at five code units. *)
Lemma htmlToMarkdown_length_bound_witness :
  (0 < orDefault 0 (maxLength (withOptions false 5 [] false)))%Z /\
  htmlToMarkdown Reference.host (Str "<p>Hello world</p>")
    (withOptions false 5 [] false) = Normal "Hello..." /\
  (Z.of_nat (String.length "Hello...") <= 5 + 3)%Z /\
  (forall s markdown,
      Str "<p>Hello world</p>" = Str s -> s <> EmptyString ->
      convert Reference.host (capInput 5 s) (withOptions false 5 [] false)
        = Normal markdown ->
      (5 < Z.of_nat (String.length markdown))%Z ->
      Z.of_nat (String.length "Hello...") = (5 + 3)%Z).
Proof.
  split; [reflexivity|]. split; [vm_compute; reflexivity|].
  apply (htmlToMarkdown_length_bound Reference.host
           (Str "<p>Hello world</p>") (withOptions false 5 [] false)
           "Hello...").
  - reflexivity.
  - vm_compute; reflexivity.
Defined.

(** With [maxLength = 1] only the first ten code units are read. *)
Lemma htmlToMarkdown_reads_only_the_capped_input_witness :
  (0 < orDefault 0 (maxLength (withOptions false 1 [] false)))%Z /\
  (1 * 10 < Z.of_nat (String.length "<p>ab</p><p>cd</p>"))%Z /\
  htmlToMarkdown Reference.host (Str "<p>ab</p><p>cd</p>")
    (withOptions false 1 [] false) =
  htmlToMarkdown Reference.host
    (Str (substring 0 (Z.to_nat (1 * 10)) "<p>ab</p><p>cd</p>"))
    (withOptions false 1 [] false).
Proof.
  split; [reflexivity|]. split; [reflexivity|].
  apply (htmlToMarkdown_reads_only_the_capped_input Reference.host
           "<p>ab</p><p>cd</p>" (withOptions false 1 [] false));
    reflexivity.
Defined.

(** C9 at a concrete input: eight empty paragraphs, which the cap for
    [maxLength = 5] cuts after fifty code units, inside the last start
    tag.  The [<] that is left is text for the sanitizer and the parser,
    and it is the Markdown. *)
Lemma cut_blank_blocks_give_a_bracket :
  (exists body,
      parsedBody Reference.host eightParagraphs (withOptions false 5 [] false)
        body /\
      forallb blankBlock body = true) /\
  capInput 5 eightParagraphs
    = "<p></p><p></p><p></p><p></p><p></p><p></p><p></p><" /\
  htmlToMarkdown Reference.host (Str eightParagraphs)
    (withOptions false 5 [] false) = Normal "<".
Proof.
  split; [|split; vm_compute; reflexivity].
  exists (Reference.parse eightParagraphs). split; [|reflexivity].
  exists eightParagraphs. split; vm_compute; reflexivity.
Qed.

(** Blank paragraphs and a division, without a limit and below it. *)
Lemma blank_blocks_give_empty_markdown_witness :
  (orDefault 0 (maxLength (withOptions false 0 [] true)) <= 0 \/
   Z.of_nat (String.length "<p> </p> <div><p></p></div>")
   <= orDefault 0 (maxLength (withOptions false 0 [] true)) * 10)%Z /\
  parsedBody Reference.host "<p> </p> <div><p></p></div>"
    (withOptions false 0 [] true)
    [Element "p" [] [Text " "]; Text " ";
     Element "p" [] [Element "p" [] []]] /\
  forallb blankBlock
    [Element "p" [] [Text " "]; Text " ";
     Element "p" [] [Element "p" [] []]] = true /\
  htmlToMarkdown Reference.host (Str "<p> </p> <div><p></p></div>")
    (withOptions false 0 [] true) = Normal EmptyString /\
  htmlToMarkdown Reference.host (Str eightParagraphs)
    (withOptions false 6 [] false) = Normal EmptyString.
Proof.
  assert (Hwhole :
    (orDefault 0 (maxLength (withOptions false 0 [] true)) <= 0 \/
     Z.of_nat (String.length "<p> </p> <div><p></p></div>")
     <= orDefault 0 (maxLength (withOptions false 0 [] true)) * 10)%Z)
    by (left; discriminate).
  assert (Hbody : parsedBody Reference.host "<p> </p> <div><p></p></div>"
                    (withOptions false 0 [] true)
                    [Element "p" [] [Text " "]; Text " ";
                     Element "p" [] [Element "p" [] []]]).
  { exists "<p> </p> <p><p></p></p>". split; vm_compute; reflexivity. }
  split; [exact Hwhole|]. split; [exact Hbody|]. split; [reflexivity|].
  split.
  - exact (blank_blocks_give_empty_markdown Reference.host
             "<p> </p> <div><p></p></div>" (withOptions false 0 [] true)
             [Element "p" [] [Text " "]; Text " ";
              Element "p" [] [Element "p" [] []]]
             Hwhole Hbody eq_refl).
  - apply (blank_blocks_give_empty_markdown Reference.host
             eightParagraphs (withOptions false 6 [] false)
             (Reference.parse eightParagraphs)).
    + right. vm_compute. discriminate.
    + exists eightParagraphs. split; vm_compute; reflexivity.
    + reflexivity.
Defined.

(** The scenario on the reference host, and a relative [href] that
    [URL] rejects. *)
Lemma redirect_link_is_unwrapped_or_kept_witness :
  htmlToMarkdown Reference.host (Str redirectInput) noOptions
    = Normal "[click](https://real.example)" /\
  Turndown.replacement (emailLinks Reference.host) "here"
    (Element "a" [("href", "redirect?destination=x")] [Text "here"])
    {| Turndown.parentNode := Element "p" [] [];
       Turndown.previousSiblings := []; Turndown.nextSiblings := [];
       Turndown.insideCode := false |}
    (turndownOptions false)
    = inlineLink "here" "redirect?destination=x".
Proof.
  split.
  - apply (proj1 redirect_link_is_unwrapped_or_kept Reference.host
             {| Url.hostname := "safelink.emails.example";
                Url.searchParams :=
                  [("destination", "https://real.example")] |}).
    + exists ("<a href=" ++ quoted safelink ++ ">click</a>").
      split; vm_compute; reflexivity.
    + vm_compute; reflexivity.
    + reflexivity.
    + vm_compute; reflexivity.
  - apply (proj2 redirect_link_is_unwrapped_or_kept Reference.host
             [("href", "redirect?destination=x")] [Text "here"]
             "redirect?destination=x" "here").
    + reflexivity.
    + vm_compute; reflexivity.
    + left. exists "TypeError: Invalid URL". vm_compute; reflexivity.
Defined.

(** C8 at concrete inputs, with [a.com] allowed.  The hostname of
    [ftp://b.com/x] is not allowed, and [new URL("")] throws; the
    sanitizer drops both [href]s before the filter sees the frame, so
    neither anchor is marked, and both come out as their text. *)
Lemma anchors_without_a_shown_href_are_kept :
  (newURL Reference.host "ftp://b.com/x"
     = Normal {| Url.hostname := "b.com"; Url.searchParams := [] |} /\
   arrayIncludes "b.com" ["a.com"] = false /\
   Reference.sanitizeHtml "<a href='ftp://b.com/x'>y</a>"
     (sanitizeOptions Reference.host false true ["a.com"] false)
     = Normal "<a>y</a>" /\
   htmlToMarkdown Reference.host (Str "<a href='ftp://b.com/x'>y</a>")
     (withOptions false 0 ["a.com"] false) = Normal "y") /\
  (raises (newURL Reference.host EmptyString) /\
   Reference.sanitizeHtml "<a href=''>x</a>"
     (sanitizeOptions Reference.host false true ["a.com"] false)
     = Normal "<a>x</a>" /\
   htmlToMarkdown Reference.host (Str "<a href=''>x</a>")
     (withOptions false 0 ["a.com"] false) = Normal "x").
Proof.
  split.
  - repeat split; vm_compute; reflexivity.
  - split; [exists "TypeError: Invalid URL"; reflexivity|].
    split; vm_compute; reflexivity.
Qed.

(** A foreign host, an allowed host, a relative [href] and an [href]
    with another scheme, with [a.com] allowed. *)
Lemma anchors_outside_allowed_domains_are_removed_witness :
  ["a.com"] <> [] /\
  exclusiveFilter Reference.host ["a.com"]
    {| SanitizeHtml.tag := "a";
       SanitizeHtml.attribs := [("href", "https://b.com/x")] |}
    = negb (arrayIncludes "b.com" ["a.com"]) /\
  exclusiveFilter Reference.host ["a.com"]
    {| SanitizeHtml.tag := "a";
       SanitizeHtml.attribs := [("href", "https://a.com/x")] |}
    = negb (arrayIncludes "a.com" ["a.com"]) /\
  exclusiveFilter Reference.host ["a.com"]
    {| SanitizeHtml.tag := "a";
       SanitizeHtml.attribs := [("href", "/relative")] |} = true /\
  Reference.sanitizeNode
    (sanitizeOptions Reference.host false true ["a.com"] false)
    (Element "a" [("href", "https://b.com/x")] [Text "y"]) = [] /\
  Reference.sanitizeNode
    (sanitizeOptions Reference.host false true ["a.com"] false)
    (Element "a" [("href", "ftp://b.com/x")] [Text "y"])
    = [Element "a" [] [Text "y"]].
Proof.
  pose proof (anchors_outside_allowed_domains_are_removed
                Reference.host ["a.com"])
    as (Hmark & _ & Hnode & _ & Hkept & _).
  assert (Hne : ["a.com"] <> []) by discriminate.
  split; [exact Hne|]. split; [|split; [|split; [|split]]].
  - apply (proj2 (Hmark Hne
                    {| SanitizeHtml.tag := "a";
                       SanitizeHtml.attribs := [("href", "https://b.com/x")] |}
                    "https://b.com/x" eq_refl eq_refl ltac:(discriminate))
             {| Url.hostname := "b.com"; Url.searchParams := [] |}).
    vm_compute; reflexivity.
  - apply (proj2 (Hmark Hne
                    {| SanitizeHtml.tag := "a";
                       SanitizeHtml.attribs := [("href", "https://a.com/x")] |}
                    "https://a.com/x" eq_refl eq_refl ltac:(discriminate))
             {| Url.hostname := "a.com"; Url.searchParams := [] |}).
    vm_compute; reflexivity.
  - apply (proj1 (Hmark Hne
                    {| SanitizeHtml.tag := "a";
                       SanitizeHtml.attribs := [("href", "/relative")] |}
                    "/relative" eq_refl eq_refl ltac:(discriminate))).
    exists "TypeError: Invalid URL". vm_compute; reflexivity.
  - rewrite (Hnode false true false [("href", "https://b.com/x")]
               [Text "y"]).
    vm_compute; reflexivity.
  - apply (Hkept false true false "ftp://b.com/x" [Text "y"]).
    vm_compute; reflexivity.
Defined.

(** C4 at a concrete input: the first pass removes the empty link and
    leaves the space that followed it at the start; the second pass trims
    that space. *)
Lemma postProcess_is_not_idempotent :
  postProcess "[](x) a" 0 = " a" /\
  postProcess (postProcess "[](x) a" 0) 0 = "a" /\
  postProcess (postProcess "[](x) a" 0) 0 <> postProcess "[](x) a" 0.
Proof.
  split; [vm_compute; reflexivity|]. split; [vm_compute; reflexivity|].
  intros Hsame. vm_compute in Hsame. discriminate Hsame.
Qed.

(** A heading, a list item and a cut at nine code units. *)
Lemma postProcess_idempotent_without_empty_links_witness :
  hasEmptyLink ("a" ++ LF1 ++ LF1 ++ LF1 ++ "# b  c" ++ LF1 ++ LF1 ++ "- d")
    = false /\
  postProcess
    (postProcess
       ("a" ++ LF1 ++ LF1 ++ LF1 ++ "# b  c" ++ LF1 ++ LF1 ++ "- d") 9) 9
  = postProcess
      ("a" ++ LF1 ++ LF1 ++ LF1 ++ "# b  c" ++ LF1 ++ LF1 ++ "- d") 9.
Proof.
  split; [reflexivity|].
  apply (postProcess_idempotent_without_empty_links
           ("a" ++ LF1 ++ LF1 ++ LF1 ++ "# b  c" ++ LF1 ++ LF1 ++ "- d") 9).
  reflexivity.
Defined.

(** * Further properties of the code *)

(** ** What the cleanup chain leaves behind *)

Lemma singleSpaced_no_two_spaces (s : string) (prev : bool) :
  singleSpaced prev s = true -> includes "  " s = false.
Proof.
  revert prev; induction s as [|c s IH]; intros prev; [reflexivity|].
  cbn [singleSpaced includes startsWith]. unfold isSpace.
  rewrite (Ascii.eqb_sym " " c).
  destruct (Ascii.eqb c " ") eqn:Hc; cbn [andb orb].
  - intros Hs. apply andb_prop in Hs as [_ Hs]. rewrite (IH true Hs).
    destruct s as [|d s]; [reflexivity|].
    cbn [singleSpaced] in Hs. unfold isSpace in Hs.
    cbn [startsWith]. rewrite (Ascii.eqb_sym " " d).
    destruct (Ascii.eqb d " "); [discriminate Hs | reflexivity].
  - apply IH.
Qed.

Lemma startsWith_cons (a : ascii) (p : string) (c : ascii) (s : string) :
  startsWith (String a p) (String c s) = true ->
  c = a /\ startsWith p s = true.
Proof.
  cbn [startsWith]. intros Hs. apply andb_prop in Hs as [Ha Hp].
  apply Ascii.eqb_eq in Ha. now split.
Qed.

Lemma startsWith_empty (a : ascii) (p : string) :
  startsWith (String a p) EmptyString = false.
Proof. reflexivity. Qed.

(** Takes a [startsWith] hypothesis on a literal pattern apart. *)
Ltac starts H :=
  repeat match type of H with
         | startsWith (String _ _) (String _ _) = true =>
             let Hc := fresh "Hc" in
             apply startsWith_cons in H as [Hc H]; subst
         | startsWith (String _ _) ?s = true =>
             destruct s; [discriminate H|]
         end.

Lemma noTriple_no_three_newlines (s : string) (k : nat) :
  noTriple k s = true -> includes LF3 s = false.
Proof.
  revert k; induction s as [|c s IH]; intros k Hs; [reflexivity|].
  cbn [includes].
  assert (Hrest : includes LF3 s = false).
  { cbn [noTriple] in Hs.
    destruct (isLF c); [apply andb_prop in Hs as [_ Hs]|];
      eapply IH; eassumption. }
  rewrite Hrest, orb_false_r.
  destruct (startsWith LF3 (String c s)) eqn:Hstart; [|reflexivity].
  exfalso. unfold LF3 in Hstart. starts Hstart.
  cbn in Hs. now rewrite !andb_false_r in Hs.
Qed.

Lemma headersSpaced_blank_line (s : string) (inRun : bool) (c : ascii) :
  headersSpaced inRun s = true -> isLF c = false ->
  includes (String c (String LF "#")) s = false.
Proof.
  intros Hs Hc. revert inRun Hs; induction s as [|x s IH]; intros inRun Hs;
    [reflexivity|].
  cbn [includes].
  assert (Hrest : includes (String c (String LF "#")) s = false).
  { cbn [headersSpaced] in Hs.
    destruct (isLF x); [apply andb_prop in Hs as [_ Hs]|];
      eapply IH; eassumption. }
  rewrite Hrest, orb_false_r.
  destruct (startsWith (String c (String LF "#")) (String x s)) eqn:Hstart;
    [|reflexivity].
  exfalso. starts Hstart.
  cbn [headersSpaced] in Hs. rewrite Hc in Hs.
  destruct s; cbn in Hs; discriminate Hs.
Qed.

Lemma listsTight_no_blank_line (s : string) (inGroup : bool) (c d : ascii) :
  listsTight inGroup s = true ->
  isWhiteSpace c = false -> isListMarker d = true ->
  includes (String c (String LF (String LF (String d EmptyString)))) s
  = false.
Proof.
  intros Hs Hc Hd. revert inGroup Hs; induction s as [|x s IH];
    intros inGroup Hs; [reflexivity|].
  cbn [includes].
  assert (Hrest :
    includes (String c (String LF (String LF (String d EmptyString)))) s
    = false).
  { cbn [listsTight] in Hs. destruct inGroup.
    - destruct (isWhiteSpace x); eapply IH; eassumption.
    - destruct (isLF x && markerAfterSpace s);
        [apply andb_prop in Hs as [_ Hs]|]; eapply IH; eassumption. }
  rewrite Hrest, orb_false_r.
  destruct (startsWith _ (String x s)) eqn:Hstart; [|reflexivity].
  exfalso. starts Hstart.
  assert (Hlf : isLF c = false).
  { destruct (isLF c) eqn:Hlf; [|reflexivity].
    now rewrite (isLF_isWhiteSpace c Hlf) in Hc. }
  assert (Hnext : listsTight false
                    (String LF (String LF (String d s))) = true).
  { cbn [listsTight] in Hs. rewrite Hc, Hlf in Hs. cbn [andb] in Hs.
    now destruct inGroup. }
  clear Hs. cbn [listsTight markerAfterSpace] in Hnext.
  change (isLF LF) with true in Hnext.
  change (isWhiteSpace LF) with true in Hnext.
  rewrite (isListMarker_not_space d Hd), Hd in Hnext.
  cbn in Hnext. discriminate Hnext.
Qed.

(** X1.  Whatever the Markdown, the cleaned Markdown has no two spaces in a
    row: the last replacement of the chain leaves none. *)
Theorem cleanup_leaves_no_two_spaces :
  forall markdown : string, includes "  " (cleanup markdown) = false.
Proof.
  intros markdown. rewrite cleanup_scans. unfold cleanupScan.
  apply (singleSpaced_no_two_spaces _ false), singleSpaced_collapseSpaces.
Qed.

(** X2.  The cleaned form of Markdown without an empty link has no white space
    at either end and no three LF in a row. *)
Theorem cleanup_without_empty_links_is_trimmed :
  forall markdown : string,
    hasEmptyLink markdown = false ->
    trim (cleanup markdown) = cleanup markdown /\
    includes LF3 (cleanup markdown) = false.
Proof.
  intros markdown Hno.
  destruct (cleanup_shaped markdown Hno) as (Hn & Ht & _).
  split; [now apply trim_fixed | now apply (noTriple_no_three_newlines _ 0)].
Qed.

(** X3.  In the cleaned form of Markdown without an empty link, a [#] at the
    start of a line has a blank line before it: the text never holds a
    code unit other than LF, one LF and [#] in a row.  This holds for
    every such line, a line of a code block and a hash tag included. *)
Theorem cleanup_puts_a_blank_line_before_a_hash :
  forall (markdown : string) (c : ascii),
    hasEmptyLink markdown = false ->
    isLF c = false ->
    includes (String c (String LF "#")) (cleanup markdown) = false.
Proof.
  intros markdown c Hno Hc.
  destruct (cleanup_shaped markdown Hno) as (_ & _ & Hh & _).
  now apply (headersSpaced_blank_line _ false).
Qed.

(** X4.  In the cleaned form of Markdown without an empty link, no blank line
    is left between a line and a line that starts with [-], [*] or [+]:
    the text never holds a code unit that is no white space, two LF and
    one of the three markers in a row.  So a list, a horizontal rule and
    a paragraph that starts with emphasis are joined to the paragraph
    before them. *)
Theorem cleanup_leaves_no_blank_line_before_a_marker :
  forall (markdown : string) (c d : ascii),
    hasEmptyLink markdown = false ->
    isWhiteSpace c = false ->
    isListMarker d = true ->
    includes (String c (String LF (String LF (String d EmptyString))))
      (cleanup markdown) = false.
Proof.
  intros markdown c d Hno Hc Hd.
  destruct (cleanup_shaped markdown Hno) as (_ & _ & _ & Hl & _).
  now apply (listsTight_no_blank_line _ false).
Qed.

(** ** The limit and the other entry points *)

Lemma applyLimit_unlimited (n : Z) (s : string) :
  (n <= 0)%Z -> applyLimit n s = s.
Proof.
  intros Hn. unfold applyLimit. now destruct (Z.ltb_spec 0 n); [lia|].
Qed.

Lemma bind_Normal {A : Type} (c : Completion A) :
  (a <- c ;; Normal a) = c.
Proof. now destruct c. Qed.

Lemma bind_assoc {A B C : Type} (c : Completion A) (f : A -> Completion B)
  (g : B -> Completion C) :
  (b <- (a <- c ;; f a) ;; g b) = (a <- c ;; b <- f a ;; g b).
Proof. now destruct c. Qed.

(** The conversion itself does not read [maxLength]. *)
Lemma convert_withMaxLength (H : Host) (s : string) (limit : option Z)
  (options : HtmlToMarkdownOptions) :
  convert H s (withMaxLength limit options) = convert H s options.
Proof. reflexivity. Qed.

(** X5.  A positive [maxLength] only cuts: for an input of at most
    [maxLength * 10] code units, the call with the limit returns what the
    call without it returns, cut after [maxLength] code units and ended by
    the ellipsis when that is longer, and fails when that fails. *)
Theorem htmlToMarkdown_limit_only_cuts :
  forall (H : Host) (s : string) (options : HtmlToMarkdownOptions) (n : Z),
    (0 < n)%Z ->
    (Z.of_nat (String.length s) <= n * 10)%Z ->
    htmlToMarkdown H (Str s) (withMaxLength (Some n) options) =
    (markdown <- htmlToMarkdown H (Str s) (withMaxLength None options) ;;
     Normal (applyLimit n markdown)).
Proof.
  intros H s options n Hn Hs. destruct s as [|c s].
  - cbn [htmlToMarkdown truthy String.eqb negb orb Js.bind].
    now rewrite applyLimit_empty.
  - rewrite !htmlToMarkdown_string by reflexivity.
    cbn [withMaxLength maxLength orDefault].
    rewrite !convert_withMaxLength, (capInput_within n _ Hs).
    rewrite (capInput_unlimited 0) by lia.
    rewrite bind_assoc. destruct (convert H (String c s) options);
      cbn [Js.bind]; [|reflexivity].
    now rewrite (applyLimit_unlimited 0) by lia.
Qed.

(** X6.  A [maxLength] of zero or below is no limit and no error: the call
    returns what the call without [maxLength] returns. *)
Theorem htmlToMarkdown_without_positive_limit :
  forall (H : Host) (html : Js.Value) (options : HtmlToMarkdownOptions)
         (n : Z),
    (n <= 0)%Z ->
    htmlToMarkdown H html (withMaxLength (Some n) options) =
    htmlToMarkdown H html (withMaxLength None options).
Proof.
  intros H html options n Hn. unfold htmlToMarkdown.
  cbn [withMaxLength maxLength orDefault].
  destruct (negb (truthy html) || negb (String.eqb (typeof html) "string"));
    [reflexivity|].
  destruct html as [| | b | z | s |]; try reflexivity.
  rewrite !convert_withMaxLength, (capInput_unlimited n s Hn).
  rewrite (capInput_unlimited 0) by lia.
  destruct (convert H s options); cbn [Js.bind]; [|reflexivity].
  rewrite (applyLimit_unlimited n _ Hn).
  now rewrite (applyLimit_unlimited 0) by lia.
Qed.

(** The options [emailToMarkdown] passes besides [maxLength] are the
    defaults. *)
Lemma convert_email_options (H : Host) (s : string) :
  convert H s
    {| maxLength := Some 10000%Z;
       includeImageAlt := Some true;
       preserveLineBreaks := Some false;
       preserveTables := Some false;
       allowedDomains := None |} = convert H s noOptions.
Proof. reflexivity. Qed.

Lemma emailToMarkdown_string (H : Host) (s : string) :
  nonEmpty s = true ->
  emailToMarkdown H (Str s) =
  (markdown <- convert H (capInput 10000 s) noOptions ;;
   Normal (applyLimit 10000 markdown)).
Proof.
  intros Hs. unfold emailToMarkdown.
  rewrite htmlToMarkdown_string by exact Hs.
  now rewrite convert_email_options.
Qed.

(** X7.  [emailToMarkdown] reads at most the first 100000 code units of its
    input, and a string it returns has at most 10003 code units. *)
Theorem emailToMarkdown_is_capped_and_bounded :
  forall (H : Host) (s : string),
    emailToMarkdown H (Str s) =
    emailToMarkdown H (Str (substring 0 (Z.to_nat 100000) s)) /\
    (forall result : string,
        emailToMarkdown H (Str s) = Normal result ->
        (Z.of_nat (String.length result) <= 10003)%Z).
Proof.
  intros H s. split.
  - destruct (Z.leb_spec (Z.of_nat (String.length s)) 100000) as [Hle|Hgt].
    + rewrite substring_0_all by lia. reflexivity.
    + rewrite !emailToMarkdown_string.
      * assert (Hcap : capInput 10000 s = substring 0 (Z.to_nat 100000) s).
        { unfold capInput.
          destruct (Z.ltb_spec (10000 * 10) (Z.of_nat (String.length s)));
            [reflexivity | lia]. }
        now rewrite <- Hcap, capInput_idempotent.
      * apply nonEmpty_length. rewrite length_substring_0. lia.
      * apply nonEmpty_length. lia.
  - intros result Hres. destruct s as [|c s].
    + injection Hres as <-. simpl. lia.
    + rewrite emailToMarkdown_string in Hres by reflexivity.
      destruct (convert H (capInput 10000 (String c s)) noOptions) as [md|];
        cbn [Js.bind] in Hres; [|discriminate].
      injection Hres as <-.
      apply (applyLimit_length 10000 md). lia.
Qed.

(** X8.  For an input of at most 100000 code units, [emailToMarkdown] returns
    what [htmlToMarkdownSimple] returns, cut after 10000 code units and
    ended by the ellipsis when that is longer, and fails when that
    fails. *)
Theorem emailToMarkdown_is_the_simple_conversion_cut :
  forall (H : Host) (s : string),
    (Z.of_nat (String.length s) <= 100000)%Z ->
    emailToMarkdown H (Str s) =
    (markdown <- htmlToMarkdownSimple H (Str s) ;;
     Normal (applyLimit 10000 markdown)).
Proof.
  intros H s Hs. destruct s as [|c s].
  - reflexivity.
  - rewrite emailToMarkdown_string by reflexivity.
    unfold htmlToMarkdownSimple.
    rewrite htmlToMarkdown_string by reflexivity.
    cbn [noOptions maxLength orDefault].
    rewrite (capInput_within 10000) by lia.
    rewrite (capInput_unlimited 0) by lia.
    rewrite bind_assoc.
    destruct (convert H (String c s) noOptions); cbn [Js.bind];
      [|reflexivity].
    now rewrite (applyLimit_unlimited 0) by lia.
Qed.

(** ** The domain filter and the redirect rule, in full *)

(** X9.  [exclusiveFilter] marks nothing but anchors: a frame it marks is an
    [a] with a non-empty [href] that is no valid URL or has a hostname
    outside a non-empty [allowedDomains].  An image is never marked,
    whatever its source. *)
Theorem exclusiveFilter_marks_only_anchors :
  forall (H : Host) (allowedDomains : list string)
         (frame : SanitizeHtml.Frame),
    exclusiveFilter H allowedDomains frame = true ->
    allowedDomains <> [] /\
    SanitizeHtml.tag frame = "a" /\
    exists href : string,
      lookupAttr "href" (SanitizeHtml.attribs frame) = Some href /\
      href <> EmptyString /\
      (raises (newURL H href) \/
       exists url, newURL H href = Normal url /\
                   arrayIncludes (Url.hostname url) allowedDomains = false).
Proof.
  intros H allowedDomains frame. unfold exclusiveFilter.
  destruct allowedDomains as [|d ds]; [discriminate|].
  cbn [List.length Nat.eqb].
  destruct (lookupAttr "href" (SanitizeHtml.attribs frame)) as [href|];
    [|discriminate].
  destruct (String.eqb (SanitizeHtml.tag frame) "a") eqn:Htag;
    [|discriminate].
  destruct href as [|c href]; [discriminate|]. cbn [nonEmpty andb].
  intros Hmark. split; [discriminate|].
  split; [now apply String.eqb_eq|].
  exists (String c href). split; [reflexivity|]. split; [discriminate|].
  destruct (newURL H (String c href)) as [url|message].
  - right. exists url. split; [reflexivity|]. now apply negb_true_iff.
  - left. now exists message.
Qed.

(** X10.  The [emailLinks] rule on an anchor whose [href] is a valid URL: with
    a non-empty [destination] parameter that [decodeURIComponent]
    accepts, the link goes to the decoded destination; without the
    parameter, or with an empty one, the link goes to the [href]
    itself.  The link text is the converted content as it is. *)
Theorem emailLinks_follows_the_destination_parameter :
  forall (H : Host) (content href : string) (n : Node) (url : Url.URL),
    getAttribute "href" n = Some href ->
    href <> EmptyString ->
    newURL H href = Normal url ->
    (forall destination decoded,
        Url.get "destination" (Url.searchParams url) = Some destination ->
        destination <> EmptyString ->
        decodeURIComponent H destination = Normal decoded ->
        emailLinksReplacement H content n = inlineLink content decoded) /\
    (Url.get "destination" (Url.searchParams url) = None \/
     Url.get "destination" (Url.searchParams url) = Some EmptyString ->
     emailLinksReplacement H content n = inlineLink content href).
Proof.
  intros H content href n url Hhref Hne Hurl.
  unfold emailLinksReplacement, extractDestination.
  rewrite Hhref, Hurl. cbn [Js.bind templateValue].
  destruct href as [|c href]; [now elim Hne|]. cbn [nonEmpty String.eqb negb].
  split.
  - intros destination decoded -> Hd ->.
    destruct destination; [now elim Hd | reflexivity].
  - now intros [-> | ->].
Qed.

(** ** The TreeWalker pass, node by node *)

Lemma path_eqb_eq (p q : Path) : path_eqb p q = true <-> p = q.
Proof.
  unfold path_eqb. revert q; induction p as [|x p IH]; intros [|y q];
    split; try discriminate; try reflexivity.
  - intros Hpq. apply andb_prop in Hpq as [Hx Hp].
    apply Nat.eqb_eq in Hx. apply IH in Hp. now subst.
  - intros [= -> ->]. rewrite Nat.eqb_refl. now apply IH.
Qed.

Lemma existsb_path (q : Path) (D : list Path) :
  existsb (path_eqb q) D = true <-> In q D.
Proof.
  rewrite existsb_exists. split.
  - intros (x & Hx & Heq). apply path_eqb_eq in Heq. now subst.
  - intros Hq. exists q. split; [exact Hq | now apply path_eqb_eq].
Qed.

Lemma doomedChildren_cons (here : Path) (i : nat) (x : Node)
  (r : list Node) :
  doomedChildren here i (x :: r) =
  (doomedNode (here ++ [i]) x ++ doomedChildren here (S i) r)%list.
Proof.
  unfold doomedChildren, doomedNode. cbn [walkChildren].
  now rewrite filter_app, map_app.
Qed.

Lemma doomedNode_element (p : Path) (name : string)
  (attrs : list (string * string)) (ch : list Node) :
  doomedNode p (Element name attrs ch) =
  if existsb (String.eqb name) ["p"; "div"]
     && isBlankText (Element name attrs ch)
  then []
  else ((if isBlankText (Element name attrs ch) then [p] else [])
        ++ doomedChildren p 0 ch)%list.
Proof.
  unfold doomedNode, doomedChildren. cbn [walkNode]. unfold acceptNode.
  cbn [localName].
  destruct (existsb (String.eqb name) ["p"; "div"]
            && isBlankText (Element name attrs ch)); [reflexivity|].
  cbn [filter snd].
  destruct (isBlankText (Element name attrs ch)); reflexivity.
Qed.

Lemma doomed_below (n : Node) :
  forall (p q : Path),
    In q (doomedNode p n) -> exists rest, q = (p ++ rest)%list.
Proof.
  induction n as [d | name attrs ch IH] using Node_induction; intros p q.
  - intros [].
  - rewrite doomedNode_element.
    destruct (_ && _); [intros []|]. rewrite in_app_iff. intros [Hq | Hq].
    + destruct (isBlankText _); [|destruct Hq].
      destruct Hq as [<- | []]. exists []. now rewrite app_nil_r.
    + revert Hq. generalize 0 as i.
      induction IH as [|x r Hx _ IHr]; intros i; [intros []|].
      rewrite doomedChildren_cons, in_app_iff. intros [Hq | Hq].
      * destruct (Hx _ _ Hq) as [rest ->]. exists (i :: rest).
        now rewrite <- app_assoc.
      * exact (IHr _ Hq).
Qed.

Lemma doomed_behind (l : list Node) (here q : Path) (i : nat) :
  In q (doomedChildren here i l) ->
  exists j rest, i <= j /\ q = (here ++ j :: rest)%list.
Proof.
  revert i; induction l as [|x r IH]; intros i; [intros []|].
  rewrite doomedChildren_cons, in_app_iff. intros [Hq | Hq].
  - destruct (doomed_below _ _ _ Hq) as [rest ->]. exists i, rest.
    split; [lia | now rewrite <- app_assoc].
  - destruct (IH _ Hq) as (j & rest & Hj & ->). exists j, rest.
    split; [lia | reflexivity].
Qed.

(** The pass leaves a node as it is when it removes nothing at or below
    it. *)
Lemma pruneNode_untouched (D : list Path) (n : Node) :
  forall p : Path,
    (forall rest, ~ In (p ++ rest)%list D) -> pruneNode D p n = n.
Proof.
  induction n as [d | name attrs ch IH] using Node_induction; intros p Hp;
    [reflexivity|].
  cbn [pruneNode]. f_equal.
  assert (Hfrom : forall i rest, ~ In (p ++ i :: rest)%list D)
    by (intros i rest; apply Hp).
  clear Hp. generalize 0 as i.
  induction IH as [|x r Hx _ IHr]; intros i; [reflexivity|].
  cbn [pruneChildren].
  destruct (existsb (path_eqb (p ++ [i])%list) D) eqn:Hin.
  - apply existsb_path in Hin. now elim (Hfrom i []).
  - f_equal; [|apply IHr]. apply Hx. intros rest.
    rewrite <- app_assoc. apply Hfrom.
Qed.

Lemma agreesFrom_head (D : list Path) (here : Path) (i : nat) (x : Node)
  (r : list Node) :
  agreesFrom D here i (x :: r) -> agreesAt D (here ++ [i])%list x.
Proof.
  intros Hagree rest. rewrite <- app_assoc. cbn [app].
  rewrite (Hagree i rest (le_n i)), doomedChildren_cons, in_app_iff.
  split; [|now left]. intros [Hx | Hr].
  - exact Hx.
  - destruct (doomed_behind _ _ _ _ Hr) as (j & rest' & Hj & Heq).
    apply app_inv_head in Heq. injection Heq as Heq _. lia.
Qed.

Lemma agreesFrom_tail (D : list Path) (here : Path) (i : nat) (x : Node)
  (r : list Node) :
  agreesFrom D here i (x :: r) -> agreesFrom D here (S i) r.
Proof.
  intros Hagree j rest Hj.
  rewrite (Hagree j rest) by lia.
  rewrite doomedChildren_cons, in_app_iff.
  split; [|now right]. intros [Hx | Hr]; [|exact Hr].
  destruct (doomed_below _ _ _ Hx) as [rest' Heq].
  rewrite <- app_assoc in Heq. apply app_inv_head in Heq.
  injection Heq as Heq _. lia.
Qed.

Lemma pruneChildren_kept (D : list Path) (l : list Node) :
  Forall (fun n => forall p, agreesAt D p n ->
            (if existsb (path_eqb p) D then [] else [pruneNode D p n])
            = kept n) l ->
  forall (here : Path) (i : nat),
    agreesFrom D here i l ->
    pruneChildren (pruneNode D) D here i l = flat_map kept l.
Proof.
  induction 1 as [|x r Hx _ IHr]; intros here i Hagree; [reflexivity|].
  cbn [pruneChildren flat_map].
  rewrite <- (Hx _ (agreesFrom_head _ _ _ _ _ Hagree)).
  rewrite <- (IHr _ _ (agreesFrom_tail _ _ _ _ _ Hagree)).
  now destruct (existsb _ D).
Qed.

Lemma pruneNode_kept (D : list Path) (n : Node) :
  forall p : Path,
    agreesAt D p n ->
    (if existsb (path_eqb p) D then [] else [pruneNode D p n]) = kept n.
Proof.
  induction n as [d | name attrs ch IH] using Node_induction;
    intros p Hagree.
  - destruct (existsb (path_eqb p) D) eqn:Hin; [|reflexivity].
    apply existsb_path in Hin. rewrite <- (app_nil_r p) in Hin.
    apply Hagree in Hin. destruct Hin.
  - pose proof (doomedNode_element p name attrs ch) as Hdoomed.
    cbn [kept].
    set (n := Element name attrs ch) in *.
    destruct (isBlankText n) eqn:Hblank.
    + rewrite andb_true_r in Hdoomed.
      destruct (existsb (String.eqb name) ["p"; "div"]) eqn:Hname.
      * (* rejected by the callback *)
        assert (Hnone : forall rest, ~ In (p ++ rest)%list D).
        { intros rest Hin. apply Hagree in Hin.
          now rewrite Hdoomed in Hin. }
        destruct (existsb (path_eqb p) D) eqn:Hin.
        -- apply existsb_path in Hin. rewrite <- (app_nil_r p) in Hin.
           now elim (Hnone []).
        -- now rewrite (pruneNode_untouched D n p Hnone).
      * (* returned and collected *)
        replace (existsb (path_eqb p) D) with true; [reflexivity|].
        symmetry. apply existsb_path. rewrite <- (app_nil_r p).
        apply Hagree. rewrite Hdoomed, app_nil_r. now left.
    + (* returned, with text *)
      rewrite andb_false_r in Hdoomed. cbn [app] in Hdoomed.
      destruct (existsb (path_eqb p) D) eqn:Hin.
      * apply existsb_path in Hin. rewrite <- (app_nil_r p) in Hin.
        apply Hagree in Hin. rewrite Hdoomed in Hin.
        destruct (doomed_behind _ _ _ _ Hin) as (j & rest & _ & Heq).
        apply app_inv_head in Heq. discriminate Heq.
      * unfold n. cbn [pruneNode]. do 2 f_equal.
        apply pruneChildren_kept; [exact IH|].
        intros j rest _. rewrite (Hagree (j :: rest)).
        now rewrite Hdoomed.
Qed.

(** The TreeWalker pass, by recursion on the tree. *)
Lemma normalize_kept (body : list Node) :
  normalize body = flat_map kept body.
Proof.
  unfold normalize, removeAll, elementsToRemove, treeWalker.
  apply (pruneChildren_kept (doomedChildren [] 0 body)).
  - apply Forall_forall. intros n _ p. apply pruneNode_kept.
  - intros j rest _. reflexivity.
Qed.

(** *** Text and white space *)

Lemma visible_append (a b : string) :
  visible (a ++ b) = visible a ++ visible b.
Proof.
  induction a as [|c a IH]; [reflexivity|]. cbn [String.append visible].
  destruct (isWhiteSpace c); [exact IH | now rewrite IH].
Qed.

Lemma visible_trimStart (s : string) : visible (trimStart s) = visible s.
Proof.
  induction s as [|c s IH]; [reflexivity|]. cbn [trimStart visible].
  destruct (isWhiteSpace c) eqn:Hc; [exact IH|].
  cbn [visible]. now rewrite Hc.
Qed.

Lemma visible_cons (c : ascii) (s : string) :
  visible (String c s) =
  if isWhiteSpace c then visible s else String c (visible s).
Proof. reflexivity. Qed.

Lemma visible_trimEnd (s : string) : visible (trimEnd s) = visible s.
Proof.
  induction s as [|c s IH]; [reflexivity|]. cbn [trimEnd].
  rewrite (visible_cons c s), <- IH.
  destruct (trimEnd s) as [|d t].
  - destruct (isWhiteSpace c) eqn:Hc; [reflexivity|].
    now rewrite visible_cons, Hc.
  - now rewrite visible_cons.
Qed.

Lemma visible_trim (s : string) : visible (trim s) = visible s.
Proof. unfold trim. now rewrite visible_trimEnd, visible_trimStart. Qed.

(** A text is blank for the pass exactly when it has no code unit besides
    white space. *)
Lemma blank_visible (s : string) :
  String.eqb (trim s) EmptyString = String.eqb (visible s) EmptyString.
Proof.
  rewrite <- (visible_trim s).
  assert (Hfirst : firstIs isWhiteSpace (trim s) = false)
    by apply firstIs_trimEnd, firstIs_trimStart.
  destruct (trim s) as [|c t] eqn:Htrim; [reflexivity|].
  cbn [firstIs] in Hfirst. cbn [visible]. now rewrite Hfirst.
Qed.

Lemma bodyText_app (a b : list Node) :
  bodyText (a ++ b) = bodyText a ++ bodyText b.
Proof.
  unfold bodyText. induction a as [|x a IH]; [reflexivity|].
  cbn [app concatMap]. fold (concatMap textContent).
  now rewrite IH, append_assoc.
Qed.

Lemma append_empty (s : string) : s ++ EmptyString = s.
Proof. induction s as [|c s IH]; simpl; [reflexivity | now rewrite IH]. Qed.

Lemma bodyText_single (n : Node) : bodyText [n] = textContent n.
Proof. unfold bodyText. cbn [concatMap]. apply append_empty. Qed.

Lemma bodyText_cons (n : Node) (l : list Node) :
  bodyText (n :: l) = textContent n ++ bodyText l.
Proof. reflexivity. Qed.

Lemma flat_map_kept_visible (l : list Node) :
  Forall (fun n => visible (bodyText (kept n)) = visible (textContent n)) l ->
  visible (bodyText (flat_map kept l)) = visible (bodyText l).
Proof.
  induction 1 as [|x r Hx _ IHr]; [reflexivity|].
  cbn [flat_map]. rewrite bodyText_app, bodyText_cons, !visible_append.
  now rewrite Hx, IHr.
Qed.

Lemma kept_visible (n : Node) :
  visible (bodyText (kept n)) = visible (textContent n).
Proof.
  induction n as [d | name attrs ch IH] using Node_induction.
  - cbn [kept]. now rewrite bodyText_single.
  - cbn [kept]. destruct (isBlankText (Element name attrs ch)) eqn:Hblank.
    + destruct (existsb (String.eqb name) ["p"; "div"]);
        [now rewrite bodyText_single|].
      unfold isBlankText in Hblank. rewrite blank_visible in Hblank.
      apply String.eqb_eq in Hblank. now rewrite Hblank.
    + rewrite bodyText_single. cbn [textContent].
      apply (flat_map_kept_visible ch IH).
Qed.

(** X11.  The TreeWalker pass changes the text of the document by white space
    only: the code units of [body.textContent] that are no white space
    are the same, in the same order, before and after the pass. *)
Theorem normalize_keeps_the_visible_text :
  forall body : list Node,
    visible (bodyText (normalize body)) = visible (bodyText body).
Proof.
  intros body. rewrite normalize_kept. apply flat_map_kept_visible.
  apply Forall_forall. intros n _. apply kept_visible.
Qed.

Lemma kept_element_blank (name : string) (attrs : list (string * string))
  (ch : list Node) :
  isBlankText (Element name attrs (flat_map kept ch)) =
  isBlankText (Element name attrs ch).
Proof.
  unfold isBlankText. rewrite !blank_visible. cbn [textContent]. f_equal.
  apply (flat_map_kept_visible ch).
  apply Forall_forall. intros x _. apply kept_visible.
Qed.

Lemma flat_map_kept_twice (l : list Node) :
  Forall (fun n => flat_map kept (kept n) = kept n) l ->
  flat_map kept (flat_map kept l) = flat_map kept l.
Proof.
  induction 1 as [|x r Hx _ IHr]; [reflexivity|].
  cbn [flat_map]. now rewrite flat_map_app, Hx, IHr.
Qed.

Lemma kept_twice (n : Node) : flat_map kept (kept n) = kept n.
Proof.
  induction n as [d | name attrs ch IH] using Node_induction;
    [reflexivity|].
  cbn [kept]. destruct (isBlankText (Element name attrs ch)) eqn:Hblank.
  - destruct (existsb (String.eqb name) ["p"; "div"]) eqn:Hname;
      [|reflexivity].
    cbn [flat_map kept]. now rewrite Hblank, Hname.
  - cbn [flat_map kept]. rewrite app_nil_r.
    rewrite kept_element_blank, Hblank.
    now rewrite (flat_map_kept_twice ch IH).
Qed.

(** X12.  The TreeWalker pass is idempotent: a second pass over the document
    removes nothing more. *)
Theorem normalize_is_idempotent :
  forall body : list Node, normalize (normalize body) = normalize body.
Proof.
  intros body. rewrite !normalize_kept. apply flat_map_kept_twice.
  apply Forall_forall. intros n _. apply kept_twice.
Qed.

Lemma flat_map_kept_settled (l : list Node) :
  Forall (fun n => forallb settled (kept n) = true) l ->
  forallb settled (flat_map kept l) = true.
Proof.
  induction 1 as [|x r Hx _ IHr]; [reflexivity|].
  cbn [flat_map]. now rewrite forallb_app, Hx, IHr.
Qed.

Lemma kept_settled (n : Node) : forallb settled (kept n) = true.
Proof.
  induction n as [d | name attrs ch IH] using Node_induction;
    [reflexivity|].
  cbn [kept]. destruct (isBlankText (Element name attrs ch)) eqn:Hblank.
  - destruct (existsb (String.eqb name) ["p"; "div"]) eqn:Hname;
      [|reflexivity].
    cbn [forallb settled]. now rewrite Hblank, Hname.
  - cbn [forallb settled]. rewrite kept_element_blank, Hblank.
    now rewrite (flat_map_kept_settled ch IH).
Qed.

(** X13.  After the TreeWalker pass, an element without text is a [p] or a
    [div], or lies inside a [p] or a [div] without text: these the pass
    leaves, every other element without text it removes. *)
Theorem normalize_leaves_text_and_blank_blocks :
  forall body : list Node, forallb settled (normalize body) = true.
Proof.
  intros body. rewrite normalize_kept. apply flat_map_kept_settled.
  apply Forall_forall. intros n _. apply kept_settled.
Qed.

(** ** The node: what counts as HTML *)

Import Data HtmlToMarkdownNode.

Lemma allChars_impl (f g : ascii -> bool) (s : string) :
  (forall c, f c = true -> g c = true) ->
  allChars f s = true -> allChars g s = true.
Proof.
  intros Hfg. induction s as [|c s IH]; [reflexivity|]. cbn [allChars].
  intros Hs. apply andb_prop in Hs as [Hc Hs]. now rewrite (Hfg c Hc), IH.
Qed.

(** A pattern that starts with a code unit of a class matches nowhere in
    a text without such a code unit. *)
Lemma search_without_first (f : ascii -> bool) (p : Pattern) (s : string) :
  allChars (fun c => negb (f c)) s = true ->
  search (Once f :: p) s = false.
Proof.
  induction s as [|c s IH]; [reflexivity|]. cbn [allChars].
  intros Hs. apply andb_prop in Hs as [Hc Hs].
  apply negb_true_iff in Hc. cbn [search]. rewrite matchAt_once, Hc.
  now apply IH.
Qed.

Lemma without_code_unit (c : ascii) (s : string) :
  includes (String c EmptyString) s = false ->
  allChars (fun d => negb (just c d)) s = true.
Proof.
  induction s as [|d s IH]; [reflexivity|].
  cbn [includes startsWith allChars]. unfold just at 1.
  intros Hs. apply orb_false_iff in Hs as [Hd Hs].
  rewrite andb_true_r in Hd. now rewrite Hd, IH.
Qed.

Lemma commonElement_first (p : Pattern) :
  In p commonElement -> exists q, p = Once (just "<") :: q.
Proof.
  unfold commonElement. cbn [map app].
  intros Hp. repeat (destruct Hp as [<- | Hp]; [eexists; reflexivity|]).
  destruct Hp.
Qed.

Lemma commonElement_without_tag (s : string) :
  allChars (fun d => negb (just "<" d)) s = true ->
  existsb (fun p => search p s) commonElement = false.
Proof.
  intros Hs. apply not_true_is_false. intros Hex.
  apply existsb_exists in Hex as (p & Hp & Hsearch).
  destruct (commonElement_first p Hp) as [q ->].
  now rewrite search_without_first in Hsearch.
Qed.

(** *** Simple property names *)

Lemma tries_found (continue : string -> bool) (min : nat) (s : string)
  (extra : nat) :
  tries continue min s extra = true ->
  exists k, k <= min + extra /\ continue (skip k s) = true.
Proof.
  induction extra as [|extra IH]; cbn [tries]; intros Ht;
    apply orb_prop in Ht as [Ht | Ht].
  - now exists (min + 0).
  - discriminate Ht.
  - now exists (min + S extra).
  - destruct (IH Ht) as (k & Hk & Hc). exists k. split; [lia | exact Hc].
Qed.

Lemma length_takeWhile (f : ascii -> bool) (s : string) :
  String.length (takeWhile f s) <= String.length s.
Proof.
  induction s as [|c s IH]; [apply le_n|]. cbn [takeWhile].
  destruct (f c); simpl; lia.
Qed.

Lemma takeWhile_all (f : ascii -> bool) (s : string) :
  String.length s <= String.length (takeWhile f s) -> allChars f s = true.
Proof.
  induction s as [|c s IH]; [reflexivity|]. cbn [takeWhile allChars].
  destruct (f c); simpl; [|lia]. intros Hs. apply IH. lia.
Qed.

Lemma skip_empty (k : nat) (s : string) :
  skip k s = EmptyString -> String.length s <= k.
Proof.
  revert s; induction k as [|k IH]; intros [|c s]; simpl; try lia.
  - discriminate.
  - intros Hs. apply IH in Hs. lia.
Qed.

Lemma simpleName_chars (s : string) :
  matchesAll simpleName s = true -> allChars nameChar s = true.
Proof.
  unfold simpleName. destruct s as [|c s]; [discriminate|].
  cbn [matchesAll]. intros Hs. apply andb_prop in Hs as [Hc Hs].
  cbn [Nat.leb andb] in Hs.
  apply tries_found in Hs as (k & Hk & Hend).
  apply String.eqb_eq, skip_empty in Hend.
  cbn [allChars]. rewrite takeWhile_all by lia. rewrite andb_true_r.
  unfold nameStart in Hc. unfold nameChar.
  apply orb_prop in Hc as [Hc | Hc];
    [apply orb_prop in Hc as [Hc | Hc]|]; rewrite Hc;
    now rewrite ?orb_true_r.
Qed.

Lemma nameChar_is_no_markup (c : ascii) :
  nameChar c = true -> just "<" c = false /\ just "&" c = false.
Proof.
  intros Hc. unfold just.
  split; apply not_true_is_false; intros Heq; apply Ascii.eqb_eq in Heq;
    subst c; vm_compute in Hc; discriminate Hc.
Qed.

(** X14.  Whether a text is taken for HTML does not depend on the JSON data of
    the item, nor on what objects inherit: the test that looks the text
    up in the data never decides. *)
Theorem isHtmlContent_ignores_the_json :
  forall (P P' : Prototypes) (textPropertyName jsonData jsonData' : Json),
    isHtmlContent P textPropertyName jsonData =
    isHtmlContent P' textPropertyName jsonData'.
Proof.
  intros P P' [| | b | z | text | items | fields |] jsonData jsonData';
    try reflexivity.
  unfold isHtmlContent.
  destruct (String.length text <? 10)%nat; [reflexivity|].
  destruct (search htmlTag text &&
            (existsb (fun p => search p text) commonElement ||
             search properStructure text)); [reflexivity|].
  destruct (search htmlEntity text || search htmlAttribute text);
    [reflexivity|].
  destruct (matchesAll simpleName text) eqn:Hsimple.
  - apply simpleName_chars in Hsimple.
    assert (Htag : search htmlTag text = false).
    { apply search_without_first.
      apply (allChars_impl nameChar); [|exact Hsimple].
      intros c Hc. now rewrite (proj1 (nameChar_is_no_markup c Hc)). }
    assert (Hentity : search htmlEntity text = false).
    { apply search_without_first.
      apply (allChars_impl nameChar); [|exact Hsimple].
      intros c Hc. now rewrite (proj2 (nameChar_is_no_markup c Hc)). }
    rewrite Htag, Hentity. cbn [orb]. rewrite !andb_false_r.
    now destruct (_ && _), (_ && _).
  - now rewrite !andb_false_r.
Qed.

(** X15.  A text of fewer than ten code units, and a text without any of [<],
    [&] and [=], is never taken for HTML: the node reads it as the name
    of a property. *)
Theorem isHtmlContent_needs_markup :
  forall (P : Prototypes) (text : string) (jsonData : Json),
    String.length text < 10 \/
    (includes "<" text = false /\ includes "&" text = false /\
     includes "=" text = false) ->
    isHtmlContent P (JString text) jsonData = false.
Proof.
  intros P text jsonData [Hshort | (Htag & Hentity & Hattr)];
    unfold isHtmlContent.
  - now destruct (Nat.ltb_spec (String.length text) 10); [|lia].
  - apply without_code_unit in Htag, Hentity, Hattr.
    destruct (String.length text <? 10)%nat; [reflexivity|].
    unfold htmlTag, properStructure, htmlEntity, htmlAttribute.
    rewrite !search_without_first by assumption.
    cbn [andb orb]. rewrite andb_false_r.
    now destruct (_ && _).
Qed.

(** *** Tags that are recognised *)

Lemma search_here (p : Pattern) (s : string) :
  search p s =
  match matchAt p s with
  | Some _ => true
  | None =>
      match s with
      | EmptyString => false
      | String _ r => search p r
      end
  end.
Proof. now destruct s. Qed.

Lemma search_at (p : Pattern) (a m : string) :
  matchAt p m <> None -> search p (a ++ m) = true.
Proof.
  intros Hm. induction a as [|c a IH]; cbn [String.append];
    rewrite search_here.
  - now destruct (matchAt p m).
  - now destruct (matchAt p (String c (a ++ m))).
Qed.

Lemma takeWhile_append (f : ascii -> bool) (x y : string) :
  allChars f x = true -> takeWhile f (x ++ y) = x ++ takeWhile f y.
Proof.
  induction x as [|c x IH]; [reflexivity|]. cbn [allChars String.append].
  intros Hx. apply andb_prop in Hx as [Hc Hx].
  cbn [takeWhile]. now rewrite Hc, IH.
Qed.

Lemma dropWhile_append (f : ascii -> bool) (x y : string) :
  allChars f x = true -> dropWhile f (x ++ y) = dropWhile f y.
Proof.
  induction x as [|c x IH]; [reflexivity|]. cbn [allChars String.append].
  intros Hx. apply andb_prop in Hx as [Hc Hx].
  cbn [dropWhile]. now rewrite Hc, IH.
Qed.

(** A [<], code units other than [>], at least one, and a [>] are a
    tag. *)
Lemma htmlTag_matches (inside after : string) :
  allChars (anyBut ">") inside = true -> inside <> EmptyString ->
  matchAt htmlTag ("<" ++ inside ++ ">" ++ after) <> None.
Proof.
  intros Hinside Hne. unfold htmlTag. cbn [String.append].
  rewrite matchAt_once. change (just "<" "<") with true. cbv iota.
  assert (Hdrop : dropWhile (anyBut ">") (inside ++ String ">" after)
                  = String ">" after)
    by now rewrite dropWhile_append.
  rewrite matchAt_run_then; rewrite Hdrop.
  - rewrite takeWhile_append by exact Hinside. cbn [takeWhile].
    change (anyBut ">" ">") with false. cbv iota.
    rewrite length_append. cbn [String.length].
    destruct inside as [|c inside]; [now elim Hne|].
    cbn [String.length Nat.add Nat.leb]. now rewrite matchAt_once.
  - now rewrite matchAt_once.
Qed.

Lemma word_matches (w t : string) :
  matchAt (word (toLowerCase w)) (w ++ t) <> None.
Proof.
  induction w as [|c w IH]; [discriminate|].
  unfold toLowerCase in *. cbn [mapChars word String.append].
  rewrite matchAt_once. unfold ignoreCase at 1. rewrite Ascii.eqb_refl.
  now destruct (matchAt (word (mapChars lowerChar w)) (w ++ t)) as [[ms r]|].
Qed.

Lemma lowerChar_keeps_the_bracket (c : ascii) :
  anyBut ">" (lowerChar c) = anyBut ">" c.
Proof. destruct c as [[|] [|] [|] [|] [|] [|] [|] [|]]; reflexivity. Qed.

Lemma toLowerCase_keeps_the_bracket (w : string) :
  allChars (anyBut ">") (toLowerCase w) = allChars (anyBut ">") w.
Proof.
  unfold toLowerCase. induction w as [|c w IH]; [reflexivity|].
  cbn [mapChars allChars]. now rewrite lowerChar_keeps_the_bracket, IH.
Qed.

(** X16.  A text of at least ten code units that holds a tag with one of these
    element names, in any letter case and with or without attributes, is
    taken for HTML, whatever else it holds. *)
Theorem isHtmlContent_accepts_common_tags :
  forall (P : Prototypes) (before name attributes after : string)
         (jsonData : Json),
    let text := before ++ "<" ++ name ++ attributes ++ ">" ++ after in
    In (toLowerCase name)
      ["html"; "head"; "body"; "div"; "p"; "span"; "table"; "ul"; "ol";
       "li"; "a"; "img"; "br"; "hr"] ->
    allChars (anyBut ">") attributes = true ->
    10 <= String.length text ->
    isHtmlContent P (JString text) jsonData = true.
Proof.
  intros P before name attributes after jsonData text Hname Hattrs Hlong.
  assert (Hletters : allChars (anyBut ">") name = true /\
                     name <> EmptyString).
  { rewrite <- toLowerCase_keeps_the_bracket. split.
    - repeat (destruct Hname as [<- | Hname]; [reflexivity|]).
      destruct Hname.
    - intros ->. cbn in Hname.
      repeat (destruct Hname as [Heq | Hname]; [discriminate Heq|]).
      destruct Hname. }
  destruct Hletters as [Hletters Hne].
  assert (Htag : search htmlTag text = true).
  { unfold text. apply search_at.
    rewrite <- (append_assoc name attributes).
    apply htmlTag_matches.
    - rewrite allChars_append. now rewrite Hletters, Hattrs.
    - destruct name; [now elim Hne | discriminate]. }
  assert (Hcommon : existsb (fun p => search p text) commonElement = true).
  { apply existsb_exists.
    exists (Once (just "<") :: word (toLowerCase name)). split.
    - unfold commonElement. cbn [map app].
      repeat (destruct Hname as [<- | Hname];
              [repeat (try (left; reflexivity); right)|]).
      destruct Hname.
    - unfold text. apply search_at. cbn [String.append].
      rewrite matchAt_once. change (just "<" "<") with true. cbv iota.
      pose proof (word_matches name (attributes ++ ">" ++ after)) as Hword.
      now destruct (matchAt (word (toLowerCase name)) _) as [[ms r]|]. }
  unfold isHtmlContent. fold text.
  destruct (Nat.ltb_spec (String.length text) 10); [lia|].
  now rewrite Htag, Hcommon.
Qed.

(** ** The node: reading the text *)







Lemma nonEmpty_trim (s : string) :
  nonEmpty (trim s) = true -> nonEmpty s = true.
Proof. now destruct s. Qed.

Lemma textSource_not_blank (P : Prototypes) (i : nat)
  (textPropertyName : string) (json : Json) (html : string) :
  textSource P i textPropertyName json = Normal html ->
  nonEmpty (trim html) = true.
Proof.
  unfold textSource.
  destruct (negb (truthy json) || negb (String.eqb (typeof json) "object"));
    [discriminate|].
  destruct (if isHtmlContent P (JString textPropertyName) json
            then Normal textPropertyName
            else lookedUp P i textPropertyName json) as [text|];
    cbn [Js.bind]; [|discriminate].
  destruct (nonEmpty (trim text)) eqn:Htext; cbn [negb]; [|discriminate].
  now intros [= <-].
Qed.

(** X18.  When the source is the text field and the node gets HTML to convert,
    that HTML has a code unit that is no white space, and it is the
    parameter itself or a string that the JSON data holds under the path
    the parameter names or under one of the seven common paths. *)
Theorem textSource_gives_text_of_the_item :
  forall (P : Prototypes) (i : nat) (textPropertyName : string)
         (json : Json) (html : string),
    textSource P i textPropertyName json = Normal html ->
    nonEmpty (trim html) = true /\
    (html = textPropertyName \/
     exists path,
       In path (textPropertyName :: commonProperties) /\
       getNestedProperty P json path = JString html).
Proof.
  intros P i name json html. unfold textSource.
  destruct (negb (truthy json) || negb (String.eqb (typeof json) "object"));
    [discriminate|].
  destruct (isHtmlContent P (JString name) json).
  - cbn [Js.bind]. destruct (nonEmpty (trim name)) eqn:Hname;
      cbn [negb]; [|discriminate].
    intros [= <-]. split; [exact Hname | now left].
  - unfold lookedUp.
    destruct (isNullish (getNestedProperty P json name)) eqn:Hnamed.
    + destruct (find (holdsText P json) commonProperties) as [found|]
        eqn:Hfind.
      * apply find_some in Hfind as [Hin Hholds]. unfold holdsText in Hholds.
        destruct (getNestedProperty P json found) as [| | | | s | | |]
          eqn:Hfound; try discriminate Hholds.
        cbn [isNullish Js.bind].
        destruct (nonEmpty (trim s)) eqn:Hs; cbn [negb]; [|discriminate].
        intros [= <-]. split; [exact Hs|]. right. exists found.
        split; [now right | exact Hfound].
      * rewrite Hnamed. discriminate.
    + rewrite Hnamed.
      destruct (getNestedProperty P json name) as [| | | | s | | |]
        eqn:Hvalue; try discriminate.
      cbn [Js.bind].
      destruct (nonEmpty (trim s)) eqn:Hs; cbn [negb]; [|discriminate].
      intros [= <-]. split; [exact Hs|]. right. exists name.
      split; [now left | exact Hvalue].
Qed.

(** X19.  A value that is there wins: when the text is not taken for HTML and
    the property it names is neither [undefined] nor [null], the common
    properties are not read.  A string with a code unit that is no white
    space is the HTML; anything else is an error, also when a common
    property holds HTML. *)
Theorem textSource_reads_the_named_property_first :
  forall (P : Prototypes) (i : nat) (textPropertyName : string)
         (json value : Json),
    truthy json = true -> typeof json = "object" ->
    isHtmlContent P (JString textPropertyName) json = false ->
    getNestedProperty P json textPropertyName = value ->
    isNullish value = false ->
    (forall html, value = JString html -> nonEmpty (trim html) = true ->
                  textSource P i textPropertyName json = Normal html) /\
    ((forall html, value = JString html -> nonEmpty (trim html) = false) ->
     raises (textSource P i textPropertyName json)).
Proof.
  intros P i name json value Htruthy Htype Hlooks Hvalue Hthere.
  unfold textSource, lookedUp.
  rewrite Htruthy, Htype, Hlooks, Hvalue, Hthere.
  replace (negb true || negb (String.eqb "object" "object")) with false
    by reflexivity.
  cbv beta iota. rewrite Hthere. split.
  - intros html -> Htext. cbn [Js.bind]. now rewrite Htext.
  - intros Hother.
    destruct value as [| | b | z | s | items | fields |];
      try (eexists; reflexivity).
    cbn [Js.bind]. rewrite (Hother s eq_refl). eexists; reflexivity.
Qed.

(** X20.  When the text is not taken for HTML and names nothing, the HTML is
    the string under the first common path that holds one with a code
    unit that is no white space; when there is no such path, the node
    fails. *)
Theorem textSource_falls_back_to_the_common_properties :
  forall (P : Prototypes) (i : nat) (textPropertyName : string)
         (json : Json),
    truthy json = true -> typeof json = "object" ->
    isHtmlContent P (JString textPropertyName) json = false ->
    isNullish (getNestedProperty P json textPropertyName) = true ->
    match find (holdsText P json) commonProperties with
    | Some path =>
        exists html, getNestedProperty P json path = JString html /\
                     textSource P i textPropertyName json = Normal html
    | None => raises (textSource P i textPropertyName json)
    end.
Proof.
  intros P i name json Htruthy Htype Hlooks Hmissing.
  unfold textSource, lookedUp.
  rewrite Htruthy, Htype, Hlooks, Hmissing.
  replace (negb true || negb (String.eqb "object" "object")) with false
    by reflexivity.
  destruct (find (holdsText P json) commonProperties) as [found|] eqn:Hfind.
  - apply find_some in Hfind as [_ Hholds]. unfold holdsText in Hholds.
    destruct (getNestedProperty P json found) as [| | | | s | | |];
      try discriminate Hholds.
    exists s. split; [reflexivity|]. cbn [isNullish Js.bind].
    apply Nat.ltb_lt in Hholds.
    now rewrite (proj2 (nonEmpty_length _) Hholds).
  - rewrite Hmissing. eexists; reflexivity.
Qed.

(** X21.  Markdown that the node returns for a text item comes out of the
    pipeline: the guard of [htmlToMarkdown] against empty input is never
    what answers. *)
Theorem textToMarkdown_runs_the_pipeline :
  forall (P : Prototypes) (H : Host) (i : nat) (textPropertyName : string)
         (json : Json) (tables : bool) (limit : Z) (lineBreaks : bool)
         (markdown : string),
    textToMarkdown P H i textPropertyName json tables limit lineBreaks
      = Normal markdown ->
    exists html cleaned,
      textSource P i textPropertyName json = Normal html /\
      convert H (capInput limit html)
        {| preserveTables := Some tables;
           maxLength := Some limit;
           includeImageAlt := None;
           allowedDomains := None;
           preserveLineBreaks := Some lineBreaks |}
        = Normal cleaned /\
      markdown = applyLimit limit cleaned.
Proof.
  intros P H i name json tables limit breaks markdown. unfold textToMarkdown.
  destruct (textSource P i name json) as [html|] eqn:Hsource;
    cbn [Js.bind]; [|discriminate].
  pose proof (textSource_not_blank _ _ _ _ _ Hsource) as Htext.
  apply nonEmpty_trim in Htext.
  unfold convertItem. rewrite htmlToMarkdown_string by exact Htext.
  cbn [maxLength orDefault].
  destruct (convert H (capInput limit html) _) as [cleaned|] eqn:Hconvert;
    cbn [Js.bind]; [|discriminate].
  intros [= <-]. now exists html, cleaned.
Qed.

(** ** The node with a conversion mode: the options of the custom mode *)

Import ConversionModeNode.

Lemma split_parts (sep : ascii) (s x : string) :
  In x (split sep s) -> allChars (fun c => negb (just sep c)) x = true.
Proof.
  revert x; induction s as [|c s IH]; intros x; cbn [split].
  - now intros [<- | []].
  - rewrite (Ascii.eqb_sym c sep). fold (just sep c).
    destruct (just sep c) eqn:Hc.
    + intros [<- | Hx]; [reflexivity | now apply IH].
    + destruct (split sep s) as [|y ys].
      * intros [<- | []]. cbn [allChars]. now rewrite Hc.
      * intros [<- | Hx].
        -- cbn [allChars]. rewrite Hc. apply IH. now left.
        -- apply IH. now right.
Qed.

Lemma allChars_trimStart (f : ascii -> bool) (s : string) :
  allChars f s = true -> allChars f (trimStart s) = true.
Proof.
  induction s as [|c s IH]; [reflexivity|]. cbn [trimStart].
  destruct (isWhiteSpace c); [|trivial].
  cbn [allChars]. intros Hs. apply andb_prop in Hs as [_ Hs]. now apply IH.
Qed.

Lemma allChars_trimEnd (f : ascii -> bool) (s : string) :
  allChars f s = true -> allChars f (trimEnd s) = true.
Proof.
  induction s as [|c s IH]; [reflexivity|]. cbn [allChars trimEnd].
  intros Hs. apply andb_prop in Hs as [Hc Hs]. specialize (IH Hs).
  destruct (trimEnd s) as [|d t].
  - destruct (isWhiteSpace c); [reflexivity|].
    cbn [allChars]. now rewrite Hc.
  - cbn [allChars] in *. now rewrite Hc.
Qed.

Lemma allChars_trim (f : ascii -> bool) (s : string) :
  allChars f s = true -> allChars f (trim s) = true.
Proof. intros Hs. now apply allChars_trimEnd, allChars_trimStart. Qed.

Lemma code_unit_not_included (c : ascii) (s : string) :
  allChars (fun d => negb (just c d)) s = true ->
  includes (String c EmptyString) s = false.
Proof.
  induction s as [|d s IH]; [reflexivity|].
  cbn [includes startsWith allChars]. unfold just at 1.
  intros Hs. apply andb_prop in Hs as [Hd Hs].
  apply negb_true_iff in Hd. now rewrite Hd, IH.
Qed.

(** X22.  Every domain that the custom mode passes on is a non-empty text
    without white space at its ends and without a comma. *)
Theorem parseAllowedDomains_gives_trimmed_names :
  forall (allowedDomainsStr domain : string),
    In domain (parseAllowedDomains allowedDomainsStr) ->
    domain <> EmptyString /\
    trim domain = domain /\
    includes "," domain = false.
Proof.
  intros text domain. unfold parseAllowedDomains.
  destruct (nonEmpty text); [|intros []].
  intros Hin. apply filter_In in Hin as [Hin Hne].
  apply in_map_iff in Hin as (part & <- & Hpart).
  split; [now destruct (trim part)|].
  split; [apply trim_fixed, trimmed_trim|].
  apply code_unit_not_included, allChars_trim.
  now apply (split_parts "," text).
Qed.

Lemma split_blank (s : string) :
  allChars (fun c => isWhiteSpace c || just "," c) s = true ->
  Forall (fun x => allChars isWhiteSpace x = true) (Data.split "," s).
Proof.
  induction s as [|c s IH]; cbn [allChars Data.split].
  - intros _. now constructor.
  - intros Hs. apply andb_prop in Hs as [Hc Hs]. specialize (IH Hs).
    rewrite (Ascii.eqb_sym c ","). fold (just "," c).
    destruct (just "," c).
    + now constructor.
    + rewrite orb_false_r in Hc.
      destruct (Data.split "," s) as [|y ys]; constructor;
        try (cbn [allChars]; rewrite Hc); try constructor.
      * now inversion IH.
      * now inversion IH.
Qed.

Lemma parseAllowedDomains_blank (s : string) :
  allChars (fun c => isWhiteSpace c || just "," c) s = true ->
  parseAllowedDomains s = [].
Proof.
  intros Hs. unfold parseAllowedDomains.
  destruct (nonEmpty s); [|reflexivity].
  induction (split_blank s Hs) as [|x xs Hx _ IH]; [reflexivity|].
  cbn [map filter]. now rewrite (trim_blank x Hx).
Qed.

(** X23.  An Allowed Domains text of commas and white space only is no filter:
    the custom mode passes no [allowedDomains], and the sanitizer's
    filter marks nothing. *)
Theorem blank_domain_text_is_no_filter :
  forall (H : Host) (tables alt lineBreaks : bool) (limit : Z)
         (allowedDomainsStr : string) (frame : SanitizeHtml.Frame),
    allChars (fun c => isWhiteSpace c || just "," c) allowedDomainsStr
    = true ->
    let options :=
      customOptions tables alt lineBreaks limit allowedDomainsStr in
    allowedDomains options = None /\
    exclusiveFilter H (orDefault [] (allowedDomains options)) frame = false.
Proof.
  intros H tables alt lineBreaks limit text frame Hblank options.
  assert (Hnone : allowedDomains options = None).
  { unfold options, customOptions. cbn [allowedDomains].
    now rewrite (parseAllowedDomains_blank text Hblank). }
  split; [exact Hnone|]. now rewrite Hnone.
Qed.

(** X24.  The custom mode with the settings the node shows at first (no
    tables, image alt text, no line breaks, no domains) and a
    [maxLength] of zero or below converts like the default mode. *)
Theorem custom_mode_with_its_defaults_is_the_default_mode :
  forall (H : Host) (html : Js.Value) (limit : Z),
    (limit <= 0)%Z ->
    htmlToMarkdown H html (customOptions false true false limit EmptyString)
    = htmlToMarkdownSimple H html.
Proof.
  intros H html limit Hlimit. unfold htmlToMarkdownSimple, customOptions.
  destruct (Z.ltb_spec 0 limit); [lia|]. reflexivity.
Qed.

(** ** Instances of the further properties *)

(** Leading and trailing spaces and four LF in a row. *)
Lemma cleanup_without_empty_links_is_trimmed_witness :
  hasEmptyLink ("  a" ++ LF3 ++ LF1 ++ "b  c ") = false /\
  trim (cleanup ("  a" ++ LF3 ++ LF1 ++ "b  c "))
    = cleanup ("  a" ++ LF3 ++ LF1 ++ "b  c ") /\
  includes LF3 (cleanup ("  a" ++ LF3 ++ LF1 ++ "b  c ")) = false.
Proof.
  split; [reflexivity|].
  apply (cleanup_without_empty_links_is_trimmed
           ("  a" ++ LF3 ++ LF1 ++ "b  c ")).
  reflexivity.
Defined.

(** A heading right below a line of text. *)
Lemma cleanup_puts_a_blank_line_before_a_hash_witness :
  hasEmptyLink ("a" ++ LF1 ++ "# b") = false /\
  isLF "a" = false /\
  includes (String "a" (String LF "#")) (cleanup ("a" ++ LF1 ++ "# b"))
    = false.
Proof.
  split; [reflexivity|]. split; [reflexivity|].
  apply (cleanup_puts_a_blank_line_before_a_hash ("a" ++ LF1 ++ "# b") "a");
    reflexivity.
Defined.

(** A list item after a blank line. *)
Lemma cleanup_leaves_no_blank_line_before_a_marker_witness :
  hasEmptyLink ("a" ++ LF1 ++ LF1 ++ "- b") = false /\
  isWhiteSpace "a" = false /\
  isListMarker "-" = true /\
  includes (String "a" (String LF (String LF "-")))
    (cleanup ("a" ++ LF1 ++ LF1 ++ "- b")) = false.
Proof.
  split; [reflexivity|]. split; [reflexivity|]. split; [reflexivity|].
  apply (cleanup_leaves_no_blank_line_before_a_marker
           ("a" ++ LF1 ++ LF1 ++ "- b") "a" "-"); reflexivity.
Defined.

(** A paragraph cut at five code units. *)
Lemma htmlToMarkdown_limit_only_cuts_witness :
  (0 < 5)%Z /\
  (Z.of_nat (String.length "<p>Hello world</p>") <= 5 * 10)%Z /\
  htmlToMarkdown Reference.host (Str "<p>Hello world</p>")
    (withMaxLength (Some 5%Z) noOptions) =
  (markdown <- htmlToMarkdown Reference.host (Str "<p>Hello world</p>")
                 (withMaxLength None noOptions) ;;
   Normal (applyLimit 5 markdown)).
Proof.
  split; [reflexivity|]. split; [simpl; lia|].
  apply (htmlToMarkdown_limit_only_cuts Reference.host
           "<p>Hello world</p>" noOptions 5); [reflexivity | simpl; lia].
Defined.

(** A negative limit. *)
Lemma htmlToMarkdown_without_positive_limit_witness :
  (-1 <= 0)%Z /\
  htmlToMarkdown Reference.host (Str "<p>Hello world</p>")
    (withMaxLength (Some (-1)%Z) noOptions) =
  htmlToMarkdown Reference.host (Str "<p>Hello world</p>")
    (withMaxLength None noOptions).
Proof.
  split; [discriminate|].
  apply (htmlToMarkdown_without_positive_limit Reference.host
           (Str "<p>Hello world</p>") noOptions (-1)).
  discriminate.
Defined.

(** A short mail. *)
Lemma emailToMarkdown_is_capped_and_bounded_witness :
  emailToMarkdown Reference.host (Str "<p>x</p>") = Normal "x" /\
  (Z.of_nat (String.length "x") <= 10003)%Z.
Proof.
  split; [vm_compute; reflexivity|].
  apply (proj2 (emailToMarkdown_is_capped_and_bounded Reference.host
                  "<p>x</p>") "x").
  vm_compute; reflexivity.
Defined.

(** A short mail, converted both ways. *)
Lemma emailToMarkdown_is_the_simple_conversion_cut_witness :
  (Z.of_nat (String.length "<p>x</p>") <= 100000)%Z /\
  emailToMarkdown Reference.host (Str "<p>x</p>") =
  (markdown <- htmlToMarkdownSimple Reference.host (Str "<p>x</p>") ;;
   Normal (applyLimit 10000 markdown)).
Proof.
  split; [simpl; lia|].
  apply (emailToMarkdown_is_the_simple_conversion_cut Reference.host
           "<p>x</p>").
  simpl; lia.
Defined.

(** An anchor to a host that is not allowed. *)
Lemma exclusiveFilter_marks_only_anchors_witness :
  exclusiveFilter Reference.host ["a.com"]
    {| SanitizeHtml.tag := "a";
       SanitizeHtml.attribs := [("href", "https://b.com/x")] |} = true /\
  ["a.com"] <> [] /\
  exists href : string,
    lookupAttr "href" [("href", "https://b.com/x")] = Some href /\
    href <> EmptyString /\
    (raises (newURL Reference.host href) \/
     exists url, newURL Reference.host href = Normal url /\
                 arrayIncludes (Url.hostname url) ["a.com"] = false).
Proof.
  split; [vm_compute; reflexivity|].
  destruct (exclusiveFilter_marks_only_anchors Reference.host ["a.com"]
              {| SanitizeHtml.tag := "a";
                 SanitizeHtml.attribs := [("href", "https://b.com/x")] |})
    as (Hdomains & _ & Hhref).
  - vm_compute; reflexivity.
  - split; [exact Hdomains | exact Hhref].
Defined.

(** A redirect link that is unwrapped. *)
Lemma emailLinks_follows_the_destination_parameter_witness :
  getAttribute "href" (Element "a" [("href", redirectLink)] [Text "here"])
    = Some redirectLink /\
  redirectLink <> EmptyString /\
  emailLinksReplacement Reference.host "here"
    (Element "a" [("href", redirectLink)] [Text "here"])
    = inlineLink "here" "https://real.example".
Proof.
  split; [reflexivity|]. split; [discriminate|].
  apply (proj1 (emailLinks_follows_the_destination_parameter
                  Reference.host "here" redirectLink
                  (Element "a" [("href", redirectLink)] [Text "here"])
                  {| Url.hostname := "r.example";
                     Url.searchParams :=
                       [("destination", "https://real.example")] |}
                  eq_refl ltac:(discriminate) ltac:(vm_compute; reflexivity))
           "https://real.example" "https://real.example").
  - reflexivity.
  - discriminate.
  - vm_compute; reflexivity.
Defined.

(** A dotted path. *)
Lemma isHtmlContent_needs_markup_witness :
  (String.length "body.content" < 10 \/
   (includes "<" "body.content" = false /\
    includes "&" "body.content" = false /\
    includes "=" "body.content" = false)) /\
  isHtmlContent referencePrototypes (JString "body.content") mailItem
    = false.
Proof.
  assert (Hplain : String.length "body.content" < 10 \/
                   (includes "<" "body.content" = false /\
                    includes "&" "body.content" = false /\
                    includes "=" "body.content" = false)).
  { right. repeat split; reflexivity. }
  split; [exact Hplain|].
  exact (isHtmlContent_needs_markup referencePrototypes "body.content"
           mailItem Hplain).
Defined.

(** The content of the body of a mail. *)
Lemma textSource_gives_text_of_the_item_witness :
  textSource referencePrototypes 0 "body.content" mailItem
    = Normal "<p>Hello</p>" /\
  nonEmpty (trim "<p>Hello</p>") = true /\
  ("<p>Hello</p>" = "body.content" \/
   exists path,
     In path ("body.content" :: commonProperties) /\
     getNestedProperty referencePrototypes mailItem path
       = JString "<p>Hello</p>").
Proof.
  split; [vm_compute; reflexivity|].
  apply (textSource_gives_text_of_the_item referencePrototypes 0
           "body.content" mailItem "<p>Hello</p>").
  vm_compute; reflexivity.
Defined.

(** A body that is an object: an error, although [body.content] holds HTML. *)
Lemma textSource_reads_the_named_property_first_witness :
  truthy mailItem = true /\
  typeof mailItem = "object" /\
  isHtmlContent referencePrototypes (JString "body") mailItem = false /\
  isNullish (getNestedProperty referencePrototypes mailItem "body")
    = false /\
  raises (textSource referencePrototypes 0 "body" mailItem).
Proof.
  split; [reflexivity|]. split; [reflexivity|].
  split; [vm_compute; reflexivity|]. split; [vm_compute; reflexivity|].
  apply (proj2 (textSource_reads_the_named_property_first
                  referencePrototypes 0 "body" mailItem
                  (JObject [("content", JString "<p>Hello</p>")])
                  eq_refl eq_refl ltac:(vm_compute; reflexivity)
                  ltac:(vm_compute; reflexivity) eq_refl)).
  intros html [=].
Defined.

(** A name that the data does not have. *)
Lemma textSource_falls_back_to_the_common_properties_witness :
  truthy mailItem = true /\
  typeof mailItem = "object" /\
  isHtmlContent referencePrototypes (JString "nothing") mailItem = false /\
  isNullish (getNestedProperty referencePrototypes mailItem "nothing")
    = true /\
  exists html,
    getNestedProperty referencePrototypes mailItem "body.content"
      = JString html /\
    textSource referencePrototypes 3 "nothing" mailItem = Normal html.
Proof.
  split; [reflexivity|]. split; [reflexivity|].
  split; [vm_compute; reflexivity|]. split; [vm_compute; reflexivity|].
  exact (textSource_falls_back_to_the_common_properties
           referencePrototypes 3 "nothing" mailItem eq_refl eq_refl
           ltac:(vm_compute; reflexivity) ltac:(vm_compute; reflexivity)).
Defined.

(** A mail, from the data to the Markdown. *)
Lemma textToMarkdown_runs_the_pipeline_witness :
  textToMarkdown referencePrototypes Reference.host 0 "body.content"
    mailItem false 0 false = Normal "Hello" /\
  exists html cleaned,
    textSource referencePrototypes 0 "body.content" mailItem
      = Normal html /\
    convert Reference.host (capInput 0 html)
      {| preserveTables := Some false;
         maxLength := Some 0%Z;
         includeImageAlt := None;
         allowedDomains := None;
         preserveLineBreaks := Some false |} = Normal cleaned /\
    "Hello" = applyLimit 0 cleaned.
Proof.
  split; [vm_compute; reflexivity|].
  apply (textToMarkdown_runs_the_pipeline referencePrototypes
           Reference.host 0 "body.content" mailItem false 0 false "Hello").
  vm_compute; reflexivity.
Defined.

(** Two domains, white space and an empty entry. *)
Lemma parseAllowedDomains_gives_trimmed_names_witness :
  In "a.com" (parseAllowedDomains " a.com , ,b.org") /\
  "a.com" <> EmptyString /\
  trim "a.com" = "a.com" /\
  includes "," "a.com" = false.
Proof.
  assert (Hin : In "a.com" (parseAllowedDomains " a.com , ,b.org"))
    by (vm_compute; left; reflexivity).
  split; [exact Hin|].
  exact (parseAllowedDomains_gives_trimmed_names " a.com , ,b.org" "a.com"
           Hin).
Defined.

(** A comma between spaces. *)
Lemma blank_domain_text_is_no_filter_witness :
  allChars (fun c => isWhiteSpace c || just "," c) " , " = true /\
  allowedDomains (customOptions false true false 0 " , ") = None /\
  exclusiveFilter Reference.host
    (orDefault [] (allowedDomains (customOptions false true false 0 " , ")))
    {| SanitizeHtml.tag := "a";
       SanitizeHtml.attribs := [("href", "https://b.com/x")] |} = false.
Proof.
  split; [reflexivity|].
  exact (blank_domain_text_is_no_filter Reference.host false true false 0
           " , "
           {| SanitizeHtml.tag := "a";
              SanitizeHtml.attribs := [("href", "https://b.com/x")] |}
           eq_refl).
Defined.

(** The custom mode as the node shows it at first. *)
Lemma custom_mode_with_its_defaults_is_the_default_mode_witness :
  (0 <= 0)%Z /\
  htmlToMarkdown Reference.host (Str "<p>x</p>")
    (customOptions false true false 0 EmptyString)
  = htmlToMarkdownSimple Reference.host (Str "<p>x</p>").
Proof.
  split; [discriminate|].
  apply (custom_mode_with_its_defaults_is_the_default_mode Reference.host
           (Str "<p>x</p>") 0).
  discriminate.
Defined.

(** A paragraph with an attribute, in capital letters. *)
Lemma isHtmlContent_accepts_common_tags_witness :
  In (toLowerCase "P")
    ["html"; "head"; "body"; "div"; "p"; "span"; "table"; "ul"; "ol";
     "li"; "a"; "img"; "br"; "hr"] /\
  allChars (anyBut ">") " class=x" = true /\
  10 <= String.length ("" ++ "<" ++ "P" ++ " class=x" ++ ">" ++ "Hi</P>") /\
  isHtmlContent referencePrototypes
    (JString ("" ++ "<" ++ "P" ++ " class=x" ++ ">" ++ "Hi</P>")) mailItem
    = true.
Proof.
  assert (Hname : In (toLowerCase "P")
                    ["html"; "head"; "body"; "div"; "p"; "span"; "table";
                     "ul"; "ol"; "li"; "a"; "img"; "br"; "hr"])
    by (do 4 right; left; reflexivity).
  assert (Hlong : 10 <= String.length
                          ("" ++ "<" ++ "P" ++ " class=x" ++ ">" ++ "Hi</P>"))
    by (simpl; lia).
  split; [exact Hname|]. split; [reflexivity|]. split; [exact Hlong|].
  exact (isHtmlContent_accepts_common_tags referencePrototypes
           "" "P" " class=x" "Hi</P>" mailItem Hname eq_refl Hlong).
Defined.
